(** * iVisit: the derivation logic of the Log Book and Stations pages

    A shallow embedding of the pure logic of
    [src/pages/LogBook/LogBook.tsx] and of the Stations page that follows it
    in the same source file: log filtering, pagination and statistics,
    station classification at its call sites, station create / rename
    validation, the station list filter and the guard selection.

    Conventions of the embedding.
    - A JavaScript string is a [string]: a sequence of code units, here the
      code units below 256 (the Latin-1 range), on which [toLowerCase] and
      [trim] are written out as ECMAScript defines them.
    - A JavaScript number that holds an identifier, a count or a page index
      is a [Z].
    - A field that may be [undefined] or [null] is an [option].
    - An array is a [list]; a [Set] is the list of its elements in insertion
      order; a plain object used as a counter table is the list of its own
      properties in insertion order, read back through [Object_entries],
      on top of the members that it inherits from [Object.prototype]. *)

From Stdlib Require Import List ZArith Lia Bool String Ascii Arith.
From Stdlib Require Import Permutation Sorted.
Import ListNotations.

Local Open Scope string_scope.
Local Open Scope Z_scope.

(* ------------------------------------------------------------------ *)
(** * JavaScript strings *)

Module Js.

(** Code units that [String.prototype.trim] strips: TAB, LF, VT, FF, CR,
    SPACE and NO-BREAK SPACE. *)
Definition isWhiteSpace (c : ascii) : bool :=
  let n := N_of_ascii c in
  ((9 <=? n) && (n <=? 13) || (n =? 32) || (n =? 160))%N.

(** [toLowerCase] on one code unit: A-Z and the Latin-1 capitals
    (U+00C0..U+00DE but the multiplication sign U+00D7) move up by 32. *)
Definition toLowerChar (c : ascii) : ascii :=
  let n := N_of_ascii c in
  if ((65 <=? n) && (n <=? 90)
      || (192 <=? n) && (n <=? 222) && negb (n =? 215))%N
  then ascii_of_N (n + 32) else c.

Fixpoint toLowerCase (s : string) : string :=
  match s with
  | EmptyString => EmptyString
  | String c r => String (toLowerChar c) (toLowerCase r)
  end.

Fixpoint trimStart (s : string) : string :=
  match s with
  | EmptyString => EmptyString
  | String c r => if isWhiteSpace c then trimStart r else s
  end.

Fixpoint trimEnd (s : string) : string :=
  match s with
  | EmptyString => EmptyString
  | String c r =>
      match trimEnd r with
      | EmptyString => if isWhiteSpace c then EmptyString else String c EmptyString
      | r' => String c r'
      end
  end.

Definition trim (s : string) : string := trimEnd (trimStart s).

(** [s.startsWith(t)] and [s.includes(t)]. *)
Fixpoint startsWith (s t : string) : bool :=
  match t, s with
  | EmptyString, _ => true
  | String _ _, EmptyString => false
  | String b t', String a s' => Ascii.eqb a b && startsWith s' t'
  end.

Fixpoint includes (s t : string) : bool :=
  startsWith s t ||
  match s with
  | EmptyString => false
  | String _ r => includes r t
  end.

(** A string in a boolean position: only the empty string is falsy. *)
Definition truthy (s : string) : bool :=
  match s with EmptyString => false | _ => true end.

(** [x || d] on a possibly missing string: [undefined], [null] and the empty
    string all give [d]. *)
Definition orElse (x : option string) (d : string) : string :=
  match x with
  | Some s => if truthy s then s else d
  | None => d
  end.

(** [x ?? d]: only [undefined] and [null] give [d]. *)
Definition nullish {A} (x : option A) (d : A) : A :=
  match x with Some v => v | None => d end.

(** [xs.includes(k)] on an array of numbers. *)
Definition includesZ (xs : list Z) (k : Z) : bool := existsb (Z.eqb k) xs.

(** [Array.from(new Set(xs))]: the first occurrence of every value, in order. *)
Section SetOf.
Context {A : Type} (eqbA : A -> A -> bool).

Definition Set_add (acc : list A) (x : A) : list A :=
  if existsb (eqbA x) acc then acc else acc ++ [x].

Definition Set_of (xs : list A) : list A := fold_left Set_add xs [].
End SetOf.

(** [xs.slice(b, e)] for integral [b] and [e]: a negative bound counts from
    the end, and both are clamped into the array. *)
Definition sliceBound (len k : Z) : Z :=
  if k <? 0 then Z.max (len + k) 0 else Z.min k len.

Definition slice {A} (xs : list A) (b e : Z) : list A :=
  let len := Z.of_nat (List.length xs) in
  let k := sliceBound len b in
  let final := sliceBound len e in
  firstn (Z.to_nat (Z.max (final - k) 0)) (skipn (Z.to_nat k) xs).

(** [Math.ceil(a / b)] for integral [a] and non-zero [b]. *)
Definition ceilDiv (a b : Z) : Z := - ((- a) / b).

(** [xs.sort(cmp)]: a stable sort; [cmp x y > 0] puts [x] after [y]. *)
Section Sort.
Context {A : Type} (cmp : A -> A -> Z).

Fixpoint sortInsert (x : A) (l : list A) : list A :=
  match l with
  | [] => [x]
  | y :: l' => if cmp x y >? 0 then y :: sortInsert x l' else x :: l
  end.

Definition sort (l : list A) : list A := fold_right sortInsert [] l.
End Sort.

(** [toUpperCase] on one code unit.  SHARP S gives "SS"; for MICRO SIGN
    and Y WITH DIAERESIS the capital lies above the code units held here,
    which [None] stands for. *)
Definition toUpperChar (c : ascii) : option string :=
  let n := N_of_ascii c in
  if ((97 <=? n) && (n <=? 122)
      || (224 <=? n) && (n <=? 254) && negb (n =? 247))%N
  then Some (String (ascii_of_N (n - 32)) EmptyString)
  else if (n =? 223)%N then Some "SS"
  else if ((n =? 181) || (n =? 255))%N then None
  else Some (String c EmptyString).

Fixpoint toUpperCase (s : string) : option string :=
  match s with
  | EmptyString => Some EmptyString
  | String c r =>
      match toUpperChar c, toUpperCase r with
      | Some u, Some v => Some (u ++ v)
      | _, _ => None
      end
  end.

(** [s.toUpperCase() === t] for a [t] of code units below 256. *)
Definition toUpperCaseIs (s t : string) : bool :=
  match toUpperCase s with
  | Some u => (u =? t)%string
  | None => false
  end.

End Js.

(* ------------------------------------------------------------------ *)
(** * Records of [api/Index] *)

Record VisitorLogDTO := {
  visitorLogID : Z;
  fullName : option string;
  idType : option string;
  passNo : option string;
  location : option string;
  purposeOfVisit : option string;
  loggedBy : option string;
  date : option string;
  time : option string
}.

Record Station := {
  id : Z;
  name : option string;
  stationType : option string;
  active : option bool
}.

Record AssignedUser := {
  user_id : Z;
  username : string;
  accountType : string
}.

(** A row of [getAllUsers]. *)
Record UserAccount := {
  accountID : Z;
  account_username : string;
  account_accountType : option string
}.

(** The union type ['gate' | 'building'] of [currentType], [createType] and
    [renameType]; also the category of the specification. *)
Inductive StationKind := gate | building.

Definition StationKind_eqb (a b : StationKind) : bool :=
  match a, b with
  | gate, gate | building, building => true
  | _, _ => false
  end.

Definition kindString (k : StationKind) : string :=
  match k with gate => "gate" | building => "building" end.

Inductive Icon := faDungeon | farBuilding.

(** The icon that stands for a category. *)
Definition iconOf (k : StationKind) : Icon :=
  match k with gate => faDungeon | building => farBuilding end.

(** The classifier as the specification words it (section 4.1): a type that
    is "gate" or "building", compared without case, decides; any other or
    missing type falls back to the name containing "gate". *)
Definition classify (s : Station) : StationKind :=
  let ty := Js.toLowerCase (Js.orElse (stationType s) "") in
  if (ty =? "gate")%string then gate
  else if (ty =? "building")%string then building
  else if Js.includes (Js.toLowerCase (Js.orElse (name s) "")) "gate" then gate
  else building.

(* ------------------------------------------------------------------ *)
(** * A plain object used as a counter table: [Record<string, number>] *)

Module Counter.

(** What a property of the table holds: a number, or the text that [+ 1]
    makes of a member inherited from [Object.prototype] ("function ...1"),
    which arithmetic reads as [NaN]. *)
Inductive Value :=
| Num (n : Z)
| Text.

(** The own properties, in the order of their creation. *)
Definition t := list (string * Value).

Fixpoint get (o : t) (k : string) : option Value :=
  match o with
  | [] => None
  | (k', v) :: r => if (k' =? k)%string then Some v else get r k
  end.

(** An assignment to an own or a new data property: an existing property
    keeps its place, a new one goes last. *)
Fixpoint set (o : t) (k : string) (v : Value) : t :=
  match o with
  | [] => [(k, v)]
  | (k', v') :: r => if (k' =? k)%string then (k', v) :: r else (k', v') :: set r k v
  end.

(** The methods that every object inherits from [Object.prototype]; beside
    them it inherits the accessor [__proto__]. *)
Definition prototypeMethods : list string :=
  [ "constructor"; "hasOwnProperty"; "isPrototypeOf"; "propertyIsEnumerable";
    "toLocaleString"; "toString"; "valueOf"; "__defineGetter__";
    "__defineSetter__"; "__lookupGetter__"; "__lookupSetter__" ].

Definition isPrototypeMethod (k : string) : bool :=
  existsb (String.eqb k) prototypeMethods.

Definition onPrototype (k : string) : bool :=
  (k =? "__proto__")%string || isPrototypeMethod k.

(** [o[k] = (o[k] || 0) + 1].
    - [__proto__] reads as the prototype object, and its setter drops the
      text that [+ 1] makes of it: nothing is stored.
    - An own number goes up by one; an own text stays a text.
    - A name that is not an own property reads as [undefined], which gives
      1, unless it is an inherited method, a truthy value of which [+ 1]
      makes a text. *)
Definition bump (o : t) (k : string) : t :=
  if (k =? "__proto__")%string then o
  else
    match get o k with
    | Some (Num n) => set o k (Num (n + 1))
    | Some Text => set o k Text
    | None => if isPrototypeMethod k then set o k Text else set o k (Num 1)
    end.

(** [x - y] as the result of a sort comparator: [NaN], which a text on
    either side gives, counts as 0 there. *)
Definition difference (x y : Value) : Z :=
  match x, y with
  | Num a, Num b => a - b
  | _, _ => 0
  end.

Definition isDigit (c : ascii) : bool :=
  let n := N_of_ascii c in ((48 <=? n) && (n <=? 57))%N.

Fixpoint digitsValue (acc : Z) (s : string) : option Z :=
  match s with
  | EmptyString => Some acc
  | String c r =>
      if isDigit c
      then digitsValue (10 * acc + (Z.of_N (N_of_ascii c) - 48)) r
      else None
  end.

(** A property name is an array index when it is the canonical decimal form
    of an integer from 0 to 2^32 - 2: digits only, no leading zero. *)
Definition arrayIndex (k : string) : option Z :=
  match k with
  | EmptyString => None
  | String c r =>
      if Ascii.eqb c "0" && Js.truthy r then None
      else match digitsValue 0 k with
           | Some n => if n <=? 4294967294 then Some n else None
           | None => None
           end
  end.

Definition isIndexKey {V : Type} (kv : string * V) : bool :=
  match arrayIndex (fst kv) with Some _ => true | None => false end.

Definition indexOfKey {V : Type} (kv : string * V) : Z :=
  match arrayIndex (fst kv) with Some n => n | None => 0 end.

(** [Object.entries(o)]: the own property keys in the order ECMAScript fixes
    (OrdinaryOwnPropertyKeys): array-index keys first, by ascending value,
    then every other string key in the order of creation. *)
Definition Object_entries (o : t) : list (string * Value) :=
  Js.sort (fun a b => indexOfKey a - indexOfKey b) (filter isIndexKey o)
  ++ filter (fun kv => negb (isIndexKey kv)) o.

End Counter.

(* ------------------------------------------------------------------ *)
(** * [utils/locationSort] *)

Module LocationSort.

Inductive Token :=
| TNum (digits : string)
| TText (s : string).

Definition valueOfDigits (d : string) : Z :=
  match Counter.digitsValue 0 d with Some n => n | None => 0 end.

(** Cut a name into maximal runs of digits and of other code units. *)
Fixpoint tokens (s : string) : list Token :=
  match s with
  | EmptyString => []
  | String c r =>
      let ts := tokens r in
      if Counter.isDigit c then
        match ts with
        | TNum d :: ts' => TNum (String c d) :: ts'
        | _ => TNum (String c EmptyString) :: ts
        end
      else
        match ts with
        | TText t :: ts' => TText (String c t) :: ts'
        | _ => TText (String c EmptyString) :: ts
        end
  end.

Definition compareToken (a b : Token) : comparison :=
  match a, b with
  | TNum m, TNum n => Z.compare (valueOfDigits m) (valueOfDigits n)
  | TNum _, TText _ => Lt
  | TText _, TNum _ => Gt
  | TText s, TText t => String.compare s t
  end.

Fixpoint compareTokens (a b : list Token) : comparison :=
  match a, b with
  | [], [] => Eq
  | [], _ :: _ => Lt
  | _ :: _, [] => Gt
  | x :: a', y :: b' =>
      match compareToken x y with
      | Eq => compareTokens a' b'
      | c => c
      end
  end.

Definition isGateName (n : string) : bool :=
  Js.includes (Js.toLowerCase n) "gate".

(** Modelled from the spec: [sortGateAware] of [utils/locationSort] is
    imported by the Log Book page but its source is not at hand.  Section 4.4
    asks for a deterministic, stable sort whose comparator orders gate names
    by their embedded numeric tokens taken as numbers ("Gate 2" before
    "Gate 10"), orders the other names lexicographically, and leaves the
    mixed case to "gates first or interleaved by name"; gates first is taken
    here. *)
Definition gateAwareCompare (a b : string) : comparison :=
  match isGateName a, isGateName b with
  | true, true => compareTokens (tokens a) (tokens b)
  | true, false => Lt
  | false, true => Gt
  | false, false => String.compare a b
  end.

Definition comparatorOf (c : comparison) : Z :=
  match c with Lt => -1 | Eq => 0 | Gt => 1 end.

Definition sortGateAware (names : list string) : list string :=
  Js.sort (fun a b => comparatorOf (gateAwareCompare a b)) names.

End LocationSort.

(* ------------------------------------------------------------------ *)
(** * The Log Book page *)

Module LogBook.

Inductive StatusFilter := status_all | status_active | status_inactive.

Definition StatusFilter_eqb (a b : StatusFilter) : bool :=
  match a, b with
  | status_all, status_all
  | status_active, status_active
  | status_inactive, status_inactive => true
  | _, _ => false
  end.

Record LogStats := {
  active : Z;
  uniqueToday : Z;
  frequentBuilding : string;
  highestGate : string;
  uniqueWeek : Z;
  uniqueMonth : Z
}.

(** The state cells of the component that the derived values read. *)
Record State := {
  data : list VisitorLogDTO;
  activeLogIds : list Z;
  search : string;
  statusFilter : StatusFilter;
  locationFilter : string;
  stations : list Station;
  page : Z;
  pageSize : Z
}.

Definition isActive (st : State) (logId : Z) : bool :=
  Js.includesZ (activeLogIds st) logId.

Definition locationNames (st : State) : list string :=
  filter (fun n => Js.truthy n && negb (n =? "N/A")%string)
         (map (fun s => Js.trim (Js.orElse (name s) "")) (stations st)).

Definition locationOptions (st : State) : list string :=
  match stations st with
  | [] => []
  | _ :: _ =>
      let names := locationNames st in
      let unique := Js.Set_of String.eqb names in
      LocationSort.sortGateAware unique
  end.

Definition searchFields (e : VisitorLogDTO) : list string :=
  [ Js.nullish (fullName e) ""; Js.nullish (idType e) "";
    Js.nullish (passNo e) ""; Js.nullish (location e) "";
    Js.nullish (purposeOfVisit e) ""; Js.nullish (loggedBy e) "";
    Js.nullish (date e) ""; Js.nullish (time e) "" ].

(** The callback of [data.filter] in [filteredLogs]. *)
Definition keepLog (st : State) (e : VisitorLogDTO) : bool :=
  let term := Js.toLowerCase (search st) in
  let logIsActive := isActive st (visitorLogID e) in
  let location := Js.toLowerCase (Js.trim (Js.orElse (location e) "")) in
  if StatusFilter_eqb (statusFilter st) status_active && negb logIsActive then false
  else if StatusFilter_eqb (statusFilter st) status_inactive && logIsActive then false
  else if negb (locationFilter st =? "all")%string
          && (negb (Js.truthy location)
              || negb (location =? Js.toLowerCase (Js.trim (locationFilter st)))%string)
  then false
  else if negb (Js.truthy term) then true
  else existsb (fun field => Js.includes (Js.toLowerCase field) term)
               (searchFields e).

Definition filteredLogs (st : State) : list VisitorLogDTO :=
  filter (keepLog st) (data st).

Definition totalElements (st : State) : Z :=
  Z.of_nat (List.length (filteredLogs st)).

Definition totalPages (st : State) : Z :=
  if totalElements st =? 0 then 0
  else Js.ceilDiv (totalElements st) (pageSize st).

Definition currentPage (st : State) : Z :=
  if totalPages st =? 0 then 0
  else Z.min (page st) (totalPages st - 1).

Definition pagedLogs (st : State) : list VisitorLogDTO :=
  Js.slice (filteredLogs st)
           (currentPage st * pageSize st)
           (currentPage st * pageSize st + pageSize st).

(** [Object.entries(count).sort((a, b) => b[1] - a[1])[0]?.[0]].  When a
    text stands among the counts the comparator is not consistent and the
    language leaves the order to the engine; the order taken here is that of
    the stable insertion. *)
Definition topKey (count : Counter.t) : option string :=
  option_map fst
    (hd_error (Js.sort (fun a b => Counter.difference (snd b) (snd a))
                       (Counter.Object_entries count))).

Definition option_eqb (a b : option string) : bool :=
  match a, b with
  | Some x, Some y => (x =? y)%string
  | None, None => true
  | _, _ => false
  end.

Definition todayLogsOf (st : State) (today : string) : list VisitorLogDTO :=
  filter (fun d => option_eqb (date d) (Some today)) (data st).

Definition locationCountOf (todayLogs : list VisitorLogDTO) : Counter.t :=
  fold_left (fun count d => Counter.bump count (Js.orElse (location d) "Unknown"))
            todayLogs [].

Definition gateCountOf (todayLogs : list VisitorLogDTO) : Counter.t :=
  fold_left (fun count d =>
               let loc := Js.toLowerCase (Js.orElse (location d) "") in
               if Js.includes loc "gate"
               then Counter.bump count (Js.orElse (location d) "Unknown gate")
               else count)
            todayLogs [].

(** The [stats] memo; [today] stands for
    [new Date().toISOString().slice(0, 10)]. *)
Definition stats (st : State) (today : string) : option LogStats :=
  match data st with
  | [] => None
  | _ :: _ =>
      let todayLogs := todayLogsOf st today in
      let todayActiveLogs :=
        filter (fun d => Js.includesZ (activeLogIds st) (visitorLogID d)) todayLogs in
      let uniqueToday :=
        Z.of_nat (List.length (Js.Set_of option_eqb (map fullName todayLogs))) in
      let active := Z.of_nat (List.length todayActiveLogs) in
      let frequentBuilding := topKey (locationCountOf todayLogs) in
      let highestGate := topKey (gateCountOf todayLogs) in
      let uniqueWeek :=
        Z.of_nat (List.length (Js.Set_of option_eqb (map fullName (data st)))) in
      let uniqueMonth :=
        Z.of_nat (List.length (Js.Set_of option_eqb (map fullName (data st)))) in
      Some {| active := active;
              uniqueToday := uniqueToday;
              frequentBuilding := Js.orElse frequentBuilding "N/A";
              highestGate := Js.orElse highestGate "N/A";
              uniqueWeek := uniqueWeek;
              uniqueMonth := uniqueMonth |}
  end.

(** The icon of a table row: the body of [pagedLogs.map], lines 254-271. *)
Definition locationIcon (st : State) (row : VisitorLogDTO) : option Icon :=
  let locationName := Js.trim (Js.orElse (location row) "") in
  if Js.truthy locationName then
    let matched :=
      find (fun s => (Js.toLowerCase (Js.trim (Js.orElse (name s) ""))
                      =? Js.toLowerCase locationName)%string) (stations st) in
    let stationType :=
      Js.toLowerCase
        (Js.orElse (match matched with Some m => stationType m | None => None end) "") in
    let isMatched := match matched with Some _ => true | None => false end in
    let looksLikeGate := Js.includes (Js.toLowerCase locationName) "gate" in
    if (stationType =? "gate")%string || (negb isMatched && looksLikeGate)
    then Some faDungeon
    else if (stationType =? "building")%string || isMatched
    then Some farBuilding
    else if negb isMatched
    then Some farBuilding
    else None
  else None.

(** The handlers of the controls.  [onPageChange] is [setPage]; every
    change of a filter or of the page size also goes back to page 0. *)
Definition onPageChange (st : State) (p : Z) : State :=
  {| data := data st; activeLogIds := activeLogIds st; search := search st;
     statusFilter := statusFilter st; locationFilter := locationFilter st;
     stations := stations st; page := p; pageSize := pageSize st |}.

Definition onStatusFilterChange (st : State) (value : StatusFilter) : State :=
  {| data := data st; activeLogIds := activeLogIds st; search := search st;
     statusFilter := value; locationFilter := locationFilter st;
     stations := stations st; page := 0; pageSize := pageSize st |}.

Definition onLocationFilterChange (st : State) (value : string) : State :=
  {| data := data st; activeLogIds := activeLogIds st; search := search st;
     statusFilter := statusFilter st; locationFilter := value;
     stations := stations st; page := 0; pageSize := pageSize st |}.

Definition onSearchChange (st : State) (value : string) : State :=
  {| data := data st; activeLogIds := activeLogIds st; search := value;
     statusFilter := statusFilter st; locationFilter := locationFilter st;
     stations := stations st; page := 0; pageSize := pageSize st |}.

Definition onPageSizeChange (st : State) (newSize : Z) : State :=
  {| data := data st; activeLogIds := activeLogIds st; search := search st;
     statusFilter := statusFilter st; locationFilter := locationFilter st;
     stations := stations st; page := 0; pageSize := newSize |}.

(** The status cell of a table row. *)
Definition rowStatus (st : State) (row : VisitorLogDTO) : string :=
  if isActive st (visitorLogID row) then "Active" else "Inactive".

End LogBook.

(* ------------------------------------------------------------------ *)
(** * The Stations page *)

Module Stations.

(** What a call to [api/Index] comes back with: the awaited value, or the
    [message] of the error it throws. *)
Inductive ApiResult (A : Type) :=
| Resolved (value : A)
| Rejected (message : option string).
Arguments Resolved {A} value.
Arguments Rejected {A} message.

(** The requests a handler sends, in order. *)
Inductive ApiCall :=
| getStationGuards (stationId : Z)
| updateStationGuards (stationId : Z) (guardIds : list Z)
| createStation (stationName : string) (kind : StationKind) (isActive : bool)
| updateStation (stationId : Z) (stationName : string) (isActive : option bool)
                (kind : StationKind).

(** The state cells of the component. *)
Record State := {
  currentType : StationKind;
  stations : list Station;
  selectedStationId : option Z;
  error : option string;
  assignedUsers : list AssignedUser;
  selectedGuardIds : list Z;
  assignModalOpen : bool;
  createModalOpen : bool;
  createName : string;
  createType : StationKind;
  createError : option string;
  showInactive : bool;
  renameModalOpen : bool;
  renameName : string;
  renameType : StationKind;
  renameError : option string
}.

Definition setStations (st : State) (v : list Station) : State :=
  {| currentType := currentType st; stations := v;
     selectedStationId := selectedStationId st; error := error st;
     assignedUsers := assignedUsers st;
     selectedGuardIds := selectedGuardIds st;
     assignModalOpen := assignModalOpen st;
     createModalOpen := createModalOpen st; createName := createName st;
     createType := createType st; createError := createError st;
     showInactive := showInactive st; renameModalOpen := renameModalOpen st;
     renameName := renameName st; renameType := renameType st;
     renameError := renameError st |}.

Definition setSelectedStationId (st : State) (v : option Z) : State :=
  {| currentType := currentType st; stations := stations st;
     selectedStationId := v; error := error st;
     assignedUsers := assignedUsers st;
     selectedGuardIds := selectedGuardIds st;
     assignModalOpen := assignModalOpen st;
     createModalOpen := createModalOpen st; createName := createName st;
     createType := createType st; createError := createError st;
     showInactive := showInactive st; renameModalOpen := renameModalOpen st;
     renameName := renameName st; renameType := renameType st;
     renameError := renameError st |}.

Definition setError (st : State) (v : option string) : State :=
  {| currentType := currentType st; stations := stations st;
     selectedStationId := selectedStationId st; error := v;
     assignedUsers := assignedUsers st;
     selectedGuardIds := selectedGuardIds st;
     assignModalOpen := assignModalOpen st;
     createModalOpen := createModalOpen st; createName := createName st;
     createType := createType st; createError := createError st;
     showInactive := showInactive st; renameModalOpen := renameModalOpen st;
     renameName := renameName st; renameType := renameType st;
     renameError := renameError st |}.

Definition setAssignedUsers (st : State) (v : list AssignedUser) : State :=
  {| currentType := currentType st; stations := stations st;
     selectedStationId := selectedStationId st; error := error st;
     assignedUsers := v; selectedGuardIds := selectedGuardIds st;
     assignModalOpen := assignModalOpen st;
     createModalOpen := createModalOpen st; createName := createName st;
     createType := createType st; createError := createError st;
     showInactive := showInactive st; renameModalOpen := renameModalOpen st;
     renameName := renameName st; renameType := renameType st;
     renameError := renameError st |}.

Definition setSelectedGuardIds (st : State) (v : list Z) : State :=
  {| currentType := currentType st; stations := stations st;
     selectedStationId := selectedStationId st; error := error st;
     assignedUsers := assignedUsers st; selectedGuardIds := v;
     assignModalOpen := assignModalOpen st;
     createModalOpen := createModalOpen st; createName := createName st;
     createType := createType st; createError := createError st;
     showInactive := showInactive st; renameModalOpen := renameModalOpen st;
     renameName := renameName st; renameType := renameType st;
     renameError := renameError st |}.

Definition setAssignModalOpen (st : State) (v : bool) : State :=
  {| currentType := currentType st; stations := stations st;
     selectedStationId := selectedStationId st; error := error st;
     assignedUsers := assignedUsers st;
     selectedGuardIds := selectedGuardIds st; assignModalOpen := v;
     createModalOpen := createModalOpen st; createName := createName st;
     createType := createType st; createError := createError st;
     showInactive := showInactive st; renameModalOpen := renameModalOpen st;
     renameName := renameName st; renameType := renameType st;
     renameError := renameError st |}.

Definition setCreateModalOpen (st : State) (v : bool) : State :=
  {| currentType := currentType st; stations := stations st;
     selectedStationId := selectedStationId st; error := error st;
     assignedUsers := assignedUsers st;
     selectedGuardIds := selectedGuardIds st;
     assignModalOpen := assignModalOpen st; createModalOpen := v;
     createName := createName st; createType := createType st;
     createError := createError st; showInactive := showInactive st;
     renameModalOpen := renameModalOpen st; renameName := renameName st;
     renameType := renameType st; renameError := renameError st |}.

Definition setCreateError (st : State) (v : option string) : State :=
  {| currentType := currentType st; stations := stations st;
     selectedStationId := selectedStationId st; error := error st;
     assignedUsers := assignedUsers st;
     selectedGuardIds := selectedGuardIds st;
     assignModalOpen := assignModalOpen st;
     createModalOpen := createModalOpen st; createName := createName st;
     createType := createType st; createError := v;
     showInactive := showInactive st; renameModalOpen := renameModalOpen st;
     renameName := renameName st; renameType := renameType st;
     renameError := renameError st |}.

Definition setRenameModalOpen (st : State) (v : bool) : State :=
  {| currentType := currentType st; stations := stations st;
     selectedStationId := selectedStationId st; error := error st;
     assignedUsers := assignedUsers st;
     selectedGuardIds := selectedGuardIds st;
     assignModalOpen := assignModalOpen st;
     createModalOpen := createModalOpen st; createName := createName st;
     createType := createType st; createError := createError st;
     showInactive := showInactive st; renameModalOpen := v;
     renameName := renameName st; renameType := renameType st;
     renameError := renameError st |}.

Definition setRenameError (st : State) (v : option string) : State :=
  {| currentType := currentType st; stations := stations st;
     selectedStationId := selectedStationId st; error := error st;
     assignedUsers := assignedUsers st;
     selectedGuardIds := selectedGuardIds st;
     assignModalOpen := assignModalOpen st;
     createModalOpen := createModalOpen st; createName := createName st;
     createType := createType st; createError := createError st;
     showInactive := showInactive st; renameModalOpen := renameModalOpen st;
     renameName := renameName st; renameType := renameType st;
     renameError := v |}.

Definition initialState : State :=
  {| currentType := gate; stations := []; selectedStationId := None;
     error := None; assignedUsers := []; selectedGuardIds := [];
     assignModalOpen := false; createModalOpen := false; createName := "";
     createType := gate; createError := None; showInactive := false;
     renameModalOpen := false; renameName := ""; renameType := gate;
     renameError := None |}.

(** [selectedStationId ? stations.find(...) || null : null]; the number 0 is
    falsy. *)
Definition selectedStation (st : State) : option Station :=
  match selectedStationId st with
  | Some sid =>
      if sid =? 0 then None
      else find (fun s => id s =? sid) (stations st)
  | None => None
  end.

(** The effect that follows a change of [selectedStationId], once its
    request has come back without having been cancelled. *)
Definition fetchGuardsForStation (st : State)
    (resp : ApiResult (list AssignedUser)) : list ApiCall * State :=
  match selectedStationId st with
  | None => ([], setSelectedGuardIds (setAssignedUsers st []) [])
  | Some sid =>
      match resp with
      | Resolved guards =>
          ([getStationGuards sid],
           setSelectedGuardIds (setAssignedUsers st guards) (map user_id guards))
      | Rejected message =>
          ([getStationGuards sid],
           setError st (Some (Js.orElse message "Failed to load guards for station")))
      end
  end.

(** The callback of [stations.filter] in [filteredStations]. *)
Definition matchesTab (st : State) (s : Station) : bool :=
  let rawType := Js.toLowerCase (Js.orElse (stationType s) "") in
  let name := Js.toLowerCase (Js.orElse (name s) "") in
  let matchesType :=
    if (rawType =? "gate")%string || (rawType =? "building")%string
    then (rawType =? kindString (currentType st))%string
    else if negb (Js.truthy name) then true
    else if StationKind_eqb (currentType st) gate then Js.includes name "gate"
    else negb (Js.includes name "gate") in
  if negb matchesType then false
  else if negb (showInactive st)
  then negb (match active s with Some false => true | _ => false end)
  else true.

Definition filteredStations (st : State) : list Station :=
  filter (matchesTab st) (stations st).

(** The icon of a station in the list and in the detail header. *)
Definition stationIcon (station : Station) : Icon :=
  let t := Js.toLowerCase (Js.orElse (stationType station) "") in
  let looksLikeGate :=
    Js.includes (Js.toLowerCase (Js.orElse (name station) "")) "gate" in
  if (t =? "gate")%string || (negb (Js.truthy t) && looksLikeGate)
  then faDungeon else farBuilding.

Definition handleToggleGuardSelection (st : State) (guardId : Z) : State :=
  let prev := selectedGuardIds st in
  setSelectedGuardIds st
    (if Js.includesZ prev guardId
     then filter (fun id => negb (id =? guardId)) prev
     else prev ++ [guardId]).

Definition handleSaveAssignments (st : State)
    (respUpdate : ApiResult unit) (respGet : ApiResult (list AssignedUser))
  : list ApiCall * State :=
  match selectedStationId st with
  | None => ([], st)
  | Some sid =>
      if sid =? 0 then ([], st)
      else
        let update := updateStationGuards sid (selectedGuardIds st) in
        match respUpdate with
        | Rejected message =>
            ([update],
             setError st (Some (Js.orElse message "Failed to update station guards")))
        | Resolved _ =>
            match respGet with
            | Rejected message =>
                ([update; getStationGuards sid],
                 setError st (Some (Js.orElse message "Failed to update station guards")))
            | Resolved updated =>
                ([update; getStationGuards sid],
                 setAssignModalOpen (setAssignedUsers st updated) false)
            end
        end
  end.

(** [finalName] of the create and rename handlers. *)
Definition gatePrefixed (kind : StationKind) (rawName : string) : string :=
  if StationKind_eqb kind gate
     && negb (Js.includes (Js.toLowerCase rawName) "gate")
  then "Gate " ++ rawName
  else rawName.

Definition handleCreateStation (st : State) (resp : ApiResult Station)
  : list ApiCall * State :=
  let st := setCreateError st None in
  let rawName := Js.trim (createName st) in
  if negb (Js.truthy rawName)
  then ([], setCreateError st (Some "Please enter a station name."))
  else
    let exists_ :=
      existsb (fun s => (Js.toLowerCase (Js.orElse (name s) "")
                         =? Js.toLowerCase rawName)%string) (stations st) in
    if exists_
    then ([], setCreateError st (Some "A station with that name already exists."))
    else
      let finalName := gatePrefixed (createType st) rawName in
      let request := createStation finalName (createType st) true in
      match resp with
      | Resolved created =>
          let newStation :=
            {| id := id created;
               name := name created;
               active := Some (Js.nullish (active created) true);
               stationType :=
                 Some (Js.nullish (stationType created) (kindString (createType st))) |} in
          ([request],
           setCreateModalOpen (setStations st (stations st ++ [newStation])) false)
      | Rejected message =>
          ([request],
           setCreateError st (Some (Js.orElse message "Failed to create station.")))
      end.

(** [{...s, ...updated, active: ..., stationType: ...}]: a field that the
    response does not carry keeps the value of [s]. *)
Definition mergeUpdated (s updated : Station) (stationTypeValue : StationKind)
  : Station :=
  {| id := id updated;
     name := match name updated with Some n => Some n | None => name s end;
     active := Some (Js.nullish (active updated) (Js.nullish (active s) true));
     stationType :=
       Some (Js.nullish (stationType updated) (kindString stationTypeValue)) |}.

Definition handleRenameStation (st : State) (resp : ApiResult Station)
  : list ApiCall * State :=
  match selectedStation st with
  | None => ([], st)
  | Some selected =>
      let rawName := Js.trim (renameName st) in
      if negb (Js.truthy rawName)
      then ([], setRenameError st (Some "Please enter a station name."))
      else
        let finalName := gatePrefixed (renameType st) rawName in
        let stationTypeValue := renameType st in
        let request :=
          updateStation (id selected) finalName (active selected) stationTypeValue in
        match resp with
        | Resolved updated =>
            ([request],
             setRenameModalOpen
               (setStations st
                  (map (fun s => if id s =? id selected
                                 then mergeUpdated s updated stationTypeValue
                                 else s) (stations st)))
               false)
        | Rejected message =>
            ([request],
             setRenameError st (Some (Js.orElse message "Failed to rename station.")))
        end
  end.

(** What happens to the page between two renders. *)
Inductive Event :=
| SelectStation (sid : option Z)
| GuardsArrived (resp : ApiResult (list AssignedUser))
| ToggleGuard (guardId : Z)
| SaveAssignments (respUpdate : ApiResult unit)
                  (respGet : ApiResult (list AssignedUser)).

Definition step (st : State) (ev : Event) : list ApiCall * State :=
  match ev with
  | SelectStation None =>
      fetchGuardsForStation (setSelectedStationId st None) (Rejected None)
  | SelectStation (Some sid) => ([], setSelectedStationId st (Some sid))
  | GuardsArrived resp => fetchGuardsForStation st resp
  | ToggleGuard guardId => ([], handleToggleGuardSelection st guardId)
  | SaveAssignments respUpdate respGet => handleSaveAssignments st respUpdate respGet
  end.

Fixpoint run (st : State) (evs : list Event) : list ApiCall * State :=
  match evs with
  | [] => ([], st)
  | ev :: rest =>
      let (calls, st') := step st ev in
      let (calls', st'') := run st' rest in
      ((calls ++ calls')%list, st'')
  end.

Definition setCurrentType (st : State) (v : StationKind) : State :=
  {| currentType := v; stations := stations st;
     selectedStationId := selectedStationId st; error := error st;
     assignedUsers := assignedUsers st;
     selectedGuardIds := selectedGuardIds st;
     assignModalOpen := assignModalOpen st;
     createModalOpen := createModalOpen st; createName := createName st;
     createType := createType st; createError := createError st;
     showInactive := showInactive st; renameModalOpen := renameModalOpen st;
     renameName := renameName st; renameType := renameType st;
     renameError := renameError st |}.

Definition setShowInactive (st : State) (v : bool) : State :=
  {| currentType := currentType st; stations := stations st;
     selectedStationId := selectedStationId st; error := error st;
     assignedUsers := assignedUsers st;
     selectedGuardIds := selectedGuardIds st;
     assignModalOpen := assignModalOpen st;
     createModalOpen := createModalOpen st; createName := createName st;
     createType := createType st; createError := createError st;
     showInactive := v; renameModalOpen := renameModalOpen st;
     renameName := renameName st; renameType := renameType st;
     renameError := renameError st |}.

Definition setCreateName (st : State) (v : string) : State :=
  {| currentType := currentType st; stations := stations st;
     selectedStationId := selectedStationId st; error := error st;
     assignedUsers := assignedUsers st;
     selectedGuardIds := selectedGuardIds st;
     assignModalOpen := assignModalOpen st;
     createModalOpen := createModalOpen st; createName := v;
     createType := createType st; createError := createError st;
     showInactive := showInactive st; renameModalOpen := renameModalOpen st;
     renameName := renameName st; renameType := renameType st;
     renameError := renameError st |}.

Definition setCreateType (st : State) (v : StationKind) : State :=
  {| currentType := currentType st; stations := stations st;
     selectedStationId := selectedStationId st; error := error st;
     assignedUsers := assignedUsers st;
     selectedGuardIds := selectedGuardIds st;
     assignModalOpen := assignModalOpen st;
     createModalOpen := createModalOpen st; createName := createName st;
     createType := v; createError := createError st;
     showInactive := showInactive st; renameModalOpen := renameModalOpen st;
     renameName := renameName st; renameType := renameType st;
     renameError := renameError st |}.

Definition setRenameName (st : State) (v : string) : State :=
  {| currentType := currentType st; stations := stations st;
     selectedStationId := selectedStationId st; error := error st;
     assignedUsers := assignedUsers st;
     selectedGuardIds := selectedGuardIds st;
     assignModalOpen := assignModalOpen st;
     createModalOpen := createModalOpen st; createName := createName st;
     createType := createType st; createError := createError st;
     showInactive := showInactive st; renameModalOpen := renameModalOpen st;
     renameName := v; renameType := renameType st;
     renameError := renameError st |}.

Definition setRenameType (st : State) (v : StationKind) : State :=
  {| currentType := currentType st; stations := stations st;
     selectedStationId := selectedStationId st; error := error st;
     assignedUsers := assignedUsers st;
     selectedGuardIds := selectedGuardIds st;
     assignModalOpen := assignModalOpen st;
     createModalOpen := createModalOpen st; createName := createName st;
     createType := createType st; createError := createError st;
     showInactive := showInactive st; renameModalOpen := renameModalOpen st;
     renameName := renameName st; renameType := v;
     renameError := renameError st |}.

(** The request of [handleToggleStationActive]. *)
Inductive StatusCall :=
| setStationActive (stationId : Z) (isActive : bool).

(** [{ ...s, ...updated }]: a field that the response does not carry keeps
    the value of [s]. *)
Definition spreadStation (s updated : Station) : Station :=
  {| id := id updated;
     name := match name updated with Some n => Some n | None => name s end;
     stationType :=
       match stationType updated with Some t => Some t | None => stationType s end;
     active := match active updated with Some a => Some a | None => active s end |}.

(** [ok] is the answer to [window.confirm]. *)
Definition handleToggleStationActive (st : State) (station : Station)
    (ok : bool) (resp : ApiResult Station) : list StatusCall * State :=
  let newActive := match active station with Some false => true | _ => false end in
  if negb ok then ([], st)
  else
    let request := setStationActive (id station) newActive in
    match resp with
    | Resolved updated =>
        let st1 :=
          setStations st
            (map (fun s => if id s =? id station then spreadStation s updated else s)
                 (stations st)) in
        if negb (match active updated with Some true => true | _ => false end)
           && negb (showInactive st)
           && (match selectedStationId st with
               | Some sid => sid =? id station
               | None => false
               end)
        then ([request], setSelectedStationId st1 None)
        else ([request], st1)
    | Rejected message =>
        ([request],
         setError st (Some (Js.orElse message "Failed to update station status")))
    end.

(** [const isActive = station.active !== false] of the station list: it
    decides between the buttons "Deactivate" and "Reactivate". *)
Definition isActive (station : Station) : bool :=
  match active station with Some false => false | _ => true end.

Definition openCreateModal (st : State) : State :=
  setCreateModalOpen
    (setCreateError (setCreateType (setCreateName st "") (currentType st)) None)
    true.

Definition openRenameModal (st : State) : State :=
  match selectedStation st with
  | None => st
  | Some selected =>
      let st1 := setRenameName st (Js.orElse (name selected) "") in
      let rawType := Js.toLowerCase (Js.orElse (stationType selected) "") in
      let st2 :=
        if (rawType =? "gate")%string then setRenameType st1 gate
        else if (rawType =? "building")%string then setRenameType st1 building
        else setRenameType st1 (currentType st) in
      setRenameModalOpen (setRenameError st2 None) true
  end.

(** The first effect: the stations and the guard accounts are loaded
    together. *)
Definition normalizeStation (s : Station) : Station :=
  {| id := id s;
     name := name s;
     stationType := stationType s;
     active := Some (Js.nullish (active s) true) |}.

Definition guardsOf (usersData : list UserAccount) : list AssignedUser :=
  map (fun u => {| user_id := accountID u;
                   username := account_username u;
                   accountType := Js.orElse (account_accountType u) "" |})
      (filter (fun u => Js.toUpperCaseIs (Js.orElse (account_accountType u) "") "GUARD")
              usersData).

Record Screen := {
  cells : State;
  allGuards : list AssignedUser;
  loading : bool
}.

Definition fetchStationsAndGuards (sc : Screen)
    (resp : ApiResult (list Station * list UserAccount)) : Screen :=
  match resp with
  | Resolved (stationsData, usersData) =>
      {| cells := setError (setStations (cells sc) (map normalizeStation stationsData))
                           None;
         allGuards := guardsOf usersData;
         loading := false |}
  | Rejected message =>
      {| cells := setError (cells sc)
                    (Some (Js.orElse message "Failed to load stations or guards"));
         allGuards := allGuards sc;
         loading := false |}
  end.

End Stations.

(* ------------------------------------------------------------------ *)
(** * Vocabulary of the properties *)

(** [l1] is [l2] with some elements left out, the others in place. *)
Inductive Subseq {A : Type} : list A -> list A -> Prop :=
| Subseq_nil : Subseq [] []
| Subseq_skip x l1 l2 : Subseq l1 l2 -> Subseq l1 (x :: l2)
| Subseq_keep x l1 l2 : Subseq l1 l2 -> Subseq (x :: l1) (x :: l2).

(** [t] occurs in [s] as a run of consecutive code units. *)
Definition Contains (s t : string) : Prop :=
  exists pre post, s = pre ++ t ++ post.

(** A type that the classifier recognises. *)
Definition typedAs (s : Station) (k : StationKind) : Prop :=
  Js.toLowerCase (Js.orElse (stationType s) "") = kindString k.

(** A legacy station: no recognised type and no name to go by. *)
Definition Legacy (s : Station) : Prop :=
  ~ typedAs s gate /\ ~ typedAs s building /\ Js.orElse (name s) "" = "".

(** [a] is met in [l] before any [b]. *)
Definition FirstBefore {A : Type} (l : list A) (a b : A) : Prop :=
  exists pre post, l = (pre ++ a :: post)%list /\ ~ In b pre.

(** The order in which [Object.entries] lists two keys of a counter table
    filled from [l]. *)
Definition KeyBefore (l : list string) (a b : string) : Prop :=
  match Counter.arrayIndex a, Counter.arrayIndex b with
  | Some i, Some j => i < j
  | Some _, None => True
  | None, Some _ => False
  | None, None => FirstBefore l a b
  end.

(** Number of occurrences of a location. *)
Definition occurrences (l : list string) (k : string) : Z :=
  Z.of_nat (count_occ string_dec l k).

(** [r] has the highest count in [l], and [before r k] holds for every other
    [k] that ties with it. *)
Definition TopBy (before : string -> string -> Prop) (l : list string)
    (r : string) : Prop :=
  In r l /\
  forall k, In k l ->
    occurrences l k <= occurrences l r /\
    (occurrences l k = occurrences l r -> k <> r -> before r k).

(** The messages of the two validation failures. *)
Definition emptyNameError : string := "Please enter a station name.".
Definition duplicateNameError : string := "A station with that name already exists.".

(** A station whose stored name, a missing one read as empty, is [rawName]
    up to case. *)
Definition DuplicateOf (sts : list Station) (rawName : string) : Prop :=
  exists s, In s sts /\
    Js.toLowerCase (Js.orElse (name s) "") = Js.toLowerCase rawName.

(** A station whose name is [rawName] up to case once both are trimmed. *)
Definition DuplicateTrimmed (sts : list Station) (rawName : string) : Prop :=
  exists s, In s sts /\
    Js.toLowerCase (Js.trim (Js.orElse (name s) ""))
    = Js.toLowerCase (Js.trim rawName).

(** [finalName] is [rawName] with "Gate " in front exactly when the kind is
    gate and [rawName] does not contain "gate" in any case. *)
Definition GatePrefixRule (kind : StationKind) (rawName finalName : string) : Prop :=
  (kind = gate /\ ~ Contains (Js.toLowerCase rawName) "gate" ->
   finalName = "Gate " ++ rawName) /\
  (~ (kind = gate /\ ~ Contains (Js.toLowerCase rawName) "gate") ->
   finalName = rawName).

(** The three tests of the log filter. *)
Definition StatusPasses (st : LogBook.State) (e : VisitorLogDTO) : Prop :=
  match LogBook.statusFilter st with
  | LogBook.status_all => True
  | LogBook.status_active => In (visitorLogID e) (LogBook.activeLogIds st)
  | LogBook.status_inactive => ~ In (visitorLogID e) (LogBook.activeLogIds st)
  end.

Definition LocationPasses (st : LogBook.State) (e : VisitorLogDTO) : Prop :=
  LogBook.locationFilter st <> "all" ->
  let loc := Js.toLowerCase (Js.trim (Js.orElse (location e) "")) in
  loc <> "" /\ loc = Js.toLowerCase (Js.trim (LogBook.locationFilter st)).

Definition SearchPasses (st : LogBook.State) (e : VisitorLogDTO) : Prop :=
  LogBook.search st <> "" ->
  exists field,
    In field [ Js.nullish (fullName e) ""; Js.nullish (idType e) "";
               Js.nullish (passNo e) ""; Js.nullish (location e) "";
               Js.nullish (purposeOfVisit e) ""; Js.nullish (loggedBy e) "";
               Js.nullish (date e) ""; Js.nullish (time e) "" ] /\
    Contains (Js.toLowerCase field) (Js.toLowerCase (LogBook.search st)).

(** [n] is the number of distinct values in [l]. *)
Definition DistinctCount {A : Type} (l : list A) (n : Z) : Prop :=
  exists ds, NoDup ds /\ (forall x, In x ds <-> In x l) /\
             n = Z.of_nat (List.length ds).

(** A list of guards that a request brings back names every guard once. *)
Definition FetchedOnce (ev : Stations.Event) : Prop :=
  match ev with
  | Stations.GuardsArrived (Stations.Resolved guards) => NoDup (map user_id guards)
  | _ => True
  end.

(** The guard-assignment requests among the requests sent. *)
Definition replacementsSent (calls : list Stations.ApiCall) : list (Z * list Z) :=
  flat_map (fun c => match c with
                     | Stations.updateStationGuards sid ids => [(sid, ids)]
                     | _ => []
                     end) calls.

(** The page state with the cell [page] set to [p]. *)
Definition atPage (st : LogBook.State) (p : Z) : LogBook.State :=
  {| LogBook.data := LogBook.data st;
     LogBook.activeLogIds := LogBook.activeLogIds st;
     LogBook.search := LogBook.search st;
     LogBook.statusFilter := LogBook.statusFilter st;
     LogBook.locationFilter := LogBook.locationFilter st;
     LogBook.stations := LogBook.stations st;
     LogBook.page := p;
     LogBook.pageSize := LogBook.pageSize st |}.

(** The page indexes [0 .. n - 1]. *)
Definition pageIndexes (n : Z) : list Z := map Z.of_nat (seq 0 (Z.to_nat n)).

(** [a] may stand before [b] in the location options. *)
Definition GateAwareLe (a b : string) : Prop :=
  LocationSort.gateAwareCompare a b <> Gt.

(** [x] stands in [l] at a place before one where [y] stands. *)
Definition Before {A : Type} (l : list A) (x y : A) : Prop :=
  exists p q, l = (p ++ x :: q)%list /\ In y q.

(** The counts as plain numbers: the table that counting builds from keys
    none of which [Object.prototype] defines, and its reading. *)
Module Tally.

Definition t := list (string * Z).

Fixpoint get (o : t) (k : string) : option Z :=
  match o with
  | [] => None
  | (k', v) :: r => if (k' =? k)%string then Some v else get r k
  end.

Fixpoint set (o : t) (k : string) (v : Z) : t :=
  match o with
  | [] => [(k, v)]
  | (k', v') :: r => if (k' =? k)%string then (k', v) :: r else (k', v') :: set r k v
  end.

Definition getOr0 (o : t) (k : string) : Z :=
  match get o k with
  | Some v => v
  | None => 0
  end.

Definition bump (o : t) (k : string) : t := set o k (getOr0 o k + 1).

Definition entries (o : t) : list (string * Z) :=
  Js.sort (fun a b => Counter.indexOfKey a - Counter.indexOfKey b)
          (filter Counter.isIndexKey o)
  ++ filter (fun kv => negb (Counter.isIndexKey kv)) o.

Definition topKey (o : t) : option string :=
  option_map fst (hd_error (Js.sort (fun a b => snd b - snd a) (entries o))).

(** The same table as a counter object. *)
Definition lift (o : t) : Counter.t :=
  map (fun kv => (fst kv, Counter.Num (snd kv))) o.

End Tally.

(** The table of numbers that counting the keys [ks] one by one builds. *)
Definition tally (ks : list string) : Tally.t := fold_left Tally.bump ks [].

(** The value of a digit and the number of code units of a string. *)
Definition digitOf (c : ascii) : Z := Z.of_N (N_of_ascii c) - 48.

Definition width (s : string) : Z := Z.of_nat (String.length s).

(** The locations of some logs, an unset one counted as "Unknown"; and
    those of them whose lower-case form contains "gate". *)
Definition locationsOf (logs : list VisitorLogDTO) : list string :=
  map (fun d => Js.orElse (location d) "Unknown") logs.

Definition gateLocationsOf (logs : list VisitorLogDTO) : list string :=
  filter (fun l => Js.includes (Js.toLowerCase l) "gate")
         (map (fun d => Js.orElse (location d) "") logs).

(** The page state with the logs [l] in the cell [data]. *)
Definition withData (st : LogBook.State) (l : list VisitorLogDTO) : LogBook.State :=
  {| LogBook.data := l;
     LogBook.activeLogIds := LogBook.activeLogIds st;
     LogBook.search := LogBook.search st;
     LogBook.statusFilter := LogBook.statusFilter st;
     LogBook.locationFilter := LogBook.locationFilter st;
     LogBook.stations := LogBook.stations st;
     LogBook.page := LogBook.page st;
     LogBook.pageSize := LogBook.pageSize st |}.

(** The first page is the one shown. *)
Definition FirstPage (st : LogBook.State) : Prop :=
  LogBook.currentPage st = 0 /\
  LogBook.pagedLogs st
  = firstn (Z.to_nat (LogBook.pageSize st)) (LogBook.filteredLogs st).

(** The station of the log table that matches a location name. *)
Definition matchedStation (st : LogBook.State) (locationName : string)
  : option Station :=
  find (fun s => (Js.toLowerCase (Js.trim (Js.orElse (name s) ""))
                  =? Js.toLowerCase locationName)%string)
       (LogBook.stations st).

(** A station that has only a name. *)
Definition namedOnly (n : string) : Station :=
  {| id := 0; name := Some n; stationType := None; active := None |}.

(** A type is stored and it is neither "gate" nor "building". *)
Definition UnknownType (s : Station) : Prop :=
  Js.orElse (stationType s) "" <> "" /\ ~ typedAs s gate /\ ~ typedAs s building.

(** The guard that the Stations page makes of a user account. *)
Definition guardOfAccount (u : UserAccount) : AssignedUser :=
  {| user_id := accountID u;
     username := account_username u;
     accountType := Js.orElse (account_accountType u) "" |}.

(** The station that the page adds for the record [created] that the
    server returns to a request of kind [kind]. *)
Definition createdStation (created : Station) (kind : StationKind) : Station :=
  {| id := id created;
     name := name created;
     active := Some (Js.nullish (active created) true);
     stationType := Some (Js.nullish (stationType created) (kindString kind)) |}.

(* ------------------------------------------------------------------ *)
(** * Sample data *)

Module Sample.

Definition station (i : Z) (n : option string) (ty : option string) : Station :=
  {| id := i; name := n; stationType := ty; active := None |}.

Definition log (i : Z) (who loc day : option string) : VisitorLogDTO :=
  {| visitorLogID := i; fullName := who; idType := None; passNo := None;
     location := loc; purposeOfVisit := None; loggedBy := None;
     date := day; time := None |}.

Definition logBook (logs : list VisitorLogDTO) (ids : list Z)
    (sts : list Station) (p size : Z) : LogBook.State :=
  {| LogBook.data := logs; LogBook.activeLogIds := ids; LogBook.search := "";
     LogBook.statusFilter := LogBook.status_all;
     LogBook.locationFilter := "all"; LogBook.stations := sts;
     LogBook.page := p; LogBook.pageSize := size |}.

Definition westGate : Station := station 7 (Some "West Gate") None.

Definition westGateRow : VisitorLogDTO :=
  log 1 (Some "A") (Some "West Gate") (Some "2024-01-01").

(** The page with a form filled in: [n] typed into both name inputs, [k]
    chosen in both type selectors, the station [sel] selected. *)
Definition stationsPage (sts : list Station) (sel : option Z) (n : string)
    (k : StationKind) : Stations.State :=
  {| Stations.currentType := gate; Stations.stations := sts;
     Stations.selectedStationId := sel; Stations.error := None;
     Stations.assignedUsers := []; Stations.selectedGuardIds := [];
     Stations.assignModalOpen := false; Stations.createModalOpen := true;
     Stations.createName := n; Stations.createType := k;
     Stations.createError := None; Stations.showInactive := false;
     Stations.renameModalOpen := true; Stations.renameName := n;
     Stations.renameType := k; Stations.renameError := None |}.

(** A station stored with a trailing space in its name. *)
Definition lobbySpaced : Station := station 3 (Some "Lobby ") (Some "building").

Definition gate3 : Station := station 4 (Some "Gate 3") (Some "gate").

Definition lobby : Station := station 5 (Some "Lobby") (Some "building").

(** The logs of the worked example of the specification. *)
Definition exampleLogs : list VisitorLogDTO :=
  [ log 1 (Some "A") (Some "Gate 1") (Some "2024-01-01");
    log 2 (Some "B") (Some "Gate 1") (Some "2024-01-01");
    log 3 (Some "A") (Some "Lobby") (Some "2024-01-02") ].

Definition guard (i : Z) (n : string) : AssignedUser :=
  {| user_id := i; username := n; accountType := "GUARD" |}.

(** Station 4 is selected, its guards 11 and 12 arrive, 12 is unticked and
    13 ticked, and the selection is saved. *)
Definition assignmentSession : list Stations.Event :=
  [ Stations.SelectStation (Some 4);
    Stations.GuardsArrived (Stations.Resolved [guard 11 "ana"; guard 12 "ben"]);
    Stations.ToggleGuard 12;
    Stations.ToggleGuard 13;
    Stations.SaveAssignments (Stations.Resolved tt)
      (Stations.Resolved [guard 11 "ana"; guard 13 "cyd"]) ].

Definition gateStations : list Station :=
  [ station 1 (Some "Gate 10") None; station 2 (Some " Gate 2 ") None;
    station 3 (Some "N/A") None; station 4 (Some "   ") None;
    station 5 (Some "Gate 2") None; station 6 None None ].

(** Two logs of one day, the second at a location named by a number. *)
Definition roomLogs : list VisitorLogDTO :=
  [ log 1 (Some "A") (Some "Lobby") (Some "2024-01-01");
    log 2 (Some "B") (Some "5") (Some "2024-01-01") ].

(** Three logs of one day, the first at a location whose name every object
    inherits as a method. *)
Definition inheritedNameLogs : list VisitorLogDTO :=
  [ log 1 (Some "A") (Some "constructor") (Some "2024-01-01");
    log 2 (Some "B") (Some "Lobby") (Some "2024-01-01");
    log 3 (Some "C") (Some "Lobby") (Some "2024-01-01") ].

(** One log, at a location named as the prototype accessor. *)
Definition protoLogs : list VisitorLogDTO :=
  [ log 1 (Some "A") (Some "__proto__") (Some "2024-01-01") ].

Definition account (i : Z) (n : string) (ty : option string) : UserAccount :=
  {| accountID := i; account_username := n; account_accountType := ty |}.

Definition blankScreen : Stations.Screen :=
  {| Stations.cells := Stations.initialState;
     Stations.allGuards := [];
     Stations.loading := true |}.

(** A gate without an [active] flag, and the server's record of it once it
    has been deactivated. *)
Definition northGate : Station := station 8 (Some "North Gate") (Some "gate").

Definition northGateOff : Station :=
  {| id := 8; name := Some "North Gate"; stationType := Some "gate";
     active := Some false |}.

(** The server's record of a gate created as "Gate 3". *)
Definition createdGate3 : Station :=
  {| id := 9; name := Some "Gate 3"; stationType := None; active := None |}.

(** A station typed as a gate whose name does not say so. *)
Definition northTyped : Station := station 6 (Some "North") (Some "gate").

End Sample.

(* ------------------------------------------------------------------ *)
(** * Facts about strings and arrays *)

Lemma truthy_iff (s : string) : Js.truthy s = true <-> s <> "".
Proof. destruct s; simpl; split; congruence. Qed.

Lemma truthy_false_iff (s : string) : Js.truthy s = false <-> s = "".
Proof. destruct s; simpl; split; congruence. Qed.

Lemma truthy_toLowerCase (s : string) :
  Js.truthy (Js.toLowerCase s) = Js.truthy s.
Proof. destruct s; reflexivity. Qed.

Lemma startsWith_spec (s t : string) :
  Js.startsWith s t = true <-> exists post, s = t ++ post.
Proof.
  revert s; induction t as [|b t IH]; intros s; simpl.
  - split; [intros _; exists s; reflexivity | destruct s; reflexivity].
  - destruct s as [|a s].
    + simpl. split; [discriminate | intros [post H]; discriminate].
    + simpl. rewrite andb_true_iff, Ascii.eqb_eq, IH. split.
      * intros [-> [post ->]]. exists post; reflexivity.
      * intros [post H]. injection H as -> ->. split; eauto.
Qed.

Lemma includes_spec (s t : string) :
  Js.includes s t = true <-> Contains s t.
Proof.
  unfold Contains. induction s as [|a s IH].
  - cbn [Js.includes]. rewrite orb_false_r, startsWith_spec. split.
    + intros [post H]. exists "", post. exact H.
    + intros [pre [post H]]. destruct pre; [exists post; exact H|discriminate].
  - cbn [Js.includes]. rewrite orb_true_iff, startsWith_spec, IH. split.
    + intros [[post H] | [pre [post H]]].
      * exists "", post. exact H.
      * exists (String a pre), post. simpl. now rewrite H.
    + intros [pre [post H]]. destruct pre as [|c pre].
      * left. exists post. exact H.
      * right. simpl in H. injection H as _ H. exists pre, post. exact H.
Qed.

Lemma includes_false_iff (s t : string) :
  Js.includes s t = false <-> ~ Contains s t.
Proof.
  rewrite <- includes_spec. destruct (Js.includes s t); split; congruence.
Qed.

Lemma includesZ_In (xs : list Z) (k : Z) :
  Js.includesZ xs k = true <-> In k xs.
Proof.
  unfold Js.includesZ. rewrite existsb_exists. split.
  - intros [x [Hx He]]. apply Z.eqb_eq in He. now subst.
  - intros H. exists k. split; [exact H | apply Z.eqb_refl].
Qed.

Lemma includesZ_false (xs : list Z) (k : Z) :
  Js.includesZ xs k = false <-> ~ In k xs.
Proof.
  rewrite <- includesZ_In. destruct (Js.includesZ xs k); split; congruence.
Qed.

Lemma Subseq_filter {A : Type} (f : A -> bool) (l : list A) :
  Subseq (filter f l) l.
Proof.
  induction l as [|x l IH]; simpl.
  - constructor.
  - destruct (f x); now constructor.
Qed.

(* ------------------------------------------------------------------ *)
(** * Station classification at its call sites *)

(** The icon of the station list is the classifier's whenever the type is
    missing or recognised. *)
Lemma stationIcon_classify (s : Station) :
  Js.orElse (stationType s) "" = "" \/ typedAs s gate \/ typedAs s building ->
  Stations.stationIcon s = iconOf (classify s).
Proof.
  unfold Stations.stationIcon, classify, typedAs.
  intros [H | [H | H]]; rewrite H; simpl; try reflexivity.
  destruct (Js.includes _ "gate"); reflexivity.
Qed.

(** In the log table a row that matches a station without the type "gate"
    never gets the gate icon, whatever the station is called. *)
Lemma locationIcon_matched (st : LogBook.State) (row : VisitorLogDTO) (m : Station) :
  let locationName := Js.trim (Js.orElse (location row) "") in
  locationName <> "" ->
  find (fun s => (Js.toLowerCase (Js.trim (Js.orElse (name s) ""))
                  =? Js.toLowerCase locationName)%string)
       (LogBook.stations st) = Some m ->
  ~ typedAs m gate ->
  LogBook.locationIcon st row = Some farBuilding.
Proof.
  intros locationName Hne Hfind Hty. unfold LogBook.locationIcon.
  fold locationName. apply truthy_iff in Hne. rewrite Hne, Hfind.
  unfold typedAs in Hty. simpl kindString in Hty.
  apply String.eqb_neq in Hty. rewrite Hty. simpl.
  rewrite orb_true_r. reflexivity.
Qed.

(** C1 (the code departs from the claim).  A station named "West Gate" whose
    type is missing is a gate for the classifier, for the station list icon
    and for the Gates tab, but the log table row at "West Gate" shows the
    building icon. *)
Theorem C1_log_row_icon_of_untyped_gate :
  classify Sample.westGate = gate /\
  Stations.stationIcon Sample.westGate = iconOf gate /\
  Stations.filteredStations
    (Sample.stationsPage [Sample.westGate] None "" gate) = [Sample.westGate] /\
  LogBook.locationIcon (Sample.logBook [Sample.westGateRow] [] [Sample.westGate] 0 25)
                       Sample.westGateRow
  = Some (iconOf building).
Proof. repeat split; vm_compute; reflexivity. Qed.

(* ------------------------------------------------------------------ *)
(** * The station list *)

Lemma matchesTab_spec (st : Stations.State) (s : Station) :
  Stations.matchesTab st s = true <->
  (classify s = Stations.currentType st \/ Legacy s) /\
  (Stations.showInactive st = true \/ active s <> Some false).
Proof.
  unfold Stations.matchesTab, classify, Legacy, typedAs.
  rewrite truthy_toLowerCase.
  set (ty := Js.toLowerCase (Js.orElse (stationType s) "")).
  set (nm := Js.orElse (name s) "").
  assert (Hact : negb (match active s with Some false => true | _ => false end) = true
                 <-> active s <> Some false).
  { destruct (active s) as [[|]|]; simpl; split; congruence. }
  assert (Hshow : forall b : bool,
             (if negb (Stations.showInactive st) then b else true) = true <->
             (Stations.showInactive st = true \/ b = true)).
  { intros b. destruct (Stations.showInactive st), b; simpl; intuition congruence. }
  simpl kindString.
  destruct (String.eqb_spec ty "gate") as [Hg | Hg].
  - rewrite Hg. destruct (Stations.currentType st); simpl.
    + rewrite Hshow, Hact. intuition congruence.
    + split; [discriminate|]. intros [[H | [H _]] _]; congruence.
  - destruct (String.eqb_spec ty "building") as [Hb | Hb].
    + rewrite Hb. destruct (Stations.currentType st); simpl.
      * split; [discriminate|]. intros [[H | [_ [H _]]] _]; congruence.
      * rewrite Hshow, Hact. intuition congruence.
    + simpl. destruct (Js.truthy nm) eqn:Hnm; simpl.
      * apply truthy_iff in Hnm.
        destruct (Stations.currentType st), (Js.includes (Js.toLowerCase nm) "gate");
          simpl; try rewrite Hshow, Hact; intuition congruence.
      * apply truthy_false_iff in Hnm. rewrite Hshow, Hact. intuition.
Qed.

(** C8.  The station list keeps, in the order of [stations], exactly the
    stations whose category by the classifier is the selected tab or that
    are legacy stations (no recognised type, no name), and, unless
    deactivated stations are shown, whose [active] is not [false]. *)
Theorem C8_filteredStations (st : Stations.State) :
  Subseq (Stations.filteredStations st) (Stations.stations st) /\
  exists keep : Station -> bool,
    Stations.filteredStations st = filter keep (Stations.stations st) /\
    forall s, keep s = true <->
      (classify s = Stations.currentType st \/ Legacy s) /\
      (Stations.showInactive st = true \/ active s <> Some false).
Proof.
  split.
  - apply Subseq_filter.
  - exists (Stations.matchesTab st). split; [reflexivity|].
    intros s. apply matchesTab_spec.
Qed.

(* ------------------------------------------------------------------ *)
(** * Creating and renaming a station *)

Lemma gatePrefixed_rule (kind : StationKind) (rawName : string) :
  GatePrefixRule kind rawName (Stations.gatePrefixed kind rawName).
Proof.
  unfold GatePrefixRule, Stations.gatePrefixed.
  destruct (Js.includes (Js.toLowerCase rawName) "gate") eqn:Hinc.
  - apply includes_spec in Hinc. rewrite andb_false_r. tauto.
  - apply includes_false_iff in Hinc. destruct kind; simpl; split; intros H.
    + reflexivity.
    + exfalso. apply H. split; [reflexivity | exact Hinc].
    + destruct H; discriminate.
    + reflexivity.
Qed.

Lemma existsb_duplicate (sts : list Station) (rawName : string) :
  existsb (fun s => (Js.toLowerCase (Js.orElse (name s) "")
                     =? Js.toLowerCase rawName)%string) sts = true
  <-> DuplicateOf sts rawName.
Proof.
  unfold DuplicateOf. rewrite existsb_exists.
  split; intros [s [Hin H]]; exists s; split; auto; now apply String.eqb_eq.
Qed.

(** C2 (as amended).  Creating a station fails with the empty-name message
    when the trimmed name is empty; fails with the duplicate message when a
    station's stored name, not trimmed, equals the trimmed name up to case;
    otherwise it sends the trimmed name, with "Gate " in front exactly when
    the kind is gate and the name does not contain "gate" in any case.  A
    validation failure sends nothing and leaves the stations as they are. *)
Theorem C2_createStation_validation (st : Stations.State)
    (resp : Stations.ApiResult Station) :
  let rawName := Js.trim (Stations.createName st) in
  let outcome := Stations.handleCreateStation st resp in
  (rawName = "" ->
   outcome = ([], Stations.setCreateError st (Some emptyNameError))) /\
  (rawName <> "" -> DuplicateOf (Stations.stations st) rawName ->
   outcome = ([], Stations.setCreateError st (Some duplicateNameError))) /\
  (rawName <> "" -> ~ DuplicateOf (Stations.stations st) rawName ->
   exists finalName,
     fst outcome = [Stations.createStation finalName (Stations.createType st) true] /\
     GatePrefixRule (Stations.createType st) rawName finalName) /\
  (rawName = "" \/ DuplicateOf (Stations.stations st) rawName ->
   fst outcome = [] /\ Stations.stations (snd outcome) = Stations.stations st).
Proof.
  intros rawName outcome.
  assert (Hempty : rawName = "" ->
            outcome = ([], Stations.setCreateError st (Some emptyNameError))).
  { intros He. unfold outcome, Stations.handleCreateStation.
    change (Stations.createName (Stations.setCreateError st None))
      with (Stations.createName st).
    fold rawName. rewrite He. reflexivity. }
  assert (Hdup : rawName <> "" -> DuplicateOf (Stations.stations st) rawName ->
            outcome = ([], Stations.setCreateError st (Some duplicateNameError))).
  { intros Hne Hd. unfold outcome, Stations.handleCreateStation.
    change (Stations.createName (Stations.setCreateError st None))
      with (Stations.createName st).
    change (Stations.stations (Stations.setCreateError st None))
      with (Stations.stations st).
    fold rawName. apply truthy_iff in Hne. rewrite Hne.
    apply existsb_duplicate in Hd. simpl negb. cbv iota. rewrite Hd. reflexivity. }
  repeat split.
  - exact Hempty.
  - exact Hdup.
  - intros Hne Hd. exists (Stations.gatePrefixed (Stations.createType st) rawName).
    split; [|apply gatePrefixed_rule].
    unfold outcome, Stations.handleCreateStation.
    change (Stations.createName (Stations.setCreateError st None))
      with (Stations.createName st).
    change (Stations.stations (Stations.setCreateError st None))
      with (Stations.stations st).
    change (Stations.createType (Stations.setCreateError st None))
      with (Stations.createType st).
    fold rawName. apply truthy_iff in Hne. rewrite Hne. simpl negb. cbv iota.
    destruct (existsb _ (Stations.stations st)) eqn:He.
    + exfalso. apply Hd. now apply existsb_duplicate.
    + destruct resp; reflexivity.
  - destruct H as [He | Hd].
    + now rewrite (Hempty He).
    + destruct (string_dec rawName "") as [He | Hne].
      * now rewrite (Hempty He).
      * now rewrite (Hdup Hne Hd).
  - destruct H as [He | Hd].
    + now rewrite (Hempty He).
    + destruct (string_dec rawName "") as [He | Hne].
      * now rewrite (Hempty He).
      * now rewrite (Hdup Hne Hd).
Qed.

(** C2, an instance: "3" typed for a gate next to the building "Lobby" is
    sent as "Gate 3". *)
Lemma C2_createStation_validation_witness :
  exists finalName,
    fst (Stations.handleCreateStation
           (Sample.stationsPage [Sample.lobby] None " 3 " gate)
           (Stations.Rejected None))
    = [Stations.createStation finalName gate true] /\
    GatePrefixRule gate "3" finalName.
Proof.
  refine (proj1 (proj2 (proj2
    (C2_createStation_validation
       (Sample.stationsPage [Sample.lobby] None " 3 " gate)
       (Stations.Rejected None)))) _ _).
  - vm_compute. discriminate.
  - intros [s [[Hs | []] H]]. subst s. vm_compute in H. discriminate.
Defined.

(** C2 as first stated fails: "Lobby" is typed while a station is stored as
    "Lobby " with a trailing space.  Trimmed on both sides the names are
    equal up to case, yet the request is sent and the station is added. *)
Lemma C2_counterexample_untrimmed_stored_name :
  let st := Sample.stationsPage [Sample.lobbySpaced] None "Lobby" building in
  let outcome := Stations.handleCreateStation st (Stations.Resolved Sample.lobby) in
  Js.trim (Stations.createName st) <> "" /\
  DuplicateTrimmed (Stations.stations st) (Stations.createName st) /\
  fst outcome = [Stations.createStation "Lobby" building true] /\
  Stations.createError (snd outcome) = None /\
  List.length (Stations.stations (snd outcome)) = 2%nat.
Proof.
  repeat split; try (vm_compute; congruence).
  exists Sample.lobbySpaced. split; [left; reflexivity | vm_compute; reflexivity].
Qed.

(** C7.  Renaming the selected station fails with the empty-name message
    when the trimmed name is empty and otherwise sends the trimmed name,
    with "Gate " in front exactly when the kind is gate and the name does not
    contain "gate" in any case.  The other stations are not consulted: the
    request goes out also when one of them already bears the name. *)
Theorem C7_renameStation_validation (st : Stations.State)
    (resp : Stations.ApiResult Station) (selected : Station) :
  Stations.selectedStation st = Some selected ->
  let rawName := Js.trim (Stations.renameName st) in
  let outcome := Stations.handleRenameStation st resp in
  (rawName = "" ->
   outcome = ([], Stations.setRenameError st (Some emptyNameError))) /\
  (rawName <> "" ->
   exists finalName,
     fst outcome = [Stations.updateStation (id selected) finalName
                      (active selected) (Stations.renameType st)] /\
     GatePrefixRule (Stations.renameType st) rawName finalName) /\
  (rawName <> "" ->
   DuplicateOf (Stations.stations st) rawName \/
   DuplicateTrimmed (Stations.stations st) rawName ->
   fst outcome <> []).
Proof.
  intros Hsel rawName outcome.
  assert (Hsend : rawName <> "" ->
            fst outcome
            = [Stations.updateStation (id selected)
                 (Stations.gatePrefixed (Stations.renameType st) rawName)
                 (active selected) (Stations.renameType st)]).
  { intros Hne. unfold outcome, Stations.handleRenameStation.
    rewrite Hsel. fold rawName. apply truthy_iff in Hne. rewrite Hne.
    destruct resp; reflexivity. }
  split; [|split].
  - intros He. unfold outcome, Stations.handleRenameStation.
    rewrite Hsel. fold rawName. rewrite He. reflexivity.
  - intros Hne. eexists. split; [apply (Hsend Hne) | apply gatePrefixed_rule].
  - intros Hne _. rewrite (Hsend Hne). discriminate.
Qed.

(** C7, an instance: the station "Gate 3" is selected and renamed "lobby"
    as a building, while a station "Lobby" exists: the request is sent. *)
Lemma C7_renameStation_validation_witness :
  fst (Stations.handleRenameStation
         (Sample.stationsPage [Sample.gate3; Sample.lobby] (Some 4) " lobby" building)
         (Stations.Rejected None))
  <> [].
Proof.
  refine (proj2 (proj2
    (C7_renameStation_validation
       (Sample.stationsPage [Sample.gate3; Sample.lobby] (Some 4) " lobby" building)
       (Stations.Rejected None) Sample.gate3 eq_refl)) _ _).
  - vm_compute. discriminate.
  - left. exists Sample.lobby. split; [right; left; reflexivity | reflexivity].
Defined.

(* ------------------------------------------------------------------ *)
(** * The log filter *)

Lemma keepLog_spec (st : LogBook.State) (e : VisitorLogDTO) :
  LogBook.keepLog st e = true <->
  StatusPasses st e /\ LocationPasses st e /\ SearchPasses st e.
Proof.
  unfold LogBook.keepLog, StatusPasses, LocationPasses, SearchPasses,
    LogBook.isActive.
  set (loc := Js.toLowerCase (Js.trim (Js.orElse (location e) ""))).
  set (wanted := Js.toLowerCase (Js.trim (LogBook.locationFilter st))).
  set (term := Js.toLowerCase (LogBook.search st)).
  assert (Hsearch :
    (if negb (Js.truthy term) then true
     else existsb (fun field => Js.includes (Js.toLowerCase field) term)
                  (LogBook.searchFields e)) = true <->
    (LogBook.search st <> "" ->
     exists field, In field (LogBook.searchFields e) /\
                   Contains (Js.toLowerCase field) term)).
  { unfold term at 1. rewrite truthy_toLowerCase.
    destruct (Js.truthy (LogBook.search st)) eqn:Ht; cbn [negb].
    - apply truthy_iff in Ht. rewrite existsb_exists. split.
      + intros [f [Hin Hf]] _. exists f. split; [exact Hin | now apply includes_spec].
      + intros H. destruct (H Ht) as [f [Hin Hf]]. exists f.
        split; [exact Hin | now apply includes_spec].
    - apply truthy_false_iff in Ht. split; [intros _ Hne; contradiction | reflexivity]. }
  assert (Hloc :
    negb (LogBook.locationFilter st =? "all")%string
    && (negb (Js.truthy loc) || negb (loc =? wanted)%string) = false <->
    (LogBook.locationFilter st <> "all" -> loc <> "" /\ loc = wanted)).
  { destruct (String.eqb_spec (LogBook.locationFilter st) "all") as [Ha | Ha]; simpl.
    - split; [intros _ H; contradiction | reflexivity].
    - destruct (Js.truthy loc) eqn:Ht; simpl.
      + apply truthy_iff in Ht.
        destruct (String.eqb_spec loc wanted) as [Hw | Hw]; simpl.
        * split; auto.
        * split; [discriminate | intros H; destruct (H Ha); contradiction].
      + apply truthy_false_iff in Ht.
        split; [discriminate | intros H; destruct (H Ha); contradiction]. }
  change (LogBook.searchFields e) with
    [ Js.nullish (fullName e) ""; Js.nullish (idType e) "";
      Js.nullish (passNo e) ""; Js.nullish (location e) "";
      Js.nullish (purposeOfVisit e) ""; Js.nullish (loggedBy e) "";
      Js.nullish (date e) ""; Js.nullish (time e) "" ] in Hsearch.
  destruct (negb (LogBook.locationFilter st =? "all")%string
            && (negb (Js.truthy loc) || negb (loc =? wanted)%string)) eqn:Hl.
  - assert (Hno : ~ (LogBook.locationFilter st <> "all" -> loc <> "" /\ loc = wanted)).
    { intros H. apply Hloc in H. discriminate. }
    destruct (LogBook.statusFilter st), (Js.includesZ _ _);
      cbn [negb andb orb LogBook.StatusFilter_eqb];
      split; try discriminate; tauto.
  - assert (Hyes : LogBook.locationFilter st <> "all" -> loc <> "" /\ loc = wanted).
    { apply Hloc. reflexivity. }
    destruct (LogBook.statusFilter st);
      (destruct (Js.includesZ (LogBook.activeLogIds st) (visitorLogID e)) eqn:Hact;
       [apply includesZ_In in Hact | apply includesZ_false in Hact]);
      cbn [negb andb orb LogBook.StatusFilter_eqb];
      try rewrite Hsearch; try (split; [discriminate | tauto]); tauto.
Qed.

(** C4.  The filtered logs are a subsequence of the logs, and an entry is
    kept exactly when it passes the status test, the location test and the
    search test. *)
Theorem C4_filteredLogs (st : LogBook.State) :
  Subseq (LogBook.filteredLogs st) (LogBook.data st) /\
  (exists keep : VisitorLogDTO -> bool,
     LogBook.filteredLogs st = filter keep (LogBook.data st) /\
     forall e, keep e = true <->
       StatusPasses st e /\ LocationPasses st e /\ SearchPasses st e) /\
  (forall e, In e (LogBook.filteredLogs st) <->
     In e (LogBook.data st) /\
     StatusPasses st e /\ LocationPasses st e /\ SearchPasses st e).
Proof.
  split; [apply Subseq_filter|]. split.
  - exists (LogBook.keepLog st). split; [reflexivity | apply keepLog_spec].
  - intros e. unfold LogBook.filteredLogs. rewrite filter_In, keepLog_spec.
    reflexivity.
Qed.

(* ------------------------------------------------------------------ *)
(** * Sets of values *)

Section SetOfFacts.
Context {A : Type} (eqbA : A -> A -> bool).
Hypothesis eqbA_spec : forall x y, eqbA x y = true <-> x = y.

Lemma existsb_eqb_In (x : A) (l : list A) :
  existsb (eqbA x) l = true <-> In x l.
Proof.
  rewrite existsb_exists. split.
  - intros [y [Hy He]]. apply eqbA_spec in He. now subst.
  - intros H. exists x. split; [exact H | now apply eqbA_spec].
Qed.

Lemma Set_add_In (acc : list A) (x y : A) :
  In y (Js.Set_add eqbA acc x) <-> In y acc \/ y = x.
Proof.
  unfold Js.Set_add. destruct (existsb (eqbA x) acc) eqn:He.
  - apply existsb_eqb_In in He. split; [auto|]. intros [H | ->]; assumption.
  - rewrite in_app_iff. simpl. intuition.
Qed.

Lemma Set_add_NoDup (acc : list A) (x : A) :
  NoDup acc -> NoDup (Js.Set_add eqbA acc x).
Proof.
  intros Hnd. unfold Js.Set_add. destruct (existsb (eqbA x) acc) eqn:He.
  - exact Hnd.
  - assert (Hx : ~ In x acc).
    { intros H. apply existsb_eqb_In in H. congruence. }
    clear He. induction acc as [|a acc IH]; simpl.
    + constructor; [intros [] | constructor].
    + inversion Hnd as [|? ? Ha Hacc]; subst. constructor.
      * rewrite in_app_iff. simpl. intros [H | [H | []]]; [auto|].
        apply Hx. left. symmetry. exact H.
      * apply IH; [exact Hacc|]. intros H. apply Hx. right. exact H.
Qed.

Lemma fold_Set_add (xs acc : list A) :
  NoDup acc ->
  NoDup (fold_left (Js.Set_add eqbA) xs acc) /\
  forall y, In y (fold_left (Js.Set_add eqbA) xs acc) <-> In y acc \/ In y xs.
Proof.
  revert acc. induction xs as [|x xs IH]; intros acc Hnd; simpl.
  - split; [exact Hnd | intuition].
  - destruct (IH _ (Set_add_NoDup acc x Hnd)) as [H1 H2]. split; [exact H1|].
    intros y. rewrite H2, Set_add_In. intuition.
Qed.

Lemma Set_of_NoDup (xs : list A) : NoDup (Js.Set_of eqbA xs).
Proof. apply fold_Set_add. constructor. Qed.

Lemma Set_of_In (xs : list A) (y : A) : In y (Js.Set_of eqbA xs) <-> In y xs.
Proof.
  unfold Js.Set_of. destruct (fold_Set_add xs [] (NoDup_nil A)) as [_ H].
  rewrite H. simpl. intuition.
Qed.

Lemma Set_of_size (xs : list A) :
  DistinctCount xs (Z.of_nat (List.length (Js.Set_of eqbA xs))).
Proof.
  exists (Js.Set_of eqbA xs).
  split; [apply Set_of_NoDup|]. split; [apply Set_of_In | reflexivity].
Qed.
End SetOfFacts.

Lemma option_eqb_eq (a b : option string) :
  LogBook.option_eqb a b = true <-> a = b.
Proof.
  destruct a as [x|], b as [y|]; simpl; try (split; congruence).
  rewrite String.eqb_eq. split; congruence.
Qed.

(* ------------------------------------------------------------------ *)
(** * Statistics: the counts *)

Lemma todayLogsOf_In (st : LogBook.State) (today : string) (d : VisitorLogDTO) :
  In d (LogBook.todayLogsOf st today) <->
  In d (LogBook.data st) /\ date d = Some today.
Proof.
  unfold LogBook.todayLogsOf. rewrite filter_In, option_eqb_eq. reflexivity.
Qed.

(** C6.  When there are logs, the statistics exist; the logs of today are
    the logs whose date is the string [today]; [active] counts those of
    them whose id is among the active ids; [uniqueToday] counts the distinct
    names among them; [uniqueWeek] and [uniqueMonth] both count the distinct
    names of all the logs. *)
Theorem C6_stats_counts (st : LogBook.State) (today : string) :
  LogBook.data st <> [] ->
  let todayLogs := LogBook.todayLogsOf st today in
  Subseq todayLogs (LogBook.data st) /\
  (forall d, In d todayLogs <-> In d (LogBook.data st) /\ date d = Some today) /\
  exists s, LogBook.stats st today = Some s /\
    (exists isActive : VisitorLogDTO -> bool,
       (forall d, isActive d = true <->
                  In (visitorLogID d) (LogBook.activeLogIds st)) /\
       LogBook.active s = Z.of_nat (List.length (filter isActive todayLogs))) /\
    DistinctCount (map fullName todayLogs) (LogBook.uniqueToday s) /\
    DistinctCount (map fullName (LogBook.data st)) (LogBook.uniqueWeek s) /\
    DistinctCount (map fullName (LogBook.data st)) (LogBook.uniqueMonth s).
Proof.
  intros Hne todayLogs. split; [apply Subseq_filter|].
  split; [apply todayLogsOf_In|].
  unfold LogBook.stats. destruct (LogBook.data st) as [|d0 rest] eqn:Hdata;
    [contradiction|].
  eexists. split; [reflexivity|]. cbn [LogBook.active LogBook.uniqueToday
    LogBook.uniqueWeek LogBook.uniqueMonth]. split; [|split; [|split]].
  - exists (fun d => Js.includesZ (LogBook.activeLogIds st) (visitorLogID d)).
    split; [intros d; apply includesZ_In | reflexivity].
  - apply (Set_of_size _ option_eqb_eq).
  - apply (Set_of_size _ option_eqb_eq).
  - apply (Set_of_size _ option_eqb_eq).
Qed.

(** C6, an instance: the worked example of the specification, where one of
    the two logs of the day is active and the two bear different names. *)
Lemma C6_stats_counts_witness :
  exists s,
    LogBook.stats (Sample.logBook Sample.exampleLogs [1] [] 0 25) "2024-01-01" = Some s /\
    LogBook.active s = 1 /\ LogBook.uniqueToday s = 2 /\
    LogBook.uniqueWeek s = 2 /\ LogBook.uniqueMonth s = 2.
Proof.
  destruct (C6_stats_counts (Sample.logBook Sample.exampleLogs [1] [] 0 25)
              "2024-01-01") as [_ [_ [s [Hs _]]]].
  - discriminate.
  - exists s. vm_compute in Hs. injection Hs as <-. repeat split.
Defined.

(* ------------------------------------------------------------------ *)
(** * The guard selection *)

Lemma filter_neqb_remove (g : Z) (l : list Z) :
  filter (fun id => negb (id =? g)) l = remove Z.eq_dec g l.
Proof.
  induction l as [|x l IH]; simpl; [reflexivity|].
  destruct (Z.eq_dec g x) as [-> | Hne].
  - rewrite Z.eqb_refl. simpl. exact IH.
  - destruct (Z.eqb_spec x g) as [-> | _]; [contradiction|]. simpl. now rewrite IH.
Qed.

Lemma toggle_NoDup (st : Stations.State) (g : Z) :
  NoDup (Stations.selectedGuardIds st) ->
  NoDup (Stations.selectedGuardIds (Stations.handleToggleGuardSelection st g)).
Proof.
  intros Hnd. unfold Stations.handleToggleGuardSelection. simpl.
  destruct (Js.includesZ (Stations.selectedGuardIds st) g) eqn:Hin.
  - now apply NoDup_filter.
  - apply includesZ_false in Hin. apply NoDup_app; [exact Hnd | |].
    + constructor; [intros [] | constructor].
    + intros a Ha [<- | []]. contradiction.
Qed.

Lemma step_NoDup (st : Stations.State) (ev : Stations.Event) :
  FetchedOnce ev ->
  NoDup (Stations.selectedGuardIds st) ->
  NoDup (Stations.selectedGuardIds (snd (Stations.step st ev))).
Proof.
  intros Hev Hnd. destruct ev as [[sid|] | resp | g | rU rG]; simpl.
  - exact Hnd.
  - constructor.
  - unfold Stations.fetchGuardsForStation.
    destruct (Stations.selectedStationId st); [|constructor].
    destruct resp as [guards | message]; simpl; [exact Hev | exact Hnd].
  - now apply toggle_NoDup.
  - unfold Stations.handleSaveAssignments.
    destruct (Stations.selectedStationId st) as [sid|]; [|exact Hnd].
    destruct (sid =? 0); [exact Hnd|].
    destruct rU; [destruct rG|]; exact Hnd.
Qed.

Lemma run_NoDup (evs : list Stations.Event) (st : Stations.State) :
  Forall FetchedOnce evs ->
  NoDup (Stations.selectedGuardIds st) ->
  NoDup (Stations.selectedGuardIds (snd (Stations.run st evs))).
Proof.
  revert st. induction evs as [|ev evs IH]; intros st Hevs Hnd; simpl.
  - exact Hnd.
  - inversion Hevs as [|? ? Hev Hrest]; subst.
    pose proof (step_NoDup st ev Hev Hnd) as Hstep.
    destruct (Stations.step st ev) as [calls st']. simpl in Hstep.
    specialize (IH st' Hrest Hstep).
    destruct (Stations.run st' evs) as [calls' st'']. exact IH.
Qed.

Lemma save_sends_selection (st : Stations.State)
    (rU : Stations.ApiResult unit) (rG : Stations.ApiResult (list AssignedUser)) :
  replacementsSent (fst (Stations.handleSaveAssignments st rU rG))
  = match Stations.selectedStationId st with
    | Some sid => if sid =? 0 then [] else [(sid, Stations.selectedGuardIds st)]
    | None => []
    end.
Proof.
  unfold Stations.handleSaveAssignments.
  destruct (Stations.selectedStationId st) as [sid|]; [|reflexivity].
  destruct (sid =? 0); [reflexivity|].
  destruct rU; [destruct rG|]; reflexivity.
Qed.

(** C10.  Through any sequence of selections, arrivals of fetched guards
    (each fetched list naming a guard once), toggles and saves, the selection
    holds no guard twice; a toggle removes every occurrence of a guard that
    is selected and appends one that is not; and a save for the selected
    station sends one replacement that carries the whole selection. *)
Theorem C10_guard_selection (evs : list Stations.Event) :
  Forall FetchedOnce evs ->
  let st := snd (Stations.run Stations.initialState evs) in
  let ids := Stations.selectedGuardIds st in
  NoDup ids /\
  (forall g,
     let ids' := Stations.selectedGuardIds (Stations.handleToggleGuardSelection st g) in
     NoDup ids' /\
     (In g ids -> ids' = remove Z.eq_dec g ids) /\
     (~ In g ids -> ids' = (ids ++ [g])%list)) /\
  (forall rU rG sid,
     Stations.selectedStationId st = Some sid -> sid <> 0 ->
     replacementsSent (fst (Stations.handleSaveAssignments st rU rG)) = [(sid, ids)]) /\
  (forall rU rG sid sent,
     In (sid, sent) (replacementsSent (fst (Stations.handleSaveAssignments st rU rG))) ->
     sent = ids).
Proof.
  intros Hevs st ids.
  assert (Hnd : NoDup ids).
  { apply run_NoDup; [exact Hevs | constructor]. }
  split; [exact Hnd|]. split; [|split].
  - intros g ids'. split; [now apply toggle_NoDup|].
    unfold ids', Stations.handleToggleGuardSelection. simpl. fold ids. split.
    + intros Hin. apply includesZ_In in Hin. rewrite Hin. apply filter_neqb_remove.
    + intros Hin. apply includesZ_false in Hin. rewrite Hin. reflexivity.
  - intros rU rG sid Hsel Hsid. rewrite save_sends_selection, Hsel.
    destruct (Z.eqb_spec sid 0); [contradiction | reflexivity].
  - intros rU rG sid sent. rewrite save_sends_selection.
    destruct (Stations.selectedStationId st) as [sid'|]; [|intros []].
    destruct (sid' =? 0); [intros []|]. intros [H | []]. now injection H.
Qed.

(** C10, an instance: after the sample session the selection is 11, 13,
    and the save has sent it whole for station 4. *)
Lemma C10_guard_selection_witness :
  NoDup (Stations.selectedGuardIds
           (snd (Stations.run Stations.initialState Sample.assignmentSession))) /\
  Stations.selectedGuardIds
    (snd (Stations.run Stations.initialState Sample.assignmentSession)) = [11; 13] /\
  replacementsSent (fst (Stations.run Stations.initialState Sample.assignmentSession))
  = [(4, [11; 13])].
Proof.
  split; [|split; reflexivity].
  refine (proj1 (C10_guard_selection Sample.assignmentSession _)).
  repeat constructor; simpl; intuition discriminate.
Defined.

(* ------------------------------------------------------------------ *)
(** * Pagination *)

Lemma ceilDiv_bounds (n size : Z) :
  0 < size ->
  (Js.ceilDiv n size - 1) * size < n <= Js.ceilDiv n size * size.
Proof.
  intros Hs. unfold Js.ceilDiv.
  pose proof (Z.div_mod (- n) size ltac:(lia)) as Hdm.
  pose proof (Z.mod_pos_bound (- n) size Hs) as Hmod.
  nia.
Qed.

Lemma firstn_add {A : Type} (a b : nat) (l : list A) :
  firstn (a + b)%nat l = (firstn a l ++ firstn b (skipn a l))%list.
Proof.
  revert l. induction a as [|a IH]; intros l; simpl; [reflexivity|].
  destruct l as [|x l]; simpl.
  - now rewrite firstn_nil.
  - now rewrite IH.
Qed.

Lemma concat_pages {A : Type} (s k : nat) (l : list A) :
  List.concat (map (fun p => firstn s (skipn (p * s)%nat l)) (seq 0 k))
  = firstn (k * s)%nat l.
Proof.
  induction k as [|k IH]; [reflexivity|].
  rewrite seq_S, map_app, concat_app, IH. simpl.
  rewrite app_nil_r, <- firstn_add. f_equal. lia.
Qed.

Lemma slice_window {A : Type} (l : list A) (b c : Z) :
  0 <= b -> 0 <= c ->
  Js.slice l b (b + c) = firstn (Z.to_nat c) (skipn (Z.to_nat b) l).
Proof.
  intros Hb Hc. unfold Js.slice, Js.sliceBound.
  set (len := Z.of_nat (List.length l)).
  destruct (Z.ltb_spec b 0) as [Hneg | _]; [lia|].
  destruct (Z.ltb_spec (b + c) 0) as [Hneg | _]; [lia|].
  destruct (Z.le_gt_cases b len) as [Hin | Hout].
  - rewrite (Z.min_l b len Hin).
    assert (Hlen : List.length (skipn (Z.to_nat b) l) = Z.to_nat (len - b)).
    { rewrite length_skipn. unfold len. lia. }
    destruct (Z.le_gt_cases (b + c) len) as [Hfit | Hcut].
    + rewrite (Z.min_l _ _ Hfit). f_equal. lia.
    + rewrite (Z.min_r (b + c) len) by lia.
      rewrite Z.max_l by lia.
      rewrite <- Hlen, firstn_all. symmetry. apply firstn_all2. lia.
  - rewrite (Z.min_r b len) by lia.
    rewrite (skipn_all2 l (n := Z.to_nat len)) by (unfold len; lia).
    rewrite (skipn_all2 l (n := Z.to_nat b)) by (unfold len in Hout; lia).
    now rewrite !firstn_nil.
Qed.

Lemma totalPages_bounds (st : LogBook.State) :
  0 < LogBook.pageSize st ->
  (LogBook.totalPages st - 1) * LogBook.pageSize st < LogBook.totalElements st
  <= LogBook.totalPages st * LogBook.pageSize st.
Proof.
  intros Hs. unfold LogBook.totalPages.
  destruct (Z.eqb_spec (LogBook.totalElements st) 0) as [-> | Hne].
  - lia.
  - now apply ceilDiv_bounds.
Qed.

Lemma totalElements_nonneg (st : LogBook.State) : 0 <= LogBook.totalElements st.
Proof. unfold LogBook.totalElements. lia. Qed.

Lemma currentPage_clamped (st : LogBook.State) :
  0 < LogBook.pageSize st -> 0 <= LogBook.page st ->
  LogBook.currentPage st
  = Z.max 0 (Z.min (LogBook.page st) (LogBook.totalPages st - 1)).
Proof.
  intros Hs Hp. pose proof (totalPages_bounds st Hs) as Hb.
  pose proof (totalElements_nonneg st) as Hn.
  unfold LogBook.currentPage.
  destruct (Z.eqb_spec (LogBook.totalPages st) 0) as [-> | Hne]; [lia|].
  assert (0 < LogBook.totalPages st) by nia. lia.
Qed.

Lemma pagedLogs_window (st : LogBook.State) :
  0 < LogBook.pageSize st -> 0 <= LogBook.page st ->
  LogBook.pagedLogs st
  = firstn (Z.to_nat (LogBook.pageSize st))
      (skipn (Z.to_nat (LogBook.currentPage st * LogBook.pageSize st))
             (LogBook.filteredLogs st)).
Proof.
  intros Hs Hp. unfold LogBook.pagedLogs. apply slice_window; [|lia].
  rewrite (currentPage_clamped st Hs Hp). nia.
Qed.

(** C5.  For a positive page size and a page index that is not negative:
    [totalPages] is the least number of pages of that size that hold every
    filtered log, and is 0 exactly when there is none; the page shown is
    [page] clamped into [0 .. totalPages - 1] and it is the one the slice is
    cut at; and the pages [0 .. totalPages - 1], one after the other, give
    back the filtered logs. *)
Theorem C5_pagination (st : LogBook.State) :
  0 < LogBook.pageSize st -> 0 <= LogBook.page st ->
  let size := LogBook.pageSize st in
  (LogBook.totalPages st - 1) * size < LogBook.totalElements st
    <= LogBook.totalPages st * size /\
  (LogBook.totalPages st = 0 <-> LogBook.totalElements st = 0) /\
  LogBook.currentPage st
    = Z.max 0 (Z.min (LogBook.page st) (LogBook.totalPages st - 1)) /\
  LogBook.pagedLogs st
    = firstn (Z.to_nat size)
        (skipn (Z.to_nat (LogBook.currentPage st * size)) (LogBook.filteredLogs st)) /\
  List.concat (map (fun p => LogBook.pagedLogs (atPage st p))
              (pageIndexes (LogBook.totalPages st)))
    = LogBook.filteredLogs st.
Proof.
  intros Hs Hp size.
  pose proof (totalPages_bounds st Hs) as Hb.
  pose proof (totalElements_nonneg st) as Hn.
  split; [exact Hb|]. split.
  { unfold LogBook.totalPages in *.
    destruct (Z.eqb_spec (LogBook.totalElements st) 0) as [H0 | Hne]; [tauto|].
    split; [|contradiction]. intros Hz. rewrite Hz in Hb. lia. }
  split; [now apply currentPage_clamped|].
  split; [now apply pagedLogs_window|].
  unfold pageIndexes. rewrite map_map.
  assert (Hk : 0 <= LogBook.totalPages st) by (fold size in Hb; nia).
  rewrite (map_ext_in _
    (fun p => firstn (Z.to_nat size)
                (skipn (p * Z.to_nat size)%nat (LogBook.filteredLogs st)))).
  - rewrite concat_pages. apply firstn_all2.
    unfold LogBook.totalElements in Hb. fold size in Hb. nia.
  - intros p Hin. apply in_seq in Hin.
    assert (Hpage : 0 <= LogBook.page (atPage st (Z.of_nat p))) by (simpl; lia).
    rewrite (pagedLogs_window (atPage st (Z.of_nat p)) Hs Hpage).
    rewrite (currentPage_clamped (atPage st (Z.of_nat p)) Hs Hpage).
    change (LogBook.totalPages (atPage st (Z.of_nat p))) with (LogBook.totalPages st).
    change (LogBook.filteredLogs (atPage st (Z.of_nat p)))
      with (LogBook.filteredLogs st).
    change (LogBook.pageSize (atPage st (Z.of_nat p))) with size.
    change (LogBook.page (atPage st (Z.of_nat p))) with (Z.of_nat p).
    f_equal. f_equal. fold size in Hb. nia.
Qed.

(** C5, an instance: three logs, two to a page, and a stale page index 5:
    two pages, and the second one is shown. *)
Lemma C5_pagination_witness :
  LogBook.currentPage (Sample.logBook Sample.exampleLogs [] [] 5 2)
  = Z.max 0 (Z.min 5 (LogBook.totalPages (Sample.logBook Sample.exampleLogs [] [] 5 2) - 1)).
Proof.
  refine (proj1 (proj2 (proj2
    (C5_pagination (Sample.logBook Sample.exampleLogs [] [] 5 2) _ _)))).
  - reflexivity.
  - discriminate.
Defined.

(* ------------------------------------------------------------------ *)
(** * Sorting *)

Section SortFacts.
Context {A : Type} (cmp : A -> A -> Z).

Let le (a b : A) : Prop := cmp a b <= 0.

Lemma sortInsert_perm (x : A) (l : list A) :
  Permutation (Js.sortInsert cmp x l) (x :: l).
Proof.
  induction l as [|y l IH]; simpl; [reflexivity|].
  destruct (cmp x y >? 0); [|reflexivity].
  rewrite IH. apply perm_swap.
Qed.

Lemma sort_perm (l : list A) : Permutation (Js.sort cmp l) l.
Proof.
  induction l as [|x l IH]; simpl; [reflexivity|].
  rewrite sortInsert_perm. now constructor.
Qed.

Lemma sort_In (l : list A) (x : A) : In x (Js.sort cmp l) <-> In x l.
Proof.
  split; apply Permutation_in; [|symmetry]; apply sort_perm.
Qed.

Hypothesis cmp_total : forall x y, cmp x y > 0 -> cmp y x <= 0.

Lemma sortInsert_HdRel (a x : A) (l : list A) :
  le a x -> HdRel le a l -> HdRel le a (Js.sortInsert cmp x l).
Proof.
  intros Hax Hal. destruct l as [|y l]; simpl.
  - now constructor.
  - destruct (cmp x y >? 0); constructor; [|exact Hax].
    now inversion Hal.
Qed.

Lemma sortInsert_Sorted (x : A) (l : list A) :
  Sorted le l -> Sorted le (Js.sortInsert cmp x l).
Proof.
  induction l as [|y l IH]; intros Hs; simpl.
  - repeat constructor.
  - destruct (Z.gtb_spec (cmp x y) 0) as [Hgt | Hle].
    + apply Sorted_inv in Hs. destruct Hs as [Hs Hhd]. constructor.
      * now apply IH.
      * apply sortInsert_HdRel; [|exact Hhd]. apply cmp_total. lia.
    + constructor; [exact Hs|]. constructor. exact Hle.
Qed.

Lemma sort_Sorted (l : list A) : Sorted le (Js.sort cmp l).
Proof.
  induction l as [|x l IH]; simpl; [constructor|].
  now apply sortInsert_Sorted.
Qed.

Hypothesis cmp_trans : forall x y z, cmp x y <= 0 -> cmp y z <= 0 -> cmp x z <= 0.

Lemma sort_StronglySorted (l : list A) : StronglySorted le (Js.sort cmp l).
Proof.
  apply Sorted_StronglySorted; [|apply sort_Sorted].
  intros x y z. apply cmp_trans.
Qed.
End SortFacts.

(* ------------------------------------------------------------------ *)
(** * The location options *)

Lemma compareToken_antisym (a b : LocationSort.Token) :
  LocationSort.compareToken b a = CompOpp (LocationSort.compareToken a b).
Proof.
  destruct a, b; simpl; try reflexivity.
  - apply Z.compare_antisym.
  - apply String.compare_antisym.
Qed.

Lemma compareTokens_antisym (a b : list LocationSort.Token) :
  LocationSort.compareTokens b a = CompOpp (LocationSort.compareTokens a b).
Proof.
  revert b. induction a as [|x a IH]; intros [|y b]; simpl; try reflexivity.
  rewrite (compareToken_antisym x y).
  destruct (LocationSort.compareToken x y); simpl; auto.
Qed.

Lemma gateAwareCompare_antisym (a b : string) :
  LocationSort.gateAwareCompare b a = CompOpp (LocationSort.gateAwareCompare a b).
Proof.
  unfold LocationSort.gateAwareCompare.
  destruct (LocationSort.isGateName a), (LocationSort.isGateName b);
    try reflexivity.
  - apply compareTokens_antisym.
  - apply String.compare_antisym.
Qed.

Lemma sortGateAware_Sorted (names : list string) :
  Sorted GateAwareLe (LocationSort.sortGateAware names).
Proof.
  unfold LocationSort.sortGateAware.
  assert (Hs := sort_Sorted
    (fun a b => LocationSort.comparatorOf (LocationSort.gateAwareCompare a b))).
  cbv beta in Hs.
  assert (Himp : forall l,
    Sorted (fun a b => LocationSort.comparatorOf (LocationSort.gateAwareCompare a b) <= 0) l ->
    Sorted GateAwareLe l).
  { induction 1 as [|a l Hl IH Hhd]; constructor; [exact IH|].
    destruct Hhd as [|b l' Hab]; constructor. unfold GateAwareLe.
    destruct (LocationSort.gateAwareCompare a b); simpl in Hab;
      [discriminate | discriminate | lia]. }
  apply Himp, Hs. intros x y.
  rewrite (gateAwareCompare_antisym x y).
  destruct (LocationSort.gateAwareCompare x y); simpl; lia.
Qed.

Lemma locationNames_In (st : LogBook.State) (n : string) :
  In n (LogBook.locationNames st) <->
  (exists s, In s (LogBook.stations st) /\ n = Js.trim (Js.orElse (name s) "")) /\
  n <> "" /\ n <> "N/A".
Proof.
  unfold LogBook.locationNames.
  rewrite filter_In, in_map_iff, andb_true_iff, truthy_iff, negb_true_iff,
    String.eqb_neq.
  split.
  - intros [[s [Hs Hin]] [H1 H2]]. split; [exists s; auto | auto].
  - intros [[s [Hin Hs]] [H1 H2]]. split; [exists s; auto | auto].
Qed.

(** C9.  The location options are the trimmed station names that are not
    blank and not "N/A", each once, every two neighbours in the order of the
    gate-aware comparator, which puts "Gate 2" before "Gate 10". *)
Theorem C9_locationOptions (st : LogBook.State) :
  (forall n, In n (LogBook.locationOptions st) <->
     (exists s, In s (LogBook.stations st) /\ n = Js.trim (Js.orElse (name s) "")) /\
     n <> "" /\ n <> "N/A") /\
  NoDup (LogBook.locationOptions st) /\
  Sorted GateAwareLe (LogBook.locationOptions st) /\
  LocationSort.gateAwareCompare "Gate 2" "Gate 10" = Lt /\
  LogBook.locationOptions
    (Sample.logBook [] [] [Sample.station 1 (Some "Gate 10") None;
                           Sample.station 2 (Some "Gate 2") None] 0 25)
  = ["Gate 2"; "Gate 10"].
Proof.
  assert (Hopt : LogBook.locationOptions st
                 = LocationSort.sortGateAware
                     (Js.Set_of String.eqb (LogBook.locationNames st))).
  { unfold LogBook.locationOptions, LogBook.locationNames.
    destruct (LogBook.stations st); reflexivity. }
  rewrite Hopt. split; [|split; [|split; [|split]]].
  - intros n. unfold LocationSort.sortGateAware.
    rewrite sort_In, (Set_of_In _ String.eqb_eq). apply locationNames_In.
  - unfold LocationSort.sortGateAware.
    apply (Permutation_NoDup (l := Js.Set_of String.eqb (LogBook.locationNames st))).
    + symmetry. apply sort_perm.
    + apply (Set_of_NoDup _ String.eqb_eq).
  - apply sortGateAware_Sorted.
  - reflexivity.
  - reflexivity.
Qed.

Example locationOptions_sample :
  LogBook.locationOptions (Sample.logBook [] [] Sample.gateStations 0 25)
  = ["Gate 2"; "Gate 10"].
Proof. reflexivity. Qed.

(* ------------------------------------------------------------------ *)
(** * Array-index keys *)

Lemma width_cons (c : ascii) (s : string) : width (String c s) = width s + 1.
Proof. unfold width. simpl String.length. lia. Qed.

Lemma width_nonneg (s : string) : 0 <= width s.
Proof. unfold width. lia. Qed.

Lemma isDigit_range (c : ascii) : Counter.isDigit c = true -> 0 <= digitOf c <= 9.
Proof.
  unfold Counter.isDigit, digitOf. rewrite andb_true_iff, !N.leb_le. lia.
Qed.

Lemma digitOf_inj (c c' : ascii) : digitOf c = digitOf c' -> c = c'.
Proof.
  unfold digitOf. intros H.
  assert (Hn : N_of_ascii c = N_of_ascii c') by lia.
  rewrite <- (ascii_N_embedding c), <- (ascii_N_embedding c'). now rewrite Hn.
Qed.

Lemma digitsValue_acc (s : string) (acc : Z) :
  Counter.digitsValue acc s
  = option_map (fun v => acc * 10 ^ width s + v) (Counter.digitsValue 0 s).
Proof.
  revert acc. induction s as [|c r IH]; intros acc.
  - simpl. f_equal. unfold width. simpl. lia.
  - cbn [Counter.digitsValue]. destruct (Counter.isDigit c); [|reflexivity].
    fold (digitOf c). rewrite (IH (10 * acc + digitOf c)), (IH (10 * 0 + digitOf c)).
    rewrite width_cons, Z.pow_add_r by (try apply width_nonneg; lia).
    rewrite Z.pow_1_r.
    destruct (Counter.digitsValue 0 r) as [v|]; cbn [option_map]; [|reflexivity].
    f_equal. ring.
Qed.

Lemma digitsValue_cons (c : ascii) (r : string) (v : Z) :
  Counter.digitsValue 0 (String c r) = Some v ->
  Counter.isDigit c = true /\
  exists v', Counter.digitsValue 0 r = Some v' /\ v = digitOf c * 10 ^ width r + v'.
Proof.
  cbn [Counter.digitsValue]. destruct (Counter.isDigit c); [|discriminate].
  fold (digitOf c). rewrite digitsValue_acc.
  destruct (Counter.digitsValue 0 r) as [v'|]; cbn [option_map]; [|discriminate].
  intros H. injection H as <-. split; [reflexivity|].
  exists v'. split; [reflexivity|]. ring.
Qed.

Lemma digitsValue_bounds (s : string) (v : Z) :
  Counter.digitsValue 0 s = Some v -> 0 <= v < 10 ^ width s.
Proof.
  revert v. induction s as [|c r IH]; intros v H.
  - simpl in H. injection H as <-. unfold width. simpl. lia.
  - apply digitsValue_cons in H. destruct H as [Hd [v' [Hr ->]]].
    apply isDigit_range in Hd. specialize (IH v' Hr).
    rewrite width_cons, Z.pow_add_r by (try apply width_nonneg; lia).
    rewrite Z.pow_1_r. nia.
Qed.

Lemma digitsValue_inj_width (s t : string) (v : Z) :
  width s = width t ->
  Counter.digitsValue 0 s = Some v -> Counter.digitsValue 0 t = Some v -> s = t.
Proof.
  revert t v. induction s as [|c r IH]; intros [|c' r'] v Hw Hs Ht.
  - reflexivity.
  - rewrite width_cons in Hw. unfold width in Hw at 1. simpl in Hw.
    pose proof (width_nonneg r'). lia.
  - rewrite width_cons in Hw. unfold width in Hw at 2. simpl in Hw.
    pose proof (width_nonneg r). lia.
  - rewrite !width_cons in Hw. assert (Hw' : width r = width r') by lia.
    apply digitsValue_cons in Hs. destruct Hs as [Hd [v1 [Hr1 Hv1]]].
    apply digitsValue_cons in Ht. destruct Ht as [Hd' [v2 [Hr2 Hv2]]].
    apply isDigit_range in Hd, Hd'.
    pose proof (digitsValue_bounds r v1 Hr1) as B1.
    pose proof (digitsValue_bounds r' v2 Hr2) as B2.
    rewrite <- Hw' in *. 
    assert (Hdd : digitOf c = digitOf c') by nia.
    assert (Hvv : v1 = v2) by nia.
    subst v2. f_equal; [now apply digitOf_inj | now apply (IH r' v1)].
Qed.

(** A canonical numeral is "0" or starts with a digit other than 0. *)
Lemma arrayIndex_canonical (k : string) (i : Z) :
  Counter.arrayIndex k = Some i ->
  Counter.digitsValue 0 k = Some i /\
  (k = "0" \/ 10 ^ (width k - 1) <= i) /\ k <> "".
Proof.
  unfold Counter.arrayIndex. destruct k as [|c r]; [discriminate|].
  assert (Hne0 : String c r <> "") by discriminate.
  destruct (Ascii.eqb_spec c "0") as [-> | Hc]; simpl andb.
  - destruct r as [|c' r']; simpl Js.truthy; cbv iota; [|discriminate].
    destruct (Counter.digitsValue 0 "0") as [n|] eqn:Hv; [|discriminate].
    destruct (n <=? 4294967294); [|discriminate].
    intros H. injection H as <-. split; [reflexivity | split; [left; reflexivity | exact Hne0]].
  - destruct (Counter.digitsValue 0 (String c r)) as [n|] eqn:Hv; [|discriminate].
    destruct (n <=? 4294967294); [|discriminate].
    intros H. injection H as <-. split; [reflexivity | split; [right | exact Hne0]].
    apply digitsValue_cons in Hv. destruct Hv as [Hd [v' [Hr ->]]].
    pose proof (digitsValue_bounds r v' Hr) as B.
    assert (Hne : digitOf c <> 0).
    { intros H0. apply Hc. apply digitOf_inj. rewrite H0. reflexivity. }
    apply isDigit_range in Hd. rewrite width_cons.
    replace (width r + 1 - 1) with (width r) by lia. nia.
Qed.

Lemma arrayIndex_inj (a b : string) (i : Z) :
  Counter.arrayIndex a = Some i -> Counter.arrayIndex b = Some i -> a = b.
Proof.
  intros Ha Hb.
  apply arrayIndex_canonical in Ha, Hb.
  destruct Ha as [Va [Ca Na]], Hb as [Vb [Cb Nb]].
  pose proof (digitsValue_bounds a i Va) as Ba.
  pose proof (digitsValue_bounds b i Vb) as Bb.
  assert (Hpos : forall s, 0 < 10 ^ (width s - 1) \/ width s = 0).
  { intros s. pose proof (width_nonneg s).
    destruct (Z.eq_dec (width s) 0); [right; assumption | left].
    apply Z.pow_pos_nonneg; lia. }
  destruct Ca as [-> | Ca], Cb as [-> | Cb].
  - reflexivity.
  - vm_compute in Va. injection Va as <-.
    destruct (Hpos b) as [H | H]; [lia|].
    destruct b as [|c r]; [contradiction|].
    rewrite width_cons in H. pose proof (width_nonneg r). lia.
  - vm_compute in Vb. injection Vb as <-.
    destruct (Hpos a) as [H | H]; [lia|].
    destruct a as [|c r]; [contradiction|].
    rewrite width_cons in H. pose proof (width_nonneg r). lia.
  - apply (digitsValue_inj_width a b i); [|assumption|assumption].
    destruct (Z.lt_trichotomy (width a) (width b)) as [Hlt | [Heq | Hgt]];
      [exfalso | exact Heq | exfalso].
    + assert (10 ^ width a <= 10 ^ (width b - 1)).
      { apply Z.pow_le_mono_r; lia. }
      lia.
    + assert (10 ^ width b <= 10 ^ (width a - 1)).
      { apply Z.pow_le_mono_r; lia. }
      lia.
Qed.

(* ------------------------------------------------------------------ *)
(** * Places in a list *)

Lemma Before_In {A : Type} (l : list A) (x y : A) :
  Before l x y -> In x l /\ In y l.
Proof.
  intros [p [q [-> Hy]]]. rewrite !in_app_iff. simpl. auto.
Qed.

Lemma Before_app_inv {A : Type} (l1 l2 : list A) (x y : A) :
  Before (l1 ++ l2) x y ->
  Before l1 x y \/ (In x l1 /\ In y l2) \/ Before l2 x y.
Proof.
  intros [p [q [Heq Hy]]]. apply app_eq_app in Heq.
  destruct Heq as [l [[-> Hl] | [-> ->]]].
  - destruct l as [|z l]; simpl in Hl.
    + right. right. exists [], q. split; [now rewrite <- Hl | exact Hy].
    + injection Hl as <- ->. apply in_app_iff in Hy. destruct Hy as [Hy | Hy].
      * left. exists p, l. split; [reflexivity | exact Hy].
      * right. left. split; [|exact Hy]. rewrite in_app_iff. simpl. auto.
  - right. right. exists l, q. split; [reflexivity | exact Hy].
Qed.

Lemma Before_filter {A : Type} (f : A -> bool) (l : list A) (x y : A) :
  Before (filter f l) x y -> Before l x y.
Proof.
  induction l as [|z l IH]; simpl; intros H.
  - destruct H as [p [q [Heq _]]]. destruct p; discriminate.
  - assert (Hskip : Before l x y -> Before (z :: l) x y).
    { intros [p [q [-> Hy]]]. exists (z :: p), q. split; [reflexivity | exact Hy]. }
    destruct (f z); [|auto].
    destruct H as [p [q [Heq Hy]]]. destruct p as [|z' p]; simpl in Heq.
    + injection Heq as <- Hq. exists [], l. split; [reflexivity|].
      assert (Hin : In y (filter f l)) by (rewrite Hq; exact Hy).
      apply filter_In in Hin. tauto.
    + injection Heq as <- Hq. apply Hskip, IH. exists p, q. split; assumption.
Qed.

Lemma Before_map {A B : Type} (f : A -> B) (l : list A) (x y : A) :
  Before l x y -> Before (map f l) (f x) (f y).
Proof.
  intros [p [q [-> Hy]]]. exists (map f p), (map f q).
  rewrite map_app. split; [reflexivity | now apply in_map].
Qed.

Lemma Before_irrefl {A : Type} (l : list A) (x : A) :
  NoDup l -> ~ Before l x x.
Proof.
  intros Hnd [p [q [-> Hx]]]. apply NoDup_remove_2 in Hnd.
  apply Hnd. rewrite in_app_iff. auto.
Qed.

Lemma StronglySorted_Before {A : Type} (R : A -> A -> Prop) (l : list A) (x y : A) :
  StronglySorted R l -> Before l x y -> R x y.
Proof.
  intros Hs [p [q [-> Hy]]]. induction p as [|z p IH]; simpl in Hs.
  - inversion Hs as [|? ? _ Hall]; subst.
    rewrite Forall_forall in Hall. now apply Hall.
  - inversion Hs; subst. now apply IH.
Qed.

Lemma filter_split_perm {A : Type} (f : A -> bool) (l : list A) :
  Permutation (filter f l ++ filter (fun a => negb (f a)) l) l.
Proof.
  induction l as [|x l IH]; simpl; [reflexivity|].
  destruct (f x); simpl.
  - now constructor.
  - rewrite <- Permutation_middle. now constructor.
Qed.

Lemma NoDup_keys_inj {A B : Type} (l : list (A * B)) (x y : A * B) :
  NoDup (map fst l) -> In x l -> In y l -> fst x = fst y -> x = y.
Proof.
  induction l as [|z l IH]; simpl; intros Hnd Hx Hy Hk; [contradiction|].
  inversion Hnd as [|? ? Hz Hl]; subst.
  destruct Hx as [-> | Hx], Hy as [-> | Hy].
  - reflexivity.
  - exfalso. apply Hz. rewrite Hk. now apply in_map.
  - exfalso. apply Hz. rewrite <- Hk. now apply in_map.
  - now apply IH.
Qed.

(** The order of a set built by insertion is the order of first
    occurrences. *)
Lemma Set_of_Before {A : Type} (eqbA : A -> A -> bool)
    (eqbA_spec : forall x y, eqbA x y = true <-> x = y) (ks : list A) (a b : A) :
  Before (Js.Set_of eqbA ks) a b -> FirstBefore ks a b.
Proof.
  induction ks as [|k ks IH] using rev_ind; intros H.
  - destruct H as [p [q [Heq _]]]. destruct p; discriminate.
  - assert (Hext : FirstBefore ks a b -> FirstBefore (ks ++ [k]) a b).
    { intros [p [q [-> Hb]]]. exists p, (q ++ [k])%list.
      split; [now rewrite <- app_assoc | exact Hb]. }
    unfold Js.Set_of in H. rewrite fold_left_app in H. simpl in H.
    fold (Js.Set_of eqbA ks) in H. unfold Js.Set_add in H.
    destruct (existsb (eqbA k) (Js.Set_of eqbA ks)) eqn:Hk; [auto|].
    assert (Hnk : ~ In k ks).
    { intros Hin. apply (proj2 (Set_of_In eqbA eqbA_spec ks k)) in Hin.
      apply (proj2 (existsb_eqb_In eqbA eqbA_spec k _)) in Hin. congruence. }
    apply Before_app_inv in H. destruct H as [H | [[Ha Hb] | H]].
    + auto.
    + destruct Hb as [<- | []].
      apply (proj1 (Set_of_In eqbA eqbA_spec ks a)) in Ha. apply in_split in Ha.
      destruct Ha as [p [q ->]]. exists p, (q ++ [k])%list.
      split; [now rewrite <- app_assoc|].
      intros Hin. apply Hnk. rewrite in_app_iff. auto.
    + destruct H as [p [q [Heq Hb]]].
      destruct p as [|? [|? ?]]; try discriminate.
      injection Heq as _ <-. destruct Hb.
Qed.

(* ------------------------------------------------------------------ *)
(** * Counter tables *)

Section CounterFacts.
Variables f g : string -> Z.

Let row (h : string -> Z) (k : string) : string * Z := (k, h k).

Lemma get_rows_In (l : list string) (k : string) :
  In k l -> Tally.get (map (row f) l) k = Some (f k).
Proof.
  induction l as [|x l IH]; simpl; [contradiction|].
  destruct (String.eqb_spec x k) as [-> | Hne]; [reflexivity|].
  intros [H | H]; [contradiction | auto].
Qed.

Lemma get_rows_notIn (l : list string) (k : string) :
  ~ In k l -> Tally.get (map (row f) l) k = None.
Proof.
  induction l as [|x l IH]; simpl; [reflexivity|]. intros H.
  destruct (String.eqb_spec x k) as [-> | Hne]; [exfalso; auto | auto].
Qed.

Lemma set_rows_In (l : list string) (k : string) :
  NoDup l -> In k l -> (forall x, x <> k -> g x = f x) ->
  Tally.set (map (row f) l) k (g k) = map (row g) l.
Proof.
  intros Hnd Hin Hfg. unfold row. induction l as [|x l IH]; simpl; [contradiction|].
  inversion Hnd as [|? ? Hx Hl]; subst.
  destruct (String.eqb_spec x k) as [-> | Hne].
  - f_equal. apply map_ext_in. intros y Hy.
    rewrite Hfg; [reflexivity|]. intros ->. contradiction.
  - rewrite (Hfg x Hne). f_equal. apply IH; [exact Hl|].
    destruct Hin as [H | H]; [contradiction | exact H].
Qed.

Lemma set_rows_notIn (l : list string) (k : string) (v : Z) :
  ~ In k l ->
  Tally.set (map (row f) l) k v = (map (row f) l ++ [(k, v)])%list.
Proof.
  induction l as [|x l IH]; simpl; [reflexivity|]. intros H.
  destruct (String.eqb_spec x k) as [-> | Hne]; [exfalso; auto|].
  f_equal. apply IH. auto.
Qed.
End CounterFacts.

Lemma occurrences_snoc (ks : list string) (k x : string) :
  occurrences (ks ++ [k]) x = occurrences ks x + (if string_dec k x then 1 else 0).
Proof.
  unfold occurrences. rewrite count_occ_app. simpl.
  destruct (string_dec k x); lia.
Qed.

(** The table built from [ks] lists the keys in the order of their first
    occurrence, each with the number of its occurrences. *)
Lemma tally_rows (ks : list string) :
  tally ks = map (fun k => (k, occurrences ks k)) (Js.Set_of String.eqb ks).
Proof.
  induction ks as [|k ks IH] using rev_ind; [reflexivity|].
  unfold tally, Js.Set_of. rewrite !fold_left_app. simpl.
  fold (tally ks) (Js.Set_of String.eqb ks). rewrite IH.
  unfold Tally.bump, Tally.getOr0, Js.Set_add.
  destruct (existsb (String.eqb k) (Js.Set_of String.eqb ks)) eqn:Hk.
  - apply (existsb_eqb_In String.eqb String.eqb_eq) in Hk.
    rewrite get_rows_In by exact Hk.
    replace (occurrences ks k + 1) with (occurrences (ks ++ [k]) k).
    + apply (set_rows_In (occurrences ks) (occurrences (ks ++ [k]))).
      * apply (Set_of_NoDup _ String.eqb_eq).
      * exact Hk.
      * intros x Hx. rewrite occurrences_snoc.
        destruct (string_dec k x); [congruence | lia].
    + rewrite occurrences_snoc. destruct (string_dec k k); [lia | congruence].
  - assert (Hnk : ~ In k (Js.Set_of String.eqb ks)).
    { intros H. apply (existsb_eqb_In String.eqb String.eqb_eq) in H. congruence. }
    rewrite get_rows_notIn by exact Hnk.
    rewrite (set_rows_notIn (occurrences ks)) by exact Hnk.
    rewrite map_app. simpl. f_equal.
    + apply map_ext_in. intros x Hx. rewrite occurrences_snoc.
      destruct (string_dec k x) as [<- | _]; [contradiction | f_equal; lia].
    + rewrite occurrences_snoc. destruct (string_dec k k); [|congruence].
      rewrite (Set_of_In _ String.eqb_eq) in Hnk.
      unfold occurrences. rewrite (count_occ_not_In string_dec) in Hnk.
      rewrite Hnk. reflexivity.
Qed.

Lemma tally_keys (ks : list string) :
  map fst (tally ks) = Js.Set_of String.eqb ks.
Proof.
  rewrite tally_rows, map_map. simpl. apply map_id.
Qed.

Lemma tally_In (ks : list string) (kv : string * Z) :
  In kv (tally ks) <-> In (fst kv) ks /\ snd kv = occurrences ks (fst kv).
Proof.
  rewrite tally_rows, in_map_iff. split.
  - intros [k [<- Hk]]. simpl. rewrite (Set_of_In _ String.eqb_eq) in Hk. auto.
  - intros [Hk Hv]. exists (fst kv).
    rewrite (Set_of_In _ String.eqb_eq). split; [|exact Hk].
    destruct kv as [k v]. simpl in *. now rewrite Hv.
Qed.

(* ------------------------------------------------------------------ *)
(** * The order of [Object.entries] *)

Lemma Object_entries_perm (o : Tally.t) :
  Permutation (Tally.entries o) o.
Proof.
  unfold Tally.entries. rewrite sort_perm. apply filter_split_perm.
Qed.

Lemma Object_entries_Before (o : Tally.t) (x y : string * Z) :
  NoDup (map fst o) ->
  Before (Tally.entries o) x y ->
  match Counter.arrayIndex (fst x), Counter.arrayIndex (fst y) with
  | Some i, Some j => i < j
  | Some _, None => True
  | None, Some _ => False
  | None, None => Before o x y
  end.
Proof.
  intros Hnd H. unfold Tally.entries in H.
  assert (Hkey : forall z, In z (filter Counter.isIndexKey o) ->
            In z o /\ Counter.arrayIndex (fst z) = Some (Counter.indexOfKey z)).
  { intros z Hz. apply filter_In in Hz. destruct Hz as [Hz Hi]. split; [exact Hz|].
    unfold Counter.isIndexKey, Counter.indexOfKey in *.
    destruct (Counter.arrayIndex (fst z)); [reflexivity | discriminate]. }
  assert (Hrest : forall z, In z (filter (fun kv => negb (Counter.isIndexKey kv)) o) ->
            Counter.arrayIndex (fst z) = None).
  { intros z Hz. apply filter_In in Hz. destruct Hz as [_ Hi].
    unfold Counter.isIndexKey in Hi.
    destruct (Counter.arrayIndex (fst z)); [discriminate | reflexivity]. }
  set (byIndex := fun a b : string * Z => Counter.indexOfKey a - Counter.indexOfKey b) in *.
  apply Before_app_inv in H. destruct H as [H | [[Hx Hy] | H]].
  - pose proof (Before_In _ _ _ H) as [Hx Hy].
    apply (proj1 (sort_In byIndex _ _)) in Hx.
    apply (proj1 (sort_In byIndex _ _)) in Hy.
    destruct (Hkey x Hx) as [Hxo Hix], (Hkey y Hy) as [Hyo Hiy].
    rewrite Hix, Hiy.
    assert (Hss : StronglySorted (fun a b => byIndex a b <= 0)
                    (Js.sort byIndex (filter Counter.isIndexKey o))).
    { apply sort_StronglySorted; unfold byIndex; intros; lia. }
    pose proof (StronglySorted_Before _ _ x y Hss H) as Hle.
    unfold byIndex in Hle.
    destruct (Z.eq_dec (Counter.indexOfKey x) (Counter.indexOfKey y)) as [Heq | Hne];
      [exfalso | lia].
    rewrite Heq in Hix.
    assert (Hxy : x = y).
    { apply (NoDup_keys_inj o); try assumption.
      now apply (arrayIndex_inj _ _ (Counter.indexOfKey y)). }
    subst y. revert H. apply Before_irrefl.
    apply (Permutation_NoDup (l := filter Counter.isIndexKey o)).
    + symmetry. apply sort_perm.
    + apply NoDup_filter. apply (NoDup_map_inv fst). exact Hnd.
  - apply (proj1 (sort_In byIndex _ _)) in Hx. destruct (Hkey x Hx) as [_ Hix].
    rewrite Hix, (Hrest y Hy). exact I.
  - pose proof (Before_In _ _ _ H) as [Hx Hy].
    rewrite (Hrest x Hx), (Hrest y Hy). now apply Before_filter in H.
Qed.

(* ------------------------------------------------------------------ *)
(** * The first entry after sorting by count *)

Lemma sort_desc_head (E : list (string * Z)) :
  E <> [] ->
  exists r pre post,
    hd_error (Js.sort (fun a b => snd b - snd a) E) = Some r /\
    E = (pre ++ r :: post)%list /\
    (forall x, In x pre -> snd x < snd r) /\
    (forall x, In x post -> snd x <= snd r).
Proof.
  induction E as [|x E IH]; intros Hne; [contradiction|].
  destruct E as [|y E].
  - exists x, [], []. simpl. repeat split; intros ? [].
  - destruct IH as [r [pre [post [Hhd [Heq [Hpre Hpost]]]]]]; [discriminate|].
    change (Js.sort (fun a b => snd b - snd a) (x :: y :: E))
      with (Js.sortInsert (fun a b => snd b - snd a) x
              (Js.sort (fun a b => snd b - snd a) (y :: E))).
    destruct (Js.sort (fun a b => snd b - snd a) (y :: E)) as [|h sorted];
      [discriminate|].
    simpl in Hhd. injection Hhd as ->. cbn [Js.sortInsert].
    destruct (Z.gtb_spec (snd r - snd x) 0) as [Hgt | Hle].
    + exists r, (x :: pre), post. simpl. rewrite Heq. repeat split.
      * intros z [<- | Hz]; [lia | auto].
      * exact Hpost.
    + exists x, [], (y :: E). split; [reflexivity|]. split; [reflexivity|].
      split; [intros ? []|].
      intros z Hz. rewrite Heq in Hz. apply in_app_iff in Hz.
      destruct Hz as [Hz | [<- | Hz]].
      * specialize (Hpre z Hz). lia.
      * lia.
      * specialize (Hpost z Hz). lia.
Qed.

(* ------------------------------------------------------------------ *)
(** * Statistics: the busiest location and gate *)

Lemma topKey_tally (ks : list string) :
  ks <> [] ->
  exists r, Tally.topKey (tally ks) = Some r /\ TopBy (KeyBefore ks) ks r.
Proof.
  intros Hne.
  assert (Hin : forall k, In k ks ->
            In (k, occurrences ks k) (Tally.entries (tally ks))).
  { intros k Hk. apply (Permutation_in _ (Permutation_sym (Object_entries_perm _))).
    apply tally_In. simpl. auto. }
  assert (HE : Tally.entries (tally ks) <> []).
  { destruct ks as [|k0 ks']; [contradiction|].
    intros H. specialize (Hin k0 (or_introl eq_refl)). rewrite H in Hin. destruct Hin. }
  destruct (sort_desc_head _ HE) as [r0 [pre [post [Hhd [Heq [Hpre Hpost]]]]]].
  assert (Hr0 : In (fst r0) ks /\ snd r0 = occurrences ks (fst r0)).
  { apply tally_In. apply (Permutation_in _ (Object_entries_perm _)).
    rewrite Heq. apply in_elt. }
  destruct Hr0 as [Hr Hc].
  exists (fst r0). split.
  { unfold Tally.topKey. rewrite Hhd. reflexivity. }
  split; [exact Hr|]. intros k Hk.
  pose proof (Hin k Hk) as Hkv. rewrite Heq in Hkv.
  apply in_app_iff in Hkv. rewrite <- Hc.
  destruct Hkv as [Hkv | [Hkv | Hkv]].
  - specialize (Hpre _ Hkv). simpl in Hpre. split; [lia | intros; lia].
  - subst r0. simpl. split; [lia | intros _ H; congruence].
  - pose proof (Hpost _ Hkv) as Hle. simpl in Hle. split; [exact Hle|].
    intros _ Hkr.
    assert (Hb : Before (Tally.entries (tally ks)) r0 (k, occurrences ks k)).
    { exists pre, post. split; assumption. }
    apply Object_entries_Before in Hb;
      [|rewrite tally_keys; apply (Set_of_NoDup _ String.eqb_eq)].
    unfold KeyBefore. simpl fst in Hb.
    destruct (Counter.arrayIndex (fst r0)), (Counter.arrayIndex k); try exact Hb.
    apply (Before_map fst) in Hb. rewrite tally_keys in Hb.
    now apply (Set_of_Before _ String.eqb_eq) in Hb.
Qed.

Lemma TopBy_no_index (ks : list string) (r : string) :
  (forall k, In k ks -> Counter.arrayIndex k = None) ->
  TopBy (KeyBefore ks) ks r -> TopBy (FirstBefore ks) ks r.
Proof.
  intros Hno [Hr Htop]. split; [exact Hr|]. intros k Hk.
  destruct (Htop k Hk) as [Hle Htie]. split; [exact Hle|].
  intros He Hne. specialize (Htie He Hne). unfold KeyBefore in Htie.
  now rewrite (Hno r Hr), (Hno k Hk) in Htie.
Qed.

Lemma digits_no_gate (s : string) (acc v : Z) :
  Counter.digitsValue acc s = Some v ->
  Js.includes (Js.toLowerCase s) "gate" = false.
Proof.
  revert acc. induction s as [|c r IH]; intros acc H; [reflexivity|].
  cbn [Counter.digitsValue] in H.
  destruct (Counter.isDigit c) eqn:Hd; [|discriminate].
  cbn [Js.toLowerCase Js.includes]. rewrite (IH _ H), orb_false_r.
  assert (Hlow : Js.toLowerChar c = c).
  { unfold Js.toLowerChar. unfold Counter.isDigit in Hd.
    apply andb_true_iff in Hd. destruct Hd as [H1 H2].
    apply N.leb_le in H1, H2.
    replace (65 <=? N_of_ascii c)%N with false by (symmetry; apply N.leb_gt; lia).
    replace (192 <=? N_of_ascii c)%N with false by (symmetry; apply N.leb_gt; lia).
    reflexivity. }
  rewrite Hlow. cbn [Js.startsWith].
  destruct (Ascii.eqb_spec c "g") as [-> | _]; [discriminate Hd | reflexivity].
Qed.

Lemma gate_name_no_index (k : string) :
  Js.includes (Js.toLowerCase k) "gate" = true -> Counter.arrayIndex k = None.
Proof.
  intros Hg. destruct (Counter.arrayIndex k) as [i|] eqn:Hi; [|reflexivity].
  apply arrayIndex_canonical in Hi. destruct Hi as [Hv _].
  apply digits_no_gate in Hv. congruence.
Qed.

(** ** Counting names that the prototype does not define *)

Lemma get_lift (o : Tally.t) (k : string) :
  Counter.get (Tally.lift o) k = option_map Counter.Num (Tally.get o k).
Proof.
  induction o as [|[k' v] o IH]; simpl; [reflexivity|].
  destruct (k' =? k)%string; [reflexivity | exact IH].
Qed.

Lemma set_lift (o : Tally.t) (k : string) (v : Z) :
  Counter.set (Tally.lift o) k (Counter.Num v) = Tally.lift (Tally.set o k v).
Proof.
  induction o as [|[k' v'] o IH]; simpl; [reflexivity|].
  destruct (k' =? k)%string; simpl; [reflexivity | now rewrite IH].
Qed.

Lemma bump_lift (o : Tally.t) (k : string) :
  Counter.onPrototype k = false ->
  Counter.bump (Tally.lift o) k = Tally.lift (Tally.bump o k).
Proof.
  unfold Counter.onPrototype. intros H. apply orb_false_iff in H.
  destruct H as [Hp Hm]. unfold Counter.bump, Tally.bump, Tally.getOr0.
  rewrite Hp, Hm, get_lift.
  destruct (Tally.get o k) as [n|]; cbn [option_map]; apply set_lift.
Qed.

Lemma fold_bump_lift (ks : list string) (o : Tally.t) :
  (forall k, In k ks -> Counter.onPrototype k = false) ->
  fold_left Counter.bump ks (Tally.lift o) = Tally.lift (fold_left Tally.bump ks o).
Proof.
  revert o. induction ks as [|k ks IH]; intros o H; [reflexivity|].
  cbn [fold_left]. rewrite bump_lift by (apply H; left; reflexivity).
  apply IH. intros x Hx. apply H. right. exact Hx.
Qed.

Lemma sortInsert_map {A B : Type} (f : A -> B) (cmpA : A -> A -> Z)
    (cmpB : B -> B -> Z) (x : A) (l : list A) :
  (forall a b, cmpB (f a) (f b) = cmpA a b) ->
  Js.sortInsert cmpB (f x) (map f l) = map f (Js.sortInsert cmpA x l).
Proof.
  intros H. induction l as [|y l IH]; simpl; [reflexivity|].
  rewrite H. destruct (cmpA x y >? 0); simpl; [now rewrite IH | reflexivity].
Qed.

Lemma sort_map {A B : Type} (f : A -> B) (cmpA : A -> A -> Z)
    (cmpB : B -> B -> Z) (l : list A) :
  (forall a b, cmpB (f a) (f b) = cmpA a b) ->
  Js.sort cmpB (map f l) = map f (Js.sort cmpA l).
Proof.
  intros H. induction l as [|x l IH]; simpl; [reflexivity|].
  rewrite IH. now apply sortInsert_map.
Qed.

Lemma filter_lift (p : string -> bool) (o : Tally.t) :
  filter (fun kv => p (fst kv)) (Tally.lift o)
  = Tally.lift (filter (fun kv => p (fst kv)) o).
Proof.
  induction o as [|[k v] o IH]; simpl; [reflexivity|].
  destruct (p k); simpl; now rewrite IH.
Qed.

Lemma entries_lift (o : Tally.t) :
  Counter.Object_entries (Tally.lift o) = Tally.lift (Tally.entries o).
Proof.
  unfold Counter.Object_entries, Tally.entries, Tally.lift at 3.
  rewrite map_app. f_equal.
  - change (@Counter.isIndexKey Counter.Value)
      with (fun kv : string * Counter.Value =>
              (fun k => match Counter.arrayIndex k with
                        | Some _ => true
                        | None => false
                        end) (fst kv)).
    rewrite filter_lift. apply sort_map. intros a b. reflexivity.
  - change (fun kv : string * Counter.Value => negb (Counter.isIndexKey kv))
      with (fun kv : string * Counter.Value =>
              (fun k => negb (match Counter.arrayIndex k with
                              | Some _ => true
                              | None => false
                              end)) (fst kv)).
    apply filter_lift.
Qed.

Lemma topKey_lift (o : Tally.t) : LogBook.topKey (Tally.lift o) = Tally.topKey o.
Proof.
  unfold LogBook.topKey, Tally.topKey. rewrite entries_lift.
  unfold Tally.lift.
  rewrite (sort_map (fun kv : string * Z => (fst kv, Counter.Num (snd kv)))
             (fun a b => snd b - snd a)) by reflexivity.
  destruct (Js.sort _ (Tally.entries o)); reflexivity.
Qed.

Lemma locationCountOf_bumps (logs : list VisitorLogDTO) :
  LogBook.locationCountOf logs = fold_left Counter.bump (locationsOf logs) [].
Proof.
  unfold LogBook.locationCountOf, locationsOf. generalize (@nil (string * Counter.Value)).
  induction logs as [|d logs IH]; intros acc; simpl; [reflexivity | apply IH].
Qed.

Lemma gateCountOf_bumps (logs : list VisitorLogDTO) :
  LogBook.gateCountOf logs = fold_left Counter.bump (gateLocationsOf logs) [].
Proof.
  unfold LogBook.gateCountOf, gateLocationsOf. generalize (@nil (string * Counter.Value)).
  induction logs as [|d logs IH]; intros acc; simpl; [reflexivity|].
  destruct (Js.includes (Js.toLowerCase (Js.orElse (location d) "")) "gate") eqn:Hg.
  - simpl. rewrite IH. f_equal. f_equal.
    destruct (location d) as [[|c r]|]; try reflexivity; discriminate Hg.
  - apply IH.
Qed.

(** No name that contains "gate" is a member of [Object.prototype]. *)
Lemma gate_not_onPrototype (k : string) :
  Js.includes (Js.toLowerCase k) "gate" = true -> Counter.onPrototype k = false.
Proof.
  intros Hg. destruct (Counter.onPrototype k) eqn:Hp; [exfalso | reflexivity].
  unfold Counter.onPrototype, Counter.isPrototypeMethod, Counter.prototypeMethods in Hp.
  cbn [existsb] in Hp.
  repeat (apply orb_true_iff in Hp; destruct Hp as [Hp | Hp]);
    try discriminate Hp;
    apply String.eqb_eq in Hp; subst k; vm_compute in Hg; discriminate Hg.
Qed.

Lemma gateLocationsOf_gate (logs : list VisitorLogDTO) (k : string) :
  In k (gateLocationsOf logs) -> Js.includes (Js.toLowerCase k) "gate" = true.
Proof. unfold gateLocationsOf. rewrite filter_In. tauto. Qed.

Lemma topKey_locationCountOf (logs : list VisitorLogDTO) :
  (forall k, In k (locationsOf logs) -> Counter.onPrototype k = false) ->
  LogBook.topKey (LogBook.locationCountOf logs) = Tally.topKey (tally (locationsOf logs)).
Proof.
  intros H. rewrite locationCountOf_bumps.
  change (@nil (string * Counter.Value)) with (Tally.lift []).
  rewrite fold_bump_lift by exact H. apply topKey_lift.
Qed.

Lemma topKey_gateCountOf (logs : list VisitorLogDTO) :
  LogBook.topKey (LogBook.gateCountOf logs) = Tally.topKey (tally (gateLocationsOf logs)).
Proof.
  rewrite gateCountOf_bumps.
  change (@nil (string * Counter.Value)) with (Tally.lift []).
  rewrite fold_bump_lift; [apply topKey_lift|].
  intros k Hk. apply gate_not_onPrototype. now apply (gateLocationsOf_gate logs).
Qed.

Lemma orElse_Some_nonempty (r : string) : r <> "" -> Js.orElse (Some r) "N/A" = r.
Proof. destruct r; [contradiction | reflexivity]. Qed.

Lemma frequent_top (logs : list VisitorLogDTO) :
  logs <> [] ->
  (forall k, In k (locationsOf logs) -> Counter.onPrototype k = false) ->
  TopBy (KeyBefore (locationsOf logs)) (locationsOf logs)
        (Js.orElse (LogBook.topKey (LogBook.locationCountOf logs)) "N/A").
Proof.
  intros Hne Hp. rewrite topKey_locationCountOf by exact Hp.
  assert (Hl : locationsOf logs <> []).
  { unfold locationsOf. destruct logs; [contradiction | discriminate]. }
  destruct (topKey_tally _ Hl) as [r [Hr Htop]]. rewrite Hr.
  rewrite orElse_Some_nonempty; [exact Htop|].
  destruct Htop as [Hin _]. unfold locationsOf in Hin.
  apply in_map_iff in Hin. destruct Hin as [d [<- _]].
  destruct (location d) as [[|c r']|]; discriminate.
Qed.

Lemma gate_top (logs : list VisitorLogDTO) :
  gateLocationsOf logs <> [] ->
  TopBy (FirstBefore (gateLocationsOf logs)) (gateLocationsOf logs)
        (Js.orElse (LogBook.topKey (LogBook.gateCountOf logs)) "N/A").
Proof.
  intros Hg. rewrite topKey_gateCountOf.
  destruct (topKey_tally _ Hg) as [r [Hr Htop]]. rewrite Hr.
  rewrite orElse_Some_nonempty.
  - apply TopBy_no_index; [|exact Htop].
    intros k Hk. apply gate_name_no_index. now apply (gateLocationsOf_gate logs).
  - destruct Htop as [Hin _]. apply gateLocationsOf_gate in Hin.
    intros ->. discriminate Hin.
Qed.

(** C3 (as amended).  When there are logs: [frequentBuilding] is "N/A" if
    no log is of today.  Otherwise, provided no location of today (unset
    counted as "Unknown") names a member of [Object.prototype]
    ("constructor", "toString", "valueOf", "hasOwnProperty", "__proto__" and
    the like), it is a location of today with the highest count, which among
    the locations with that count comes first in the key order of the
    counter table: array-index names first, by ascending value, then the
    other names as first met; when moreover no location of today is an
    array-index name it is the first met among the most frequent.
    [highestGate] is "N/A" if no location of today contains "gate" in lower
    case, and otherwise the first met among the most frequent of those. *)
Theorem C3_stats_top_locations (st : LogBook.State) (today : string) :
  LogBook.data st <> [] ->
  let locs := locationsOf (LogBook.todayLogsOf st today) in
  let gateLocs := gateLocationsOf (LogBook.todayLogsOf st today) in
  exists s, LogBook.stats st today = Some s /\
    (LogBook.todayLogsOf st today = [] -> LogBook.frequentBuilding s = "N/A") /\
    (LogBook.todayLogsOf st today <> [] ->
     (forall k, In k locs -> Counter.onPrototype k = false) ->
     TopBy (KeyBefore locs) locs (LogBook.frequentBuilding s)) /\
    (LogBook.todayLogsOf st today <> [] ->
     (forall k, In k locs -> Counter.onPrototype k = false) ->
     (forall k, In k locs -> Counter.arrayIndex k = None) ->
     TopBy (FirstBefore locs) locs (LogBook.frequentBuilding s)) /\
    (gateLocs = [] -> LogBook.highestGate s = "N/A") /\
    (gateLocs <> [] -> TopBy (FirstBefore gateLocs) gateLocs (LogBook.highestGate s)).
Proof.
  intros Hne locs gateLocs. unfold LogBook.stats.
  destruct (LogBook.data st) as [|d0 rest] eqn:Hdata; [contradiction|].
  rewrite <- Hdata. eexists. split; [reflexivity|].
  cbn [LogBook.frequentBuilding LogBook.highestGate].
  split; [|split; [|split; [|split]]].
  - intros Ht. rewrite Ht. reflexivity.
  - intros Ht Hp. now apply frequent_top.
  - intros Ht Hp Hno. apply TopBy_no_index; [exact Hno | now apply frequent_top].
  - intros Hg. rewrite topKey_gateCountOf. fold gateLocs. rewrite Hg. reflexivity.
  - intros Hg. now apply gate_top.
Qed.

(** C3, an instance: the worked example of the specification, where
    "Gate 1" is both the busiest location and the busiest gate of the day. *)
Lemma C3_stats_top_locations_witness :
  exists s,
    LogBook.stats (Sample.logBook Sample.exampleLogs [1] [] 0 25) "2024-01-01" = Some s /\
    LogBook.frequentBuilding s = "Gate 1" /\ LogBook.highestGate s = "Gate 1" /\
    TopBy (FirstBefore ["Gate 1"; "Gate 1"]) ["Gate 1"; "Gate 1"]
          (LogBook.frequentBuilding s).
Proof.
  destruct (C3_stats_top_locations (Sample.logBook Sample.exampleLogs [1] [] 0 25)
              "2024-01-01") as [s [Hs [_ [_ [Htop _]]]]].
  - discriminate.
  - exists s. split; [exact Hs|].
    split; [vm_compute in Hs; injection Hs as <-; reflexivity|].
    split; [vm_compute in Hs; injection Hs as <-; reflexivity|].
    apply Htop.
    + discriminate.
    + intros k [<- | [<- | []]]; reflexivity.
    + intros k [<- | [<- | []]]; reflexivity.
Defined.

(** C3 as first stated fails: of the two logs of the day the first is at
    "Lobby" and the second at "5".  Both locations count once and "Lobby" is
    met first, yet [frequentBuilding] is "5", because the counter table lists
    the key "5" before the key "Lobby". *)
Lemma C3_counterexample_numeric_location :
  exists s,
    LogBook.stats (Sample.logBook Sample.roomLogs [] [] 0 25) "2024-01-01" = Some s /\
    locationsOf (LogBook.todayLogsOf (Sample.logBook Sample.roomLogs [] [] 0 25)
                                     "2024-01-01") = ["Lobby"; "5"] /\
    LogBook.frequentBuilding s = "5" /\
    ~ TopBy (FirstBefore ["Lobby"; "5"]) ["Lobby"; "5"] (LogBook.frequentBuilding s).
Proof.
  eexists. split; [reflexivity|]. split; [reflexivity|]. split; [reflexivity|].
  intros [_ Htop]. destruct (Htop "Lobby" (or_introl eq_refl)) as [_ Htie].
  destruct Htie as [pre [post [Heq Hnot]]]; [reflexivity | discriminate |].
  destruct pre as [|k pre].
  - discriminate Heq.
  - injection Heq as <- _. apply Hnot. left. reflexivity.
Qed.


(* ------------------------------------------------------------------ *)
(** * More on strings *)

Lemma append_assoc (a b c : string) : (a ++ b) ++ c = a ++ (b ++ c).
Proof. induction a as [|x a IH]; simpl; [reflexivity | now rewrite IH]. Qed.

Lemma append_empty_r (a : string) : a ++ "" = a.
Proof. induction a as [|x a IH]; simpl; [reflexivity | now rewrite IH]. Qed.

Lemma toLowerCase_app (a b : string) :
  Js.toLowerCase (a ++ b) = Js.toLowerCase a ++ Js.toLowerCase b.
Proof. induction a as [|x a IH]; simpl; [reflexivity | now rewrite IH]. Qed.

Lemma toLowerChar_idem (c : ascii) :
  Js.toLowerChar (Js.toLowerChar c) = Js.toLowerChar c.
Proof. destruct c as [[] [] [] [] [] [] [] []]; reflexivity. Qed.

Lemma toLowerCase_idem (s : string) :
  Js.toLowerCase (Js.toLowerCase s) = Js.toLowerCase s.
Proof.
  induction s as [|c s IH]; simpl; [reflexivity|].
  now rewrite toLowerChar_idem, IH.
Qed.

Lemma Contains_middle (s a b c : string) :
  Contains s (a ++ b ++ c) -> Contains s b.
Proof.
  intros [pre [post ->]]. exists (pre ++ a), (c ++ post).
  now rewrite !append_assoc.
Qed.

Lemma trimStart_head (s : string) :
  Js.trimStart s = "" \/
  exists c r, Js.trimStart s = String c r /\ Js.isWhiteSpace c = false.
Proof.
  induction s as [|c r IH]; simpl; [left; reflexivity|].
  destruct (Js.isWhiteSpace c) eqn:Hc; [exact IH|].
  right. exists c, r. split; [reflexivity | exact Hc].
Qed.

Lemma trimEnd_head (c : ascii) (r : string) :
  Js.isWhiteSpace c = false -> exists r', Js.trimEnd (String c r) = String c r'.
Proof.
  intros Hc. simpl. rewrite Hc. destruct (Js.trimEnd r); eauto.
Qed.

Lemma trimEnd_cons (c : ascii) (r : string) :
  Js.trimEnd (String c r)
  = match Js.trimEnd r with
    | EmptyString => if Js.isWhiteSpace c then EmptyString else String c EmptyString
    | String d t => String c (String d t)
    end.
Proof. reflexivity. Qed.

Lemma trimEnd_idem (s : string) : Js.trimEnd (Js.trimEnd s) = Js.trimEnd s.
Proof.
  induction s as [|c r IH]; [reflexivity|]. rewrite trimEnd_cons.
  destruct (Js.trimEnd r) as [|d t] eqn:Ht.
  - destruct (Js.isWhiteSpace c) eqn:Hc; [reflexivity|].
    rewrite trimEnd_cons. simpl. now rewrite Hc.
  - rewrite trimEnd_cons, IH. reflexivity.
Qed.

(** Trimming a trimmed string changes nothing. *)
Lemma trim_idem (s : string) : Js.trim (Js.trim s) = Js.trim s.
Proof.
  unfold Js.trim. destruct (trimStart_head s) as [-> | [c [r [-> Hc]]]];
    [reflexivity|].
  destruct (trimEnd_head c r Hc) as [r' Hr]. rewrite Hr.
  cbn [Js.trimStart]. rewrite Hc, <- Hr. apply trimEnd_idem.
Qed.

(* ------------------------------------------------------------------ *)
(** * More on the log filter *)

Lemma filter_idem {A : Type} (f : A -> bool) (l : list A) :
  filter f (filter f l) = filter f l.
Proof.
  induction l as [|x l IH]; simpl; [reflexivity|].
  destruct (f x) eqn:Hx; simpl; [now rewrite Hx, IH | exact IH].
Qed.

Lemma filter_andb {A : Type} (f g : A -> bool) (l : list A) :
  filter f (filter g l) = filter (fun x => f x && g x) l.
Proof.
  induction l as [|x l IH]; simpl; [reflexivity|].
  destruct (g x); simpl; [|now rewrite andb_false_r].
  rewrite andb_true_r. destruct (f x); now rewrite IH.
Qed.

Lemma Subseq_filter_imp {A : Type} (f g : A -> bool) (l : list A) :
  (forall x, f x = true -> g x = true) -> Subseq (filter f l) (filter g l).
Proof.
  intros H. induction l as [|x l IH]; simpl; [constructor|].
  destruct (f x) eqn:Hf.
  - rewrite (H x Hf). now constructor.
  - destruct (g x); [now constructor | exact IH].
Qed.

(** Filtering what the filter has kept, under the same criteria, keeps all
    of it. *)
Theorem filteredLogs_idempotent (st : LogBook.State) :
  LogBook.filteredLogs (withData st (LogBook.filteredLogs st))
  = LogBook.filteredLogs st.
Proof.
  unfold LogBook.filteredLogs at 1.
  change (LogBook.data (withData st (LogBook.filteredLogs st)))
    with (LogBook.filteredLogs st).
  change (LogBook.keepLog (withData st (LogBook.filteredLogs st)))
    with (LogBook.keepLog st).
  apply filter_idem.
Qed.

(** With the status on "all", the location on "all" and an empty search the
    filter keeps every log. *)
Theorem filteredLogs_no_criteria (st : LogBook.State) :
  LogBook.statusFilter st = LogBook.status_all ->
  LogBook.locationFilter st = "all" ->
  LogBook.search st = "" ->
  LogBook.filteredLogs st = LogBook.data st.
Proof.
  intros Hs Hl Hq. unfold LogBook.filteredLogs.
  apply forallb_filter_id, forallb_forall. intros e _.
  apply keepLog_spec. unfold StatusPasses, LocationPasses, SearchPasses.
  rewrite Hs, Hl, Hq. split; [exact I|]. split; intros Hc; now contradiction Hc.
Qed.

Lemma filteredLogs_no_criteria_witness :
  LogBook.filteredLogs (Sample.logBook Sample.exampleLogs [1] [] 0 25)
  = Sample.exampleLogs.
Proof.
  apply (filteredLogs_no_criteria (Sample.logBook Sample.exampleLogs [1] [] 0 25));
    reflexivity.
Defined.

Lemma keepLog_status_active (st : LogBook.State) (e : VisitorLogDTO) :
  LogBook.keepLog (LogBook.onStatusFilterChange st LogBook.status_active) e
  = LogBook.isActive st (visitorLogID e)
    && LogBook.keepLog (LogBook.onStatusFilterChange st LogBook.status_all) e.
Proof.
  unfold LogBook.keepLog, LogBook.isActive. cbn [LogBook.statusFilter
    LogBook.activeLogIds LogBook.onStatusFilterChange LogBook.StatusFilter_eqb
    andb].
  destruct (Js.includesZ (LogBook.activeLogIds st) (visitorLogID e)); reflexivity.
Qed.

Lemma keepLog_status_inactive (st : LogBook.State) (e : VisitorLogDTO) :
  LogBook.keepLog (LogBook.onStatusFilterChange st LogBook.status_inactive) e
  = negb (LogBook.isActive st (visitorLogID e))
    && LogBook.keepLog (LogBook.onStatusFilterChange st LogBook.status_all) e.
Proof.
  unfold LogBook.keepLog, LogBook.isActive. cbn [LogBook.statusFilter
    LogBook.activeLogIds LogBook.onStatusFilterChange LogBook.StatusFilter_eqb
    andb].
  destruct (Js.includesZ (LogBook.activeLogIds st) (visitorLogID e)); reflexivity.
Qed.

(** Under the same location and search, the logs shown for "active" and
    those shown for "inactive" have no entry in common and together are the
    logs shown for "all". *)
Theorem status_filters_split (st : LogBook.State) :
  Permutation
    (LogBook.filteredLogs (LogBook.onStatusFilterChange st LogBook.status_active)
     ++ LogBook.filteredLogs (LogBook.onStatusFilterChange st LogBook.status_inactive))
    (LogBook.filteredLogs (LogBook.onStatusFilterChange st LogBook.status_all)) /\
  (forall e,
     In e (LogBook.filteredLogs (LogBook.onStatusFilterChange st LogBook.status_active)) ->
     ~ In e (LogBook.filteredLogs
               (LogBook.onStatusFilterChange st LogBook.status_inactive))).
Proof.
  unfold LogBook.filteredLogs.
  change (LogBook.data (LogBook.onStatusFilterChange st _)) with (LogBook.data st).
  split.
  - rewrite (filter_ext _ _ (keepLog_status_active st)).
    rewrite (filter_ext _ _ (keepLog_status_inactive st)).
    rewrite <- !filter_andb. apply filter_split_perm.
  - intros e Ha Hi. apply filter_In in Ha, Hi.
    destruct Ha as [_ Ha], Hi as [_ Hi].
    rewrite keepLog_status_active in Ha. rewrite keepLog_status_inactive in Hi.
    destruct (LogBook.isActive st (visitorLogID e)); discriminate.
Qed.

(** A search whose lower-cased term contains the lower-cased term of another
    search never shows a log that the other leaves out: typing a longer term
    narrows the list. *)
Theorem search_narrows (st : LogBook.State) (term term' : string) :
  Contains (Js.toLowerCase term') (Js.toLowerCase term) ->
  Subseq (LogBook.filteredLogs (LogBook.onSearchChange st term'))
         (LogBook.filteredLogs (LogBook.onSearchChange st term)).
Proof.
  intros Hsub. unfold LogBook.filteredLogs.
  change (LogBook.data (LogBook.onSearchChange st _)) with (LogBook.data st).
  apply Subseq_filter_imp. intros e H.
  apply keepLog_spec in H. apply keepLog_spec.
  destruct H as [Hs [Hl Hq]]. split; [exact Hs|]. split; [exact Hl|].
  unfold SearchPasses in *. cbn [LogBook.search LogBook.onSearchChange] in *.
  intros Hne.
  destruct Hq as [field [Hin Hc]].
  - intros ->. apply Hne. destruct Hsub as [pre [post Heq]].
    destruct pre; [|discriminate Heq].
    destruct term; [reflexivity | discriminate Heq].
  - exists field. split; [exact Hin|].
    destruct Hsub as [pre [post Heq]]. rewrite Heq in Hc.
    now apply Contains_middle in Hc.
Qed.

Lemma search_narrows_witness :
  Subseq
    (LogBook.filteredLogs
       (LogBook.onSearchChange (Sample.logBook Sample.exampleLogs [1] [] 0 25) "Gate 1"))
    (LogBook.filteredLogs
       (LogBook.onSearchChange (Sample.logBook Sample.exampleLogs [1] [] 0 25) "gate")).
Proof.
  apply (search_narrows (Sample.logBook Sample.exampleLogs [1] [] 0 25)
           "gate" "Gate 1").
  exists "", " 1". reflexivity.
Defined.

(** The search does not see the case of the term: two terms that agree once
    lower-cased, such as a term and its lower-case form, select the same
    logs. *)
Theorem search_ignores_case (st : LogBook.State) (term term' : string) :
  Js.toLowerCase term = Js.toLowerCase term' ->
  LogBook.filteredLogs (LogBook.onSearchChange st term)
  = LogBook.filteredLogs (LogBook.onSearchChange st term').
Proof.
  intros H. unfold LogBook.filteredLogs.
  change (LogBook.data (LogBook.onSearchChange st _)) with (LogBook.data st).
  apply filter_ext. intros e. unfold LogBook.keepLog.
  cbn [LogBook.search LogBook.onSearchChange]. rewrite H. reflexivity.
Qed.

Lemma search_ignores_case_witness :
  LogBook.filteredLogs
    (LogBook.onSearchChange (Sample.logBook Sample.exampleLogs [1] [] 0 25) "GATE")
  = LogBook.filteredLogs
      (LogBook.onSearchChange (Sample.logBook Sample.exampleLogs [1] [] 0 25) "gate").
Proof.
  apply (search_ignores_case (Sample.logBook Sample.exampleLogs [1] [] 0 25)
           "GATE" "gate").
  reflexivity.
Defined.

(* ------------------------------------------------------------------ *)
(** * More on pagination *)

Lemma filteredLogs_passes (st : LogBook.State) (e : VisitorLogDTO) :
  In e (LogBook.filteredLogs st) ->
  In e (LogBook.data st) /\
  StatusPasses st e /\ LocationPasses st e /\ SearchPasses st e.
Proof.
  unfold LogBook.filteredLogs. rewrite filter_In, keepLog_spec. tauto.
Qed.


Lemma currentPage_range (st : LogBook.State) :
  0 < LogBook.pageSize st -> 0 <= LogBook.page st ->
  0 <= LogBook.currentPage st * LogBook.pageSize st <= LogBook.totalElements st /\
  (LogBook.totalElements st <> 0 ->
   LogBook.currentPage st * LogBook.pageSize st < LogBook.totalElements st).
Proof.
  intros Hs Hp. rewrite (currentPage_clamped st Hs Hp).
  pose proof (totalPages_bounds st Hs) as Hb.
  pose proof (totalElements_nonneg st) as Hn.
  assert (Htp : 0 <= LogBook.totalPages st) by nia.
  split; [nia|]. intros Hne. nia.
Qed.

(** The page shown is a run of consecutive filtered logs that starts at
    [currentPage * pageSize]; it holds [pageSize] logs or, on the last page,
    the ones that are left; and it is never empty when the filter has kept
    something, also under a page index past the end. *)
Theorem pagedLogs_shape (st : LogBook.State) :
  0 < LogBook.pageSize st -> 0 <= LogBook.page st ->
  (exists pre post,
     LogBook.filteredLogs st = (pre ++ LogBook.pagedLogs st ++ post)%list /\
     Z.of_nat (List.length pre) = LogBook.currentPage st * LogBook.pageSize st) /\
  Z.of_nat (List.length (LogBook.pagedLogs st))
  = Z.min (LogBook.pageSize st)
          (LogBook.totalElements st - LogBook.currentPage st * LogBook.pageSize st) /\
  (LogBook.filteredLogs st <> [] -> LogBook.pagedLogs st <> []).
Proof.
  intros Hs Hp. destruct (currentPage_range st Hs Hp) as [Hr Hlt].
  rewrite (pagedLogs_window st Hs Hp).
  set (k := Z.to_nat (LogBook.currentPage st * LogBook.pageSize st)) in *.
  set (l := LogBook.filteredLogs st) in *.
  assert (Hlen : LogBook.totalElements st = Z.of_nat (List.length l)) by reflexivity.
  assert (Hcount :
    Z.of_nat (List.length (firstn (Z.to_nat (LogBook.pageSize st)) (skipn k l)))
    = Z.min (LogBook.pageSize st)
            (LogBook.totalElements st - LogBook.currentPage st * LogBook.pageSize st)).
  { rewrite length_firstn, length_skipn. unfold k. lia. }
  split; [|split; [exact Hcount|]].
  - exists (firstn k l), (skipn (Z.to_nat (LogBook.pageSize st)) (skipn k l)).
    split.
    + now rewrite !firstn_skipn.
    + rewrite length_firstn. unfold k. lia.
  - intros Hne Hnil. rewrite Hnil in Hcount. simpl in Hcount.
    assert (Hn0 : LogBook.totalElements st <> 0).
    { rewrite Hlen. destruct l; [contradiction | simpl; lia]. }
    specialize (Hlt Hn0). lia.
Qed.

Lemma pagedLogs_shape_witness :
  LogBook.pagedLogs (Sample.logBook Sample.exampleLogs [] [] 5 2) <> [].
Proof.
  refine (proj2 (proj2
    (pagedLogs_shape (Sample.logBook Sample.exampleLogs [] [] 5 2) _ _)) _).
  - reflexivity.
  - discriminate.
  - discriminate.
Defined.

Lemma first_page (st : LogBook.State) :
  LogBook.page st = 0 -> 0 < LogBook.pageSize st -> FirstPage st.
Proof.
  intros H0 Hs.
  assert (Hp : 0 <= LogBook.page st) by lia.
  assert (Hc : LogBook.currentPage st = 0).
  { rewrite (currentPage_clamped st Hs Hp), H0.
    pose proof (totalPages_bounds st Hs). pose proof (totalElements_nonneg st).
    assert (0 <= LogBook.totalPages st) by nia. lia. }
  split; [exact Hc|]. rewrite (pagedLogs_window st Hs Hp), Hc. reflexivity.
Qed.

(** After a change of the status, of the location, of the search term or of
    the page size, the table shows the first [pageSize] logs of the new
    filtered list, whatever page was shown before. *)
Theorem filter_change_shows_first_page (st : LogBook.State)
    (status : LogBook.StatusFilter) (loc term : string) (newSize : Z) :
  (0 < LogBook.pageSize st ->
   FirstPage (LogBook.onStatusFilterChange st status) /\
   FirstPage (LogBook.onLocationFilterChange st loc) /\
   FirstPage (LogBook.onSearchChange st term)) /\
  (0 < newSize -> FirstPage (LogBook.onPageSizeChange st newSize)).
Proof.
  split; [intros Hs; repeat split | intros Hs]; now apply first_page.
Qed.

Lemma filter_change_shows_first_page_witness :
  FirstPage (LogBook.onSearchChange
               (Sample.logBook Sample.exampleLogs [] [] 5 2) "a").
Proof.
  refine (proj2 (proj2 (proj1
    (filter_change_shows_first_page (Sample.logBook Sample.exampleLogs [] [] 5 2)
       LogBook.status_all "all" "a" 2) _))).
  reflexivity.
Defined.

Lemma slice_In {A : Type} (l : list A) (b e : Z) (x : A) :
  In x (Js.slice l b e) -> In x l.
Proof.
  unfold Js.slice. intros H.
  set (k := Z.to_nat (Js.sliceBound (Z.of_nat (List.length l)) b)) in *.
  rewrite <- (firstn_skipn k l). apply in_or_app. right.
  set (r := skipn k l) in *.
  set (n := Z.to_nat _) in H.
  rewrite <- (firstn_skipn n r). apply in_or_app. left. exact H.
Qed.

(** Every row of the table is a filtered log, and its status cell agrees
    with the status filter: all rows read "Active" under "active" and
    "Inactive" under "inactive". *)
Theorem rows_agree_with_status_filter (st : LogBook.State) (row : VisitorLogDTO) :
  In row (LogBook.pagedLogs st) ->
  In row (LogBook.filteredLogs st) /\
  (LogBook.statusFilter st = LogBook.status_active ->
   LogBook.rowStatus st row = "Active") /\
  (LogBook.statusFilter st = LogBook.status_inactive ->
   LogBook.rowStatus st row = "Inactive").
Proof.
  intros Hrow. apply slice_In in Hrow. split; [exact Hrow|].
  apply filteredLogs_passes in Hrow.
  destruct Hrow as [_ [Hs _]]. unfold StatusPasses in Hs.
  unfold LogBook.rowStatus, LogBook.isActive. split; intros Hf; rewrite Hf in Hs.
  - apply includesZ_In in Hs. now rewrite Hs.
  - apply includesZ_false in Hs. now rewrite Hs.
Qed.

Lemma rows_agree_with_status_filter_witness :
  LogBook.rowStatus
    (LogBook.onStatusFilterChange (Sample.logBook Sample.exampleLogs [1] [] 0 25)
                                  LogBook.status_active)
    (Sample.log 1 (Some "A") (Some "Gate 1") (Some "2024-01-01"))
  = "Active".
Proof.
  refine (proj1 (proj2
    (rows_agree_with_status_filter
       (LogBook.onStatusFilterChange (Sample.logBook Sample.exampleLogs [1] [] 0 25)
                                     LogBook.status_active)
       (Sample.log 1 (Some "A") (Some "Gate 1") (Some "2024-01-01")) _)) _).
  - left. reflexivity.
  - reflexivity.
Defined.

(* ------------------------------------------------------------------ *)
(** * More on the statistics *)

Lemma Set_of_length_le {A : Type} (eqbA : A -> A -> bool)
    (eqbA_spec : forall x y, eqbA x y = true <-> x = y) (l l' : list A) :
  incl l l' ->
  (List.length (Js.Set_of eqbA l) <= List.length (Js.Set_of eqbA l'))%nat /\
  (List.length (Js.Set_of eqbA l) <= List.length l)%nat /\
  (l <> [] -> 1 <= List.length (Js.Set_of eqbA l))%nat.
Proof.
  intros Hincl. split; [|split].
  - apply NoDup_incl_length; [apply (Set_of_NoDup _ eqbA_spec)|].
    intros x Hx. apply (Set_of_In _ eqbA_spec). apply Hincl.
    exact (proj1 (Set_of_In _ eqbA_spec l x) Hx).
  - apply NoDup_incl_length; [apply (Set_of_NoDup _ eqbA_spec)|].
    intros x Hx. exact (proj1 (Set_of_In _ eqbA_spec l x) Hx).
  - intros Hne. destruct l as [|x l]; [contradiction|].
    assert (Hx : In x (Js.Set_of eqbA (x :: l))).
    { apply (Set_of_In _ eqbA_spec). now left. }
    destruct (Js.Set_of eqbA (x :: l)); [destruct Hx | simpl; lia].
Qed.

(** The counts of the statistics are ordered: the active visitors and the
    distinct names of today are at most the logs of today, the distinct
    names of today are at most those of all the logs, which are what both
    "this week" and "this month" show and are at least one. *)
Theorem stats_counts_ordered (st : LogBook.State) (today : string) :
  LogBook.data st <> [] ->
  let logsToday := Z.of_nat (List.length (LogBook.todayLogsOf st today)) in
  exists s, LogBook.stats st today = Some s /\
    0 <= LogBook.active s <= logsToday /\
    LogBook.uniqueToday s <= logsToday /\
    (LogBook.todayLogsOf st today <> [] -> 1 <= LogBook.uniqueToday s) /\
    LogBook.uniqueToday s <= LogBook.uniqueWeek s /\
    LogBook.uniqueWeek s = LogBook.uniqueMonth s /\
    1 <= LogBook.uniqueWeek s <= Z.of_nat (List.length (LogBook.data st)).
Proof.
  intros Hne logsToday. unfold LogBook.stats.
  destruct (LogBook.data st) as [|d0 rest] eqn:Hdata; [contradiction|].
  rewrite <- Hdata. eexists. split; [reflexivity|].
  cbn [LogBook.active LogBook.uniqueToday LogBook.uniqueWeek LogBook.uniqueMonth].
  assert (Hincl : incl (map fullName (LogBook.todayLogsOf st today))
                       (map fullName (LogBook.data st))).
  { apply incl_map. unfold LogBook.todayLogsOf. apply incl_filter. }
  destruct (Set_of_length_le _ option_eqb_eq _ _ Hincl) as [H1 [H2 H3]].
  destruct (Set_of_length_le _ option_eqb_eq _ _
              (incl_refl (map fullName (LogBook.data st)))) as [_ [H4 H5]].
  rewrite length_map in H2, H4.
  pose proof (filter_length_le
                (fun d => Js.includesZ (LogBook.activeLogIds st) (visitorLogID d))
                (LogBook.todayLogsOf st today)) as H6.
  unfold logsToday. repeat split; try lia.
  - intros Ht. assert (map fullName (LogBook.todayLogsOf st today) <> []).
    { destruct (LogBook.todayLogsOf st today); [contradiction | discriminate]. }
    specialize (H3 H). lia.
  - assert (map fullName (LogBook.data st) <> []) by (rewrite Hdata; discriminate).
    specialize (H5 H). lia.
Qed.

Lemma stats_counts_ordered_witness :
  exists s,
    LogBook.stats (Sample.logBook Sample.exampleLogs [1] [] 0 25) "2024-01-01" = Some s /\
    LogBook.uniqueToday s <= LogBook.uniqueWeek s.
Proof.
  destruct (stats_counts_ordered (Sample.logBook Sample.exampleLogs [1] [] 0 25)
              "2024-01-01") as [s [Hs [_ [_ [_ [Hle _]]]]]].
  - discriminate.
  - exists s. split; [exact Hs | exact Hle].
Defined.

Lemma gateLocationsOf_cons (d : VisitorLogDTO) (logs : list VisitorLogDTO) :
  gateLocationsOf (d :: logs)
  = if Js.includes (Js.toLowerCase (Js.orElse (location d) "")) "gate"
    then Js.orElse (location d) "" :: gateLocationsOf logs
    else gateLocationsOf logs.
Proof. reflexivity. Qed.

Lemma gate_location_known (d : VisitorLogDTO) :
  Js.includes (Js.toLowerCase (Js.orElse (location d) "")) "gate" = true ->
  Js.orElse (location d) "Unknown" = Js.orElse (location d) "".
Proof. destruct (location d) as [[|c r]|]; try reflexivity; discriminate. Qed.

Lemma other_location_not_gate (d : VisitorLogDTO) (k : string) :
  Js.includes (Js.toLowerCase (Js.orElse (location d) "")) "gate" = false ->
  Js.includes (Js.toLowerCase k) "gate" = true ->
  Js.orElse (location d) "Unknown" <> k.
Proof.
  intros Hd Hk <-. destruct (location d) as [[|c r]|]; simpl in *;
    try discriminate Hk; congruence.
Qed.

(** A location that contains "gate" is counted as often among the gates as
    among all the locations. *)
Lemma occurrences_gate (logs : list VisitorLogDTO) (k : string) :
  Js.includes (Js.toLowerCase k) "gate" = true ->
  occurrences (gateLocationsOf logs) k = occurrences (locationsOf logs) k.
Proof.
  intros Hk. unfold occurrences. f_equal.
  induction logs as [|d logs IH]; [reflexivity|].
  rewrite gateLocationsOf_cons. unfold locationsOf. cbn [map].
  fold (locationsOf logs).
  destruct (Js.includes (Js.toLowerCase (Js.orElse (location d) "")) "gate") eqn:Hd.
  - rewrite (gate_location_known d Hd). simpl. now rewrite IH.
  - rewrite count_occ_cons_neq; [exact IH|].
    now apply other_location_not_gate.
Qed.

Lemma FirstBefore_cons {A : Type} (x : A) (l : list A) (a b : A) :
  FirstBefore (x :: l) a b <-> x = a \/ (x <> b /\ FirstBefore l a b).
Proof.
  split.
  - intros [pre [post [Heq Hb]]]. destruct pre as [|y pre]; simpl in Heq.
    + left. now injection Heq.
    + injection Heq as <- ->. right. split.
      * intros ->. apply Hb. now left.
      * exists pre, post. split; [reflexivity|]. intros H. apply Hb. now right.
  - intros [<- | [Hx [pre [post [-> Hb]]]]].
    + exists [], l. split; [reflexivity | intros []].
    + exists (x :: pre), post. split; [reflexivity|].
      intros [H | H]; [contradiction | now apply Hb].
Qed.

Lemma FirstBefore_antisym {A : Type} (l : list A) (a b : A) :
  FirstBefore l a b -> FirstBefore l b a -> a = b.
Proof.
  induction l as [|x l IH]; intros Hab Hba.
  - destruct Hab as [pre [post [Heq _]]]. destruct pre; discriminate.
  - apply FirstBefore_cons in Hab, Hba.
    destruct Hab as [<- | [Hxb Hab]], Hba as [Hx | [Hxa Hba]]; try congruence.
    now apply IH.
Qed.

Lemma FirstBefore_gate (logs : list VisitorLogDTO) (a b : string) :
  Js.includes (Js.toLowerCase a) "gate" = true ->
  FirstBefore (locationsOf logs) a b ->
  FirstBefore (gateLocationsOf logs) a b.
Proof.
  intros Ha. induction logs as [|d logs IH]; intros H.
  - destruct H as [pre [post [Heq _]]]. destruct pre; discriminate.
  - unfold locationsOf in H. cbn [map] in H. fold (locationsOf logs) in H.
    apply FirstBefore_cons in H. rewrite gateLocationsOf_cons.
    destruct (Js.includes (Js.toLowerCase (Js.orElse (location d) "")) "gate") eqn:Hd.
    + rewrite <- (gate_location_known d Hd). apply FirstBefore_cons.
      destruct H as [H | [Hne H]]; [now left | right; split; auto].
    + destruct H as [H | [Hne H]]; [|auto].
      exfalso. now apply (other_location_not_gate d a Hd Ha).
Qed.

Lemma TopBy_FirstBefore_unique (l : list string) (r r' : string) :
  TopBy (FirstBefore l) l r -> TopBy (FirstBefore l) l r' -> r = r'.
Proof.
  intros [Hr Htop] [Hr' Htop'].
  destruct (Htop r' Hr') as [Hle Htie], (Htop' r Hr) as [Hle' Htie'].
  destruct (string_dec r r') as [He | Hne]; [exact He|].
  apply (FirstBefore_antisym l); [apply Htie | apply Htie']; congruence || lia.
Qed.

(** Provided no location of today names a member of [Object.prototype]:
    the busiest gate is a location of today and is never counted more often
    than the busiest location; and when the busiest location itself contains
    "gate", the two lines of the statistics name the same place. *)
Theorem busiest_gate_and_location (st : LogBook.State) (today : string) :
  LogBook.data st <> [] ->
  (forall k, In k (locationsOf (LogBook.todayLogsOf st today)) ->
             Counter.onPrototype k = false) ->
  let locs := locationsOf (LogBook.todayLogsOf st today) in
  exists s, LogBook.stats st today = Some s /\
    (gateLocationsOf (LogBook.todayLogsOf st today) <> [] ->
     In (LogBook.highestGate s) locs /\
     occurrences locs (LogBook.highestGate s)
     <= occurrences locs (LogBook.frequentBuilding s)) /\
    (Contains (Js.toLowerCase (LogBook.frequentBuilding s)) "gate" ->
     LogBook.highestGate s = LogBook.frequentBuilding s).
Proof.
  intros Hne Hproto locs. unfold LogBook.stats.
  destruct (LogBook.data st) as [|d0 rest] eqn:Hdata; [contradiction|].
  rewrite <- Hdata. eexists. split; [reflexivity|].
  cbn [LogBook.frequentBuilding LogBook.highestGate].
  set (logs := LogBook.todayLogsOf st today) in *.
  set (fb := Js.orElse (LogBook.topKey (LogBook.locationCountOf logs)) "N/A").
  set (hg := Js.orElse (LogBook.topKey (LogBook.gateCountOf logs)) "N/A").
  assert (Hin : forall k, Js.includes (Js.toLowerCase k) "gate" = true ->
            (In k (gateLocationsOf logs) <-> In k locs)).
  { intros k Hk. rewrite !(count_occ_In string_dec).
    pose proof (occurrences_gate logs k Hk) as Ho. unfold occurrences in Ho.
    unfold locs. lia. }
  split.
  - intros Hg. pose proof (gate_top logs Hg) as [Hh Htop]. fold hg in Hh, Htop.
    pose proof (gateLocationsOf_gate logs hg Hh) as Hgate.
    assert (Hl : logs <> []).
    { intros H. rewrite H in Hg. now apply Hg. }
    pose proof (frequent_top logs Hl Hproto) as [_ Hmax]. fold fb locs in Hmax.
    apply (Hin hg Hgate) in Hh. split; [exact Hh|]. now apply Hmax.
  - intros Hc. apply includes_spec in Hc.
    assert (Hl : logs <> []).
    { intros H. unfold fb in Hc. rewrite H in Hc. discriminate Hc. }
    pose proof (frequent_top logs Hl Hproto) as [Hf Hmax]. fold fb locs in Hf, Hmax.
    assert (Hfg : In fb (gateLocationsOf logs)) by now apply Hin.
    assert (Hg : gateLocationsOf logs <> []).
    { intros H. rewrite H in Hfg. destruct Hfg. }
    apply (TopBy_FirstBefore_unique (gateLocationsOf logs)); [now apply gate_top|].
    split; [exact Hfg|]. intros k Hk.
    pose proof (gateLocationsOf_gate logs k Hk) as Hkg.
    rewrite !occurrences_gate by assumption. fold locs.
    apply (Hin k Hkg) in Hk. destruct (Hmax k Hk) as [Hle Htie].
    split; [exact Hle|]. intros He Hkf. specialize (Htie He Hkf).
    unfold KeyBefore in Htie.
    rewrite (gate_name_no_index fb Hc), (gate_name_no_index k Hkg) in Htie.
    now apply FirstBefore_gate.
Qed.

Lemma busiest_gate_and_location_witness :
  exists s,
    LogBook.stats (Sample.logBook Sample.exampleLogs [1] [] 0 25) "2024-01-01" = Some s /\
    LogBook.highestGate s = LogBook.frequentBuilding s.
Proof.
  destruct (busiest_gate_and_location (Sample.logBook Sample.exampleLogs [1] [] 0 25)
              "2024-01-01") as [s [Hs [_ Heq]]].
  - discriminate.
  - intros k [<- | [<- | []]]; reflexivity.
  - exists s. split; [exact Hs|]. apply Heq.
    vm_compute in Hs. injection Hs as <-. exists "", " 1". reflexivity.
Defined.

(** Where a location of today names a member of [Object.prototype] the
    counts are not all numbers.  After one log at "constructor" and two at
    "Lobby" the table holds a text under "constructor", no comparison with
    which moves an entry, and [frequentBuilding] is "constructor"; a log at
    "__proto__" leaves the table empty, and [frequentBuilding] is "N/A". *)
Example stats_inherited_location_names :
  option_map LogBook.frequentBuilding
    (LogBook.stats (Sample.logBook Sample.inheritedNameLogs [] [] 0 25) "2024-01-01")
  = Some "constructor" /\
  LogBook.locationCountOf Sample.inheritedNameLogs
  = [("constructor", Counter.Text); ("Lobby", Counter.Num 2)] /\
  option_map LogBook.frequentBuilding
    (LogBook.stats (Sample.logBook Sample.protoLogs [] [] 0 25) "2024-01-01")
  = Some "N/A" /\
  LogBook.locationCountOf Sample.protoLogs = [].
Proof. repeat split. Qed.

(* ------------------------------------------------------------------ *)
(** * More on the icon of a log row *)

(** A row has no icon exactly when its location is missing or blank. *)
Theorem locationIcon_none_iff_blank (st : LogBook.State) (row : VisitorLogDTO) :
  LogBook.locationIcon st row = None <->
  Js.trim (Js.orElse (location row) "") = "".
Proof.
  unfold LogBook.locationIcon.
  destruct (Js.truthy (Js.trim (Js.orElse (location row) ""))) eqn:Ht.
  - apply truthy_iff in Ht. split; [|contradiction].
    destruct (find _ (LogBook.stations st)) as [m|]; cbn [negb andb orb].
    + rewrite orb_false_r, orb_true_r.
      destruct (_ =? "gate")%string; discriminate.
    + rewrite !orb_false_r.
      destruct (_ =? "gate")%string; cbn [orb]; [discriminate|].
      destruct (Js.includes _ "gate"); [discriminate|].
      destruct (_ =? "building")%string; discriminate.
  - apply truthy_false_iff in Ht. tauto.
Qed.

(** The icon of a row with a location: when a station matches and has a
    recognised type, and when no station matches, it is the icon of the
    classifier's category (of the station, or of the bare location name);
    when the matched station has no recognised type it is the building
    icon. *)
Theorem locationIcon_cases (st : LogBook.State) (row : VisitorLogDTO) :
  let locationName := Js.trim (Js.orElse (location row) "") in
  locationName <> "" ->
  (forall m, matchedStation st locationName = Some m ->
     (typedAs m gate \/ typedAs m building ->
      LogBook.locationIcon st row = Some (iconOf (classify m))) /\
     (~ typedAs m gate -> ~ typedAs m building ->
      LogBook.locationIcon st row = Some farBuilding)) /\
  (matchedStation st locationName = None ->
   LogBook.locationIcon st row = Some (iconOf (classify (namedOnly locationName)))).
Proof.
  intros locationName Hne. unfold matchedStation. split.
  - intros m Hm. split.
    + intros Hty. unfold LogBook.locationIcon. fold locationName.
      apply truthy_iff in Hne. rewrite Hne, Hm. unfold classify, typedAs in *.
      simpl kindString in Hty. destruct Hty as [-> | ->]; reflexivity.
    + intros Hg _. now apply (locationIcon_matched st row m).
  - intros Hm. unfold LogBook.locationIcon. fold locationName.
    apply truthy_iff in Hne. rewrite (proj2 (truthy_iff _) (proj1 (truthy_iff _) Hne)), Hm.
    unfold classify, namedOnly. cbn [stationType name Js.orElse Js.toLowerCase].
    apply truthy_iff in Hne. destruct locationName as [|c r] eqn:Hl; [contradiction|].
    cbn [Js.truthy]. change (String.eqb "" "gate") with false.
    change (String.eqb "" "building") with false. cbn [negb andb orb].
    destruct (Js.includes _ "gate"); reflexivity.
Qed.

Lemma locationIcon_cases_witness :
  LogBook.locationIcon (Sample.logBook [] [] [] 0 25) Sample.westGateRow
  = Some (iconOf (classify (namedOnly "West Gate"))).
Proof.
  refine (proj2 (locationIcon_cases (Sample.logBook [] [] [] 0 25)
                   Sample.westGateRow _) _).
  - discriminate.
  - reflexivity.
Defined.

(* ------------------------------------------------------------------ *)
(** * The location filter and its options *)

Lemma locationOptions_In (st : LogBook.State) (n : string) :
  In n (LogBook.locationOptions st) -> In n (LogBook.locationNames st).
Proof.
  unfold LogBook.locationOptions.
  destruct (LogBook.stations st) eqn:Hs; [intros []|].
  unfold LocationSort.sortGateAware. rewrite sort_In, (Set_of_In _ String.eqb_eq).
  intros H. exact H.
Qed.

(** Every option of the location filter is a trimmed, non-blank name; once
    one is chosen (other than a station called "all"), a log passes the
    location test exactly when its location, trimmed, equals the option up
    to case. *)
Theorem location_option_selects (st : LogBook.State) (n : string)
    (e : VisitorLogDTO) :
  In n (LogBook.locationOptions st) ->
  Js.trim n = n /\ n <> "" /\
  (n <> "all" ->
   (LocationPasses (LogBook.onLocationFilterChange st n) e <->
    Js.toLowerCase (Js.trim (Js.orElse (location e) "")) = Js.toLowerCase n)).
Proof.
  intros Hin. apply locationOptions_In, locationNames_In in Hin.
  destruct Hin as [[s [_ Hn]] [Hne _]].
  assert (Htrim : Js.trim n = n) by (rewrite Hn; apply trim_idem).
  split; [exact Htrim|]. split; [exact Hne|]. intros Hall.
  unfold LocationPasses. cbn [LogBook.locationFilter LogBook.onLocationFilterChange].
  rewrite Htrim. split.
  - intros H. now destruct (H Hall).
  - intros H _. split; [|exact H]. rewrite H.
    destruct n; [contradiction | discriminate].
Qed.

Lemma location_option_selects_witness :
  LocationPasses
    (LogBook.onLocationFilterChange
       (Sample.logBook [] [] Sample.gateStations 0 25) "Gate 2")
    (Sample.log 9 None (Some " gate 2 ") None).
Proof.
  refine (proj2 (proj2 (proj2
    (location_option_selects (Sample.logBook [] [] Sample.gateStations 0 25)
       "Gate 2" (Sample.log 9 None (Some " gate 2 ") None) _)) _) _).
  - left. reflexivity.
  - discriminate.
  - reflexivity.
Defined.

(* ------------------------------------------------------------------ *)
(** * More on the icons and the loading of the Stations page *)

(** The station list shows the gate icon exactly for a station typed "gate"
    and for a station without a stored type whose name contains "gate"; it
    departs from the classifier exactly for a station with an unknown stored
    type whose name contains "gate", which the Gates tab lists under a
    building icon. *)
Theorem stationIcon_cases (s : Station) :
  (Stations.stationIcon s = faDungeon <->
   typedAs s gate \/
   (Js.orElse (stationType s) "" = "" /\
    Contains (Js.toLowerCase (Js.orElse (name s) "")) "gate")) /\
  (Stations.stationIcon s <> iconOf (classify s) <->
   UnknownType s /\ Contains (Js.toLowerCase (Js.orElse (name s) "")) "gate").
Proof.
  unfold Stations.stationIcon, classify, UnknownType, typedAs.
  rewrite truthy_toLowerCase. simpl kindString.
  set (t := Js.orElse (stationType s) "").
  set (n := Js.toLowerCase (Js.orElse (name s) "")).
  assert (Ht : Js.truthy t = true <-> t <> "") by apply truthy_iff.
  assert (Hlow : Js.toLowerCase t = "gate" -> t <> "").
  { intros H ->. discriminate H. }
  assert (Hlow' : Js.toLowerCase t = "building" -> t <> "").
  { intros H ->. discriminate H. }
  destruct (String.eqb_spec (Js.toLowerCase t) "gate") as [Hg | Hg];
    destruct (String.eqb_spec (Js.toLowerCase t) "building") as [Hb | Hb];
    (destruct (Js.truthy t) eqn:Htt;
     [apply (proj1 (truthy_iff _)) in Htt
     | apply (proj1 (truthy_false_iff _)) in Htt]);
    (destruct (Js.includes n "gate") eqn:Hi;
     [apply (proj1 (includes_spec _ _)) in Hi
     | apply (proj1 (includes_false_iff _ _)) in Hi]);
    cbn [negb andb orb iconOf]; split; split;
    try congruence; try tauto; try (intros; exfalso; tauto);
    try (intros; intuition congruence).
Qed.

Lemma normalizeStation_matchesTab (st : Stations.State) (s : Station) :
  Stations.matchesTab st (Stations.normalizeStation s) = Stations.matchesTab st s.
Proof.
  unfold Stations.matchesTab, Stations.normalizeStation. simpl.
  destruct (active s) as [[|]|]; reflexivity.
Qed.

(** Loading the stations fills in the missing [active] flags and leaves
    the classification, the icon and the listing of every station as they
    were: the loaded list shows the stations that the raw list would show.
    A failed load keeps the stations held before and reports one message. *)
Theorem load_keeps_listing (sc : Stations.Screen) (stationsData : list Station)
    (usersData : list UserAccount) (message : option string) :
  let loaded := Stations.fetchStationsAndGuards sc
                  (Stations.Resolved (stationsData, usersData)) in
  let failed := Stations.fetchStationsAndGuards sc (Stations.Rejected message) in
  (forall s, In s (Stations.stations (Stations.cells loaded)) ->
     active s <> None /\
     exists raw, In raw stationsData /\ s = Stations.normalizeStation raw /\
       classify s = classify raw /\
       Stations.stationIcon s = Stations.stationIcon raw /\
       Stations.isActive s = Stations.isActive raw) /\
  Stations.filteredStations (Stations.cells loaded)
  = map Stations.normalizeStation
        (Stations.filteredStations (Stations.setStations (Stations.cells sc) stationsData)) /\
  Stations.error (Stations.cells loaded) = None /\
  Stations.stations (Stations.cells failed) = Stations.stations (Stations.cells sc) /\
  Stations.allGuards failed = Stations.allGuards sc /\
  Stations.error (Stations.cells failed)
  = Some (Js.orElse message "Failed to load stations or guards").
Proof.
  intros loaded failed. split; [|split; [|repeat split]].
  - intros s Hs. simpl in Hs. apply in_map_iff in Hs. destruct Hs as [raw [<- Hraw]].
    split; [discriminate|]. exists raw. split; [exact Hraw|]. split; [reflexivity|].
    split; [reflexivity|]. split; [reflexivity|].
    unfold Stations.isActive, Stations.normalizeStation. simpl.
    destruct (active raw) as [[|]|]; reflexivity.
  - unfold Stations.filteredStations. simpl Stations.stations.
    rewrite filter_map_swap. f_equal. apply filter_ext. intros s.
    apply (normalizeStation_matchesTab (Stations.cells sc) s).
Qed.

(* ------------------------------------------------------------------ *)
(** * The guard accounts *)

Lemma toLowerCase_empty_inv (s : string) : Js.toLowerCase s = "" -> s = "".
Proof. destruct s; [reflexivity | discriminate]. Qed.

Lemma toUpperChar_shape (c : ascii) (u : string) :
  Js.toUpperChar c = Some u -> (exists y, u = String y "") \/ u = "SS".
Proof.
  unfold Js.toUpperChar.
  destruct (_ || _)%bool; [intros H; injection H as <-; eauto|].
  destruct (_ =? 223)%N; [intros H; injection H as <-; auto|].
  destruct (_ || _)%bool; [discriminate|]. intros H; injection H as <-; eauto.
Qed.

Lemma toUpperChar_letter (c : ascii) :
  (Js.toUpperChar c = Some "G" <-> Js.toLowerChar c = "g"%char) /\
  (Js.toUpperChar c = Some "U" <-> Js.toLowerChar c = "u"%char) /\
  (Js.toUpperChar c = Some "A" <-> Js.toLowerChar c = "a"%char) /\
  (Js.toUpperChar c = Some "R" <-> Js.toLowerChar c = "r"%char) /\
  (Js.toUpperChar c = Some "D" <-> Js.toLowerChar c = "d"%char).
Proof.
  destruct c as [[] [] [] [] [] [] [] []]; vm_compute;
    repeat split; intros H; try reflexivity; discriminate H.
Qed.

Lemma toUpperCase_empty (r : string) : Js.toUpperCase r = Some "" <-> r = "".
Proof.
  split; [|intros ->; reflexivity]. destruct r as [|c r]; [reflexivity|].
  simpl. destruct (Js.toUpperChar c) as [u|] eqn:Hu; [|discriminate].
  destruct (Js.toUpperCase r) as [v|]; [|discriminate].
  destruct (toUpperChar_shape c u Hu) as [[y ->] | ->]; discriminate.
Qed.

Lemma toUpperCase_peel (c : ascii) (r : string) (X : ascii) (T : string) :
  X <> "S"%char ->
  (Js.toUpperCase (String c r) = Some (String X T) <->
   Js.toUpperChar c = Some (String X "") /\ Js.toUpperCase r = Some T).
Proof.
  intros HX. simpl. split.
  - destruct (Js.toUpperChar c) as [u|] eqn:Hu; [|discriminate].
    destruct (Js.toUpperCase r) as [v|]; [|discriminate].
    destruct (toUpperChar_shape c u Hu) as [[y ->] | ->]; simpl; intros H.
    + injection H as -> ->. split; reflexivity.
    + injection H as H _. congruence.
  - intros [-> ->]. reflexivity.
Qed.

(** Upper-cased, a string is "GUARD" exactly when, lower-cased, it is
    "guard". *)
Lemma toUpperCaseIs_GUARD (s : string) :
  Js.toUpperCaseIs s "GUARD" = true <-> Js.toLowerCase s = "guard".
Proof.
  unfold Js.toUpperCaseIs.
  assert (Hiff : Js.toUpperCase s = Some "GUARD" <-> Js.toLowerCase s = "guard").
  { destruct s as [|c1 [|c2 [|c3 [|c4 [|c5 r]]]]];
      try (split; [vm_compute; discriminate | discriminate]).
    - split; [|discriminate]. rewrite toUpperCase_peel by discriminate.
      intros [_ H]. discriminate H.
    - split; [|discriminate]. rewrite !toUpperCase_peel by discriminate.
      intros [_ [_ H]]. discriminate H.
    - split; [|discriminate]. rewrite !toUpperCase_peel by discriminate.
      intros [_ [_ [_ H]]]. discriminate H.
    - split; [|discriminate]. rewrite !toUpperCase_peel by discriminate.
      intros [_ [_ [_ [_ H]]]]. discriminate H.
    - rewrite !toUpperCase_peel by discriminate. rewrite toUpperCase_empty.
      destruct (toUpperChar_letter c1) as [G1 _].
      destruct (toUpperChar_letter c2) as [_ [U2 _]].
      destruct (toUpperChar_letter c3) as [_ [_ [A3 _]]].
      destruct (toUpperChar_letter c4) as [_ [_ [_ [R4 _]]]].
      destruct (toUpperChar_letter c5) as [_ [_ [_ [_ D5]]]].
      rewrite G1, U2, A3, R4, D5. cbn [Js.toLowerCase]. split.
      + intros [-> [-> [-> [-> [-> ->]]]]]. reflexivity.
      + intros H. injection H as H1 H2 H3 H4 H5 H6.
        apply toLowerCase_empty_inv in H6. repeat split; assumption. }
  destruct (Js.toUpperCase s) as [u|].
  - rewrite String.eqb_eq. rewrite <- Hiff. split; congruence.
  - rewrite <- Hiff. split; discriminate.
Qed.

(** The guards offered for assignment are the accounts whose type is
    "GUARD" in any letter case, in the order of the accounts, each with the
    id and the name of its account. *)
Theorem guardsOf_accounts (usersData : list UserAccount) :
  (exists isGuard : UserAccount -> bool,
     (forall u, isGuard u = true <->
        Js.toLowerCase (Js.orElse (account_accountType u) "") = "guard") /\
     Stations.guardsOf usersData = map guardOfAccount (filter isGuard usersData)) /\
  (forall g, In g (Stations.guardsOf usersData) ->
     Js.toLowerCase (accountType g) = "guard" /\
     exists u, In u usersData /\ user_id g = accountID u /\
               username g = account_username u).
Proof.
  split.
  - exists (fun u => Js.toUpperCaseIs (Js.orElse (account_accountType u) "") "GUARD").
    split; [intros u; apply toUpperCaseIs_GUARD | reflexivity].
  - intros g Hg. unfold Stations.guardsOf in Hg. apply in_map_iff in Hg.
    destruct Hg as [u [<- Hu]]. apply filter_In in Hu. destruct Hu as [Hu Hty].
    apply toUpperCaseIs_GUARD in Hty. split; [exact Hty|].
    exists u. repeat split. exact Hu.
Qed.

(* ------------------------------------------------------------------ *)
(** * More on the guard selection *)

Lemma includesZ_filter_neq (l : list Z) (g x : Z) :
  Js.includesZ (filter (fun k => negb (k =? g)) l) x
  = Js.includesZ l x && negb (x =? g).
Proof.
  unfold Js.includesZ. induction l as [|y l IH]; [reflexivity|]. simpl.
  destruct (y =? g) eqn:Hy; simpl; rewrite IH.
  - apply Z.eqb_eq in Hy. destruct (x =? y) eqn:Hxy; [|reflexivity].
    apply Z.eqb_eq in Hxy. assert (Hxg : (x =? g) = true) by (apply Z.eqb_eq; lia).
    rewrite Hxg. simpl. now rewrite andb_false_r.
  - apply Z.eqb_neq in Hy. destruct (x =? y) eqn:Hxy; [|reflexivity].
    apply Z.eqb_eq in Hxy. assert (Hxg : (x =? g) = false) by (apply Z.eqb_neq; lia).
    rewrite Hxg. reflexivity.
Qed.

Lemma includesZ_snoc (l : list Z) (g x : Z) :
  Js.includesZ (l ++ [g]) x = Js.includesZ l x || (x =? g).
Proof.
  unfold Js.includesZ. rewrite existsb_app. simpl. now rewrite orb_false_r.
Qed.

(** Ticking the tile of a guard flips that tile and no other; ticking it
    twice leaves every tile as it was. *)
Theorem toggle_flips_one_tile (st : Stations.State) (g x : Z) :
  let ticked (s : Stations.State) (k : Z) :=
    Js.includesZ (Stations.selectedGuardIds s) k in
  ticked (Stations.handleToggleGuardSelection st g) x
  = (if x =? g then negb (ticked st x) else ticked st x) /\
  ticked (Stations.handleToggleGuardSelection
            (Stations.handleToggleGuardSelection st g) g) x
  = ticked st x.
Proof.
  intros ticked.
  assert (Hone : forall s, ticked (Stations.handleToggleGuardSelection s g) x
                 = (if x =? g then negb (ticked s x) else ticked s x)).
  { intros s. unfold ticked, Stations.handleToggleGuardSelection. simpl.
    destruct (Js.includesZ (Stations.selectedGuardIds s) g) eqn:Hg.
    - rewrite includesZ_filter_neq.
      destruct (x =? g) eqn:Hx; simpl.
      + apply Z.eqb_eq in Hx. subst x. now rewrite Hg.
      + now rewrite andb_true_r.
    - rewrite includesZ_snoc.
      destruct (x =? g) eqn:Hx; simpl.
      + apply Z.eqb_eq in Hx. subst x. now rewrite Hg.
      + now rewrite orb_false_r. }
  split; [apply Hone|]. rewrite Hone, Hone.
  destruct (x =? g); [apply negb_involutive | reflexivity].
Qed.

(* ------------------------------------------------------------------ *)
(** * Activating and deactivating a station *)

Lemma matchesTab_inactive (st : Stations.State) (s : Station) :
  Stations.showInactive st = false -> active s = Some false ->
  Stations.matchesTab st s = false.
Proof.
  intros Hshow Hact. destruct (Stations.matchesTab st s) eqn:Hm; [|reflexivity].
  apply matchesTab_spec in Hm. destruct Hm as [_ [H | H]]; congruence.
Qed.

(** Without the operator's confirmation nothing is sent and nothing
    changes.  With it, the request asks for the opposite of what the list
    shows, a station without a flag counting as active; and when the
    response carries the flag asked for, every station with that id shows
    the opposite state while the stations with another id stay as they
    are. *)
Theorem toggle_active_flips (st : Stations.State) (station updated : Station)
    (resp : Stations.ApiResult Station) :
  Stations.handleToggleStationActive st station false resp = ([], st) /\
  fst (Stations.handleToggleStationActive st station true resp)
  = [Stations.setStationActive (id station) (negb (Stations.isActive station))] /\
  (id updated = id station ->
   active updated = Some (negb (Stations.isActive station)) ->
   let st' := snd (Stations.handleToggleStationActive st station true
                     (Stations.Resolved updated)) in
   List.length (Stations.stations st') = List.length (Stations.stations st) /\
   (forall s, In s (Stations.stations st') -> id s = id station ->
      Stations.isActive s = negb (Stations.isActive station)) /\
   (forall s, id s <> id station ->
      (In s (Stations.stations st') <-> In s (Stations.stations st)))).
Proof.
  split; [reflexivity|]. split.
  - unfold Stations.handleToggleStationActive, Stations.isActive. simpl negb.
    destruct resp as [u | m].
    + destruct (_ && _ && _); destruct (active station) as [[|]|]; reflexivity.
    + destruct (active station) as [[|]|]; reflexivity.
  - intros Hid Hact st'.
    assert (Hst : Stations.stations st'
                  = map (fun s => if id s =? id station
                                  then Stations.spreadStation s updated else s)
                        (Stations.stations st)).
    { unfold st', Stations.handleToggleStationActive. simpl negb.
      destruct (_ && _ && _); reflexivity. }
    rewrite Hst. split; [apply length_map|]. split.
    + intros s Hs Hsid. apply in_map_iff in Hs. destruct Hs as [s0 [<- _]].
      destruct (id s0 =? id station) eqn:He.
      * unfold Stations.isActive at 1, Stations.spreadStation. simpl.
        rewrite Hact. destruct (Stations.isActive station); reflexivity.
      * apply Z.eqb_neq in He. contradiction.
    + intros s Hsid. rewrite in_map_iff. split.
      * intros [s0 [Hs0 Hin]]. destruct (Z.eqb_spec (id s0) (id station)) as [He | He].
        -- subst s. simpl in Hsid. congruence.
        -- now subst s.
      * intros Hin. exists s. split; [|exact Hin].
        destruct (Z.eqb_spec (id s) (id station)); [contradiction | reflexivity].
Qed.

Lemma toggle_active_flips_witness :
  Stations.isActive (Stations.spreadStation Sample.northGate Sample.northGateOff)
  = negb (Stations.isActive Sample.northGate).
Proof.
  refine (proj1 (proj2 (proj2 (proj2
    (toggle_active_flips
       (Sample.stationsPage [Sample.northGate; Sample.lobby] None "" gate)
       Sample.northGate Sample.northGateOff (Stations.Rejected None))) _ _))
    (Stations.spreadStation Sample.northGate Sample.northGateOff) _ _).
  - reflexivity.
  - reflexivity.
  - left. reflexivity.
  - reflexivity.
Defined.

(** A station that is deactivated while deactivated stations are hidden
    leaves the list and, if it was the selected one, the selection; another
    selection is kept. *)
Theorem deactivated_station_is_hidden (st : Stations.State)
    (station updated : Station) :
  Stations.showInactive st = false ->
  id updated = id station ->
  active updated = Some false ->
  let st' := snd (Stations.handleToggleStationActive st station true
                    (Stations.Resolved updated)) in
  (forall s, In s (Stations.filteredStations st') -> id s <> id station) /\
  Stations.selectedStationId st' <> Some (id station) /\
  (Stations.selectedStationId st <> Some (id station) ->
   Stations.selectedStationId st' = Stations.selectedStationId st).
Proof.
  intros Hshow Hid Hact st'.
  assert (Hst : Stations.stations st'
                = map (fun s => if id s =? id station
                                then Stations.spreadStation s updated else s)
                      (Stations.stations st)).
  { unfold st', Stations.handleToggleStationActive. simpl negb.
    destruct (_ && _ && _); reflexivity. }
  assert (Hshow' : Stations.showInactive st' = false).
  { unfold st', Stations.handleToggleStationActive. simpl negb.
    destruct (_ && _ && _); exact Hshow. }
  assert (Hsel : Stations.selectedStationId st'
                 = match Stations.selectedStationId st with
                   | Some sid => if sid =? id station then None else Some sid
                   | None => None
                   end).
  { unfold st', Stations.handleToggleStationActive.
    rewrite Hact, Hshow.
    destruct (Stations.selectedStationId st) as [sid|] eqn:Hs;
      [destruct (sid =? id station)|]; simpl; rewrite ?Hs; reflexivity. }
  split; [|split].
  - intros s Hs Hsid. unfold Stations.filteredStations in Hs.
    apply filter_In in Hs. destruct Hs as [Hin Hm]. rewrite Hst in Hin.
    apply in_map_iff in Hin. destruct Hin as [s0 [Hs0 _]].
    destruct (Z.eqb_spec (id s0) (id station)) as [He | He].
    + rewrite (matchesTab_inactive st' s Hshow') in Hm; [discriminate|].
      subst s. unfold Stations.spreadStation. simpl. now rewrite Hact.
    + subst s. contradiction.
  - rewrite Hsel. destruct (Stations.selectedStationId st) as [sid|]; [|discriminate].
    destruct (Z.eqb_spec sid (id station)); [discriminate | congruence].
  - intros Hne. rewrite Hsel.
    destruct (Stations.selectedStationId st) as [sid|]; [|reflexivity].
    destruct (Z.eqb_spec sid (id station)); [congruence | reflexivity].
Qed.

Lemma deactivated_station_is_hidden_witness :
  Stations.selectedStationId
    (snd (Stations.handleToggleStationActive
            (Sample.stationsPage [Sample.northGate; Sample.lobby] (Some 8) "" gate)
            Sample.northGate true (Stations.Resolved Sample.northGateOff)))
  <> Some 8.
Proof.
  refine (proj1 (proj2
    (deactivated_station_is_hidden
       (Sample.stationsPage [Sample.northGate; Sample.lobby] (Some 8) "" gate)
       Sample.northGate Sample.northGateOff _ _ _))); reflexivity.
Defined.

(* ------------------------------------------------------------------ *)
(** * More on creating a station *)

Lemma handleCreateStation_duplicate (st : Stations.State)
    (resp : Stations.ApiResult Station) :
  Js.trim (Stations.createName st) <> "" ->
  DuplicateOf (Stations.stations st) (Js.trim (Stations.createName st)) ->
  Stations.handleCreateStation st resp
  = ([], Stations.setCreateError st (Some duplicateNameError)).
Proof.
  intros Hne Hd. unfold Stations.handleCreateStation.
  change (Stations.createName (Stations.setCreateError st None))
    with (Stations.createName st).
  change (Stations.stations (Stations.setCreateError st None))
    with (Stations.stations st).
  apply truthy_iff in Hne. rewrite Hne.
  apply existsb_duplicate in Hd. simpl negb. cbv iota. rewrite Hd. reflexivity.
Qed.

Lemma handleCreateStation_sent (st : Stations.State)
    (resp : Stations.ApiResult Station) :
  let rawName := Js.trim (Stations.createName st) in
  let kind := Stations.createType st in
  rawName <> "" -> ~ DuplicateOf (Stations.stations st) rawName ->
  Stations.handleCreateStation st resp
  = ([Stations.createStation (Stations.gatePrefixed kind rawName) kind true],
     match resp with
     | Stations.Resolved created =>
         Stations.setCreateModalOpen
           (Stations.setStations (Stations.setCreateError st None)
              (Stations.stations st ++ [createdStation created kind]))
           false
     | Stations.Rejected message =>
         Stations.setCreateError st
           (Some (Js.orElse message "Failed to create station."))
     end).
Proof.
  intros rawName kind Hne Hd. unfold Stations.handleCreateStation.
  change (Stations.createName (Stations.setCreateError st None))
    with (Stations.createName st).
  change (Stations.stations (Stations.setCreateError st None))
    with (Stations.stations st).
  change (Stations.createType (Stations.setCreateError st None))
    with (Stations.createType st).
  fold rawName kind. apply truthy_iff in Hne. rewrite Hne. simpl negb. cbv iota.
  destruct (existsb _ (Stations.stations st)) eqn:He.
  - exfalso. apply Hd. now apply existsb_duplicate.
  - destruct resp; reflexivity.
Qed.

Lemma DuplicateOf_snoc (sts : list Station) (x : Station) (rawName : string) :
  DuplicateOf (sts ++ [x]) rawName <->
  DuplicateOf sts rawName \/
  Js.toLowerCase (Js.orElse (name x) "") = Js.toLowerCase rawName.
Proof.
  unfold DuplicateOf. split.
  - intros [s [Hin H]]. apply in_app_iff in Hin. destruct Hin as [Hin | [<- | []]].
    + left. exists s. auto.
    + right. exact H.
  - intros [[s [Hin H]] | H].
    + exists s. split; [apply in_app_iff; auto | exact H].
    + exists x. split; [apply in_app_iff; right; now left | exact H].
Qed.

(** A request that the server accepts adds one station, at the end of the
    list, and closes the form; when the response carries no type or the
    type asked for, the classifier gives the new station the kind chosen in
    the form, and the station is listed at once if that kind is the open tab
    and the response does not say inactive.  A request that the server
    refuses leaves the stations as they are and shows its message. *)
Theorem created_station_is_listed (st : Stations.State) (created : Station)
    (message : option string) :
  let rawName := Js.trim (Stations.createName st) in
  let kind := Stations.createType st in
  rawName <> "" -> ~ DuplicateOf (Stations.stations st) rawName ->
  let st' := snd (Stations.handleCreateStation st (Stations.Resolved created)) in
  let failed := snd (Stations.handleCreateStation st (Stations.Rejected message)) in
  Stations.stations st' = (Stations.stations st ++ [createdStation created kind])%list /\
  Stations.createModalOpen st' = false /\
  (stationType created = None \/ typedAs created kind ->
   classify (createdStation created kind) = kind /\
   (Stations.currentType st = kind -> active created <> Some false ->
    In (createdStation created kind) (Stations.filteredStations st'))) /\
  Stations.stations failed = Stations.stations st /\
  Stations.createError failed = Some (Js.orElse message "Failed to create station.").
Proof.
  intros rawName kind Hne Hd st' failed. unfold st', failed.
  rewrite !(handleCreateStation_sent st _ Hne Hd). cbn [snd].
  split; [reflexivity|]. split; [reflexivity|]. split; [|split; reflexivity].
  intros Hty.
  assert (Hc : classify (createdStation created kind) = kind).
  { unfold classify, createdStation, typedAs in *. fold kind. cbn [stationType name].
    destruct Hty as [-> | Hty].
    - destruct kind; reflexivity.
    - destruct (stationType created) as [t|]; [|destruct kind; reflexivity].
      cbn [Js.nullish Js.orElse]. destruct t as [|c t]; [destruct kind; discriminate Hty|].
      cbn [Js.truthy Js.orElse] in *. rewrite Hty. destruct kind; reflexivity. }
  split; [exact Hc|]. intros Htab Hact.
  unfold Stations.filteredStations. apply filter_In. split.
  - cbn. apply in_app_iff. right. now left.
  - apply matchesTab_spec. split.
    + left. rewrite Hc. symmetry. exact Htab.
    + right. unfold createdStation. cbn [active].
      destruct (active created) as [[|]|]; cbn; congruence.
Qed.

Lemma created_station_is_listed_witness :
  In (createdStation Sample.createdGate3 gate)
     (Stations.filteredStations
        (snd (Stations.handleCreateStation
                (Sample.stationsPage [Sample.lobby] None " 3 " gate)
                (Stations.Resolved Sample.createdGate3)))).
Proof.
  refine (proj2 (proj1 (proj2 (proj2
    (created_station_is_listed (Sample.stationsPage [Sample.lobby] None " 3 " gate)
       Sample.createdGate3 None _ _))) _) _ _).
  - vm_compute. discriminate.
  - intros [s [[Hs | []] H]]. subst s. vm_compute in H. discriminate.
  - left. reflexivity.
  - reflexivity.
  - discriminate.
Defined.

Lemma str_length_app (a b : string) :
  String.length (a ++ b) = (String.length a + String.length b)%nat.
Proof. induction a as [|c a IH]; simpl; [reflexivity | now rewrite IH]. Qed.

Lemma toLowerCase_length (a : string) :
  String.length (Js.toLowerCase a) = String.length a.
Proof. induction a as [|c a IH]; simpl; [reflexivity | now rewrite IH]. Qed.

Lemma gatePrefixed_nonempty (kind : StationKind) (rawName : string) :
  rawName <> "" -> Stations.gatePrefixed kind rawName <> "".
Proof.
  unfold Stations.gatePrefixed. destruct (_ && _); [discriminate | auto].
Qed.

(** Once a station has been created under its final name, typing that name
    again, in any letter case and with blanks around it, is refused as a
    duplicate, whatever kind is chosen. *)
Theorem recreate_final_name_refused (st st2 : Stations.State) (created : Station)
    (resp2 : Stations.ApiResult Station) :
  let rawName := Js.trim (Stations.createName st) in
  let finalName := Stations.gatePrefixed (Stations.createType st) rawName in
  rawName <> "" -> ~ DuplicateOf (Stations.stations st) rawName ->
  name created = Some finalName ->
  Stations.stations st2
  = Stations.stations (snd (Stations.handleCreateStation st (Stations.Resolved created))) ->
  Js.toLowerCase (Js.trim (Stations.createName st2)) = Js.toLowerCase finalName ->
  Stations.handleCreateStation st2 resp2
  = ([], Stations.setCreateError st2 (Some duplicateNameError)).
Proof.
  intros rawName finalName Hne Hd Hname Hsts Htyped.
  rewrite (handleCreateStation_sent st _ Hne Hd) in Hsts. cbn [snd] in Hsts.
  change (Stations.stations (Stations.setCreateModalOpen
            (Stations.setStations (Stations.setCreateError st None) ?l) false))
    with l in Hsts.
  pose proof (gatePrefixed_nonempty (Stations.createType st) rawName Hne) as Hfin.
  fold finalName in Hfin.
  apply handleCreateStation_duplicate.
  - intros He. rewrite He in Htyped. destruct finalName; [contradiction | discriminate].
  - rewrite Hsts. apply DuplicateOf_snoc. right.
    unfold createdStation. cbn [name]. rewrite Hname.
    destruct finalName; [contradiction|]. cbn [Js.orElse Js.truthy].
    symmetry. exact Htyped.
Qed.

Lemma recreate_final_name_refused_witness :
  Stations.handleCreateStation
    (Sample.stationsPage [Sample.lobby; createdStation Sample.createdGate3 gate]
                         None " gate 3" building)
    (Stations.Rejected None)
  = ([], Stations.setCreateError
           (Sample.stationsPage [Sample.lobby; createdStation Sample.createdGate3 gate]
                                None " gate 3" building)
           (Some duplicateNameError)).
Proof.
  refine (recreate_final_name_refused
            (Sample.stationsPage [Sample.lobby] None " 3 " gate)
            (Sample.stationsPage [Sample.lobby; createdStation Sample.createdGate3 gate]
                                 None " gate 3" building)
            Sample.createdGate3 (Stations.Rejected None) _ _ _ _ _).
  - vm_compute. discriminate.
  - intros [s [[Hs | []] H]]. subst s. vm_compute in H. discriminate.
  - reflexivity.
  - reflexivity.
  - reflexivity.
Defined.

(** The duplicate test looks at the name as typed, before "Gate " is put in
    front: after a gate has been created from a name without "gate", the
    same name typed again for a gate is sent again, under the same final
    name. *)
Theorem recreate_unprefixed_name_sent_again (st st2 : Stations.State)
    (created : Station) (resp2 : Stations.ApiResult Station) :
  let rawName := Js.trim (Stations.createName st) in
  rawName <> "" -> ~ DuplicateOf (Stations.stations st) rawName ->
  Stations.createType st = gate ->
  ~ Contains (Js.toLowerCase rawName) "gate" ->
  name created = Some ("Gate " ++ rawName) ->
  Stations.stations st2
  = Stations.stations (snd (Stations.handleCreateStation st (Stations.Resolved created))) ->
  Js.trim (Stations.createName st2) = rawName ->
  Stations.createType st2 = gate ->
  fst (Stations.handleCreateStation st (Stations.Resolved created))
  = [Stations.createStation ("Gate " ++ rawName) gate true] /\
  fst (Stations.handleCreateStation st2 resp2)
  = [Stations.createStation ("Gate " ++ rawName) gate true].
Proof.
  intros rawName Hne Hd Hkind Hgate Hname Hsts Hraw2 Hkind2.
  assert (Hfinal : Stations.gatePrefixed gate rawName = "Gate " ++ rawName).
  { unfold Stations.gatePrefixed. apply includes_false_iff in Hgate.
    now rewrite Hgate. }
  pose proof (handleCreateStation_sent st (Stations.Resolved created) Hne Hd) as Hsent.
  cbv zeta in Hsent. fold rawName in Hsent. rewrite Hkind, Hfinal in Hsent.
  rewrite Hsent in Hsts. rewrite Hsent. cbn [fst snd] in *. split; [reflexivity|].
  change (Stations.stations (Stations.setCreateModalOpen
            (Stations.setStations (Stations.setCreateError st None) ?l) false))
    with l in Hsts.
  pose proof (handleCreateStation_sent st2 resp2) as Hsent2.
  cbv zeta in Hsent2. rewrite Hraw2, Hkind2, Hfinal in Hsent2.
  rewrite Hsent2; [reflexivity | exact Hne |].
  rewrite Hsts. rewrite DuplicateOf_snoc. intros [H | H]; [now apply Hd|].
  unfold createdStation in H. cbn [name] in H. rewrite Hname in H.
  cbn [append Js.orElse Js.truthy] in H.
  apply (f_equal String.length) in H.
  rewrite !toLowerCase_length in H. simpl in H. lia.
Qed.

Lemma recreate_unprefixed_name_sent_again_witness :
  fst (Stations.handleCreateStation
         (Sample.stationsPage [Sample.lobby; createdStation Sample.createdGate3 gate]
                              None "3" gate)
         (Stations.Rejected None))
  = [Stations.createStation "Gate 3" gate true].
Proof.
  refine (proj2 (recreate_unprefixed_name_sent_again
            (Sample.stationsPage [Sample.lobby] None " 3 " gate)
            (Sample.stationsPage [Sample.lobby; createdStation Sample.createdGate3 gate]
                                 None "3" gate)
            Sample.createdGate3 (Stations.Rejected None) _ _ _ _ _ _ _ _)).
  - vm_compute. discriminate.
  - intros [s [[Hs | []] H]]. subst s. vm_compute in H. discriminate.
  - reflexivity.
  - apply includes_false_iff. reflexivity.
  - reflexivity.
  - reflexivity.
  - reflexivity.
  - reflexivity.
Defined.

(** The name sent for a gate always contains "gate", so that the name alone
    makes the classifier call the station a gate; and putting the prefix is
    idempotent. *)
Theorem gate_name_is_recognised (kind : StationKind) (rawName : string) :
  Contains (Js.toLowerCase (Stations.gatePrefixed gate rawName)) "gate" /\
  classify (namedOnly (Stations.gatePrefixed gate rawName)) = gate /\
  Stations.gatePrefixed kind (Stations.gatePrefixed kind rawName)
  = Stations.gatePrefixed kind rawName.
Proof.
  assert (Hc : Js.includes (Js.toLowerCase (Stations.gatePrefixed gate rawName)) "gate"
               = true).
  { unfold Stations.gatePrefixed. cbn [StationKind_eqb andb].
    destruct (Js.includes (Js.toLowerCase rawName) "gate") eqn:Hi; [exact Hi|].
    cbn [negb]. apply includes_spec. exists "", (" " ++ Js.toLowerCase rawName).
    rewrite toLowerCase_app. reflexivity. }
  split; [now apply includes_spec|]. split.
  - unfold classify, namedOnly. cbn [stationType name Js.orElse Js.toLowerCase].
    change (String.eqb "" "gate") with false.
    change (String.eqb "" "building") with false. cbv iota.
    destruct (Js.truthy (Stations.gatePrefixed gate rawName)) eqn:Ht.
    + now rewrite Hc.
    + apply truthy_false_iff in Ht. rewrite Ht in Hc. discriminate Hc.
  - destruct kind; [|reflexivity].
    unfold Stations.gatePrefixed at 1. now rewrite Hc.
Qed.

(* ------------------------------------------------------------------ *)
(** * More on renaming a station *)

Lemma handleRenameStation_sent (st : Stations.State) (selected : Station)
    (resp : Stations.ApiResult Station) :
  let rawName := Js.trim (Stations.renameName st) in
  let kind := Stations.renameType st in
  Stations.selectedStation st = Some selected -> rawName <> "" ->
  Stations.handleRenameStation st resp
  = ([Stations.updateStation (id selected) (Stations.gatePrefixed kind rawName)
        (active selected) kind],
     match resp with
     | Stations.Resolved updated =>
         Stations.setRenameModalOpen
           (Stations.setStations st
              (map (fun s => if id s =? id selected
                             then Stations.mergeUpdated s updated kind else s)
                   (Stations.stations st)))
           false
     | Stations.Rejected message =>
         Stations.setRenameError st
           (Some (Js.orElse message "Failed to rename station."))
     end).
Proof.
  intros rawName kind Hsel Hne. unfold Stations.handleRenameStation.
  rewrite Hsel. fold rawName kind. apply truthy_iff in Hne. rewrite Hne.
  destruct resp; reflexivity.
Qed.

(** A rename that the server accepts changes the stations that bear the id
    of the selected one and no other, keeps the number of stations, and,
    when the response carries no type or the type chosen, leaves the renamed
    station classified as the kind chosen in the form.  A rename that the
    server refuses changes no station and shows its message. *)
Theorem rename_changes_selected_only (st : Stations.State)
    (selected updated : Station) (message : option string) :
  Stations.selectedStation st = Some selected ->
  Js.trim (Stations.renameName st) <> "" ->
  id updated = id selected ->
  let st' := snd (Stations.handleRenameStation st (Stations.Resolved updated)) in
  let failed := snd (Stations.handleRenameStation st (Stations.Rejected message)) in
  List.length (Stations.stations st') = List.length (Stations.stations st) /\
  (forall s, id s <> id selected ->
     (In s (Stations.stations st') <-> In s (Stations.stations st))) /\
  (stationType updated = None \/ typedAs updated (Stations.renameType st) ->
   forall s, In s (Stations.stations st') -> id s = id selected ->
     classify s = Stations.renameType st /\ active s <> None) /\
  Stations.stations failed = Stations.stations st /\
  Stations.renameError failed = Some (Js.orElse message "Failed to rename station.").
Proof.
  intros Hsel Hne Hid st' failed. unfold st', failed.
  rewrite !(handleRenameStation_sent st selected _ Hsel Hne). cbn [snd].
  change (Stations.stations (Stations.setRenameModalOpen
            (Stations.setStations st ?l) false)) with l.
  split; [apply length_map|]. split; [|split; [|split; reflexivity]].
  - intros s Hs. rewrite in_map_iff. split.
    + intros [s0 [Hs0 Hin]]. destruct (Z.eqb_spec (id s0) (id selected)) as [He | He].
      * subst s. simpl in Hs. congruence.
      * now subst s.
    + intros Hin. exists s. split; [|exact Hin].
      destruct (Z.eqb_spec (id s) (id selected)); [contradiction | reflexivity].
  - intros Hty s Hs Hsid. apply in_map_iff in Hs. destruct Hs as [s0 [<- _]].
    destruct (Z.eqb_spec (id s0) (id selected)) as [He | He]; [|contradiction].
    split; [|discriminate].
    unfold classify, Stations.mergeUpdated, typedAs in *. cbn [stationType name].
    destruct Hty as [-> | Hty].
    + destruct (Stations.renameType st); reflexivity.
    + destruct (stationType updated) as [t|];
        [|destruct (Stations.renameType st); reflexivity].
      cbn [Js.nullish Js.orElse].
      destruct t as [|c t]; [destruct (Stations.renameType st); discriminate Hty|].
      cbn [Js.truthy Js.orElse] in *. rewrite Hty.
      destruct (Stations.renameType st); reflexivity.
Qed.

Lemma rename_changes_selected_only_witness :
  classify (Stations.mergeUpdated Sample.gate3
              (Sample.station 4 (Some "Hall") None) building) = building /\
  active (Stations.mergeUpdated Sample.gate3
            (Sample.station 4 (Some "Hall") None) building) <> None.
Proof.
  refine (proj1 (proj2 (proj2
    (rename_changes_selected_only
       (Sample.stationsPage [Sample.gate3; Sample.lobby] (Some 4) "Hall" building)
       Sample.gate3 (Sample.station 4 (Some "Hall") None) None _ _ _))) _
    (Stations.mergeUpdated Sample.gate3 (Sample.station 4 (Some "Hall") None) building)
    _ _).
  - reflexivity.
  - vm_compute. discriminate.
  - reflexivity.
  - left. reflexivity.
  - left. reflexivity.
  - reflexivity.
Defined.

Lemma selectedStation_openRenameModal (st : Stations.State) :
  Stations.selectedStation (Stations.openRenameModal st)
  = Stations.selectedStation st.
Proof.
  unfold Stations.openRenameModal.
  destruct (Stations.selectedStation st) as [sel|] eqn:Hsel; [|exact Hsel].
  destruct (_ =? "gate")%string; [exact Hsel|].
  destruct (_ =? "building")%string; exact Hsel.
Qed.

(** The edit form opens with the name of the selected station and with its
    stored type, or with the open tab when no type is recognised; for a
    station picked from the list that has a name, the preselected type is
    the classifier's category. *)
Theorem rename_form_prefill (st : Stations.State) (selected : Station) :
  Stations.selectedStation st = Some selected ->
  let st' := Stations.openRenameModal st in
  Stations.renameName st' = Js.orElse (name selected) "" /\
  Stations.renameError st' = None /\
  (typedAs selected gate \/ typedAs selected building ->
   Stations.renameType st' = classify selected) /\
  (~ typedAs selected gate -> ~ typedAs selected building ->
   Stations.renameType st' = Stations.currentType st) /\
  (In selected (Stations.filteredStations st) ->
   Js.orElse (name selected) "" <> "" ->
   Stations.renameType st' = classify selected).
Proof.
  intros Hsel st'.
  assert (Htyped : typedAs selected gate \/ typedAs selected building ->
            Stations.renameType st' = classify selected).
  { unfold st', Stations.openRenameModal, classify, typedAs. rewrite Hsel.
    simpl kindString. intros [-> | ->]; reflexivity. }
  assert (Huntyped : ~ typedAs selected gate -> ~ typedAs selected building ->
            Stations.renameType st' = Stations.currentType st).
  { unfold st', Stations.openRenameModal, typedAs. rewrite Hsel.
    simpl kindString. intros Hg Hb.
    apply String.eqb_neq in Hg, Hb. rewrite Hg, Hb. reflexivity. }
  split; [|split; [|split; [exact Htyped | split; [exact Huntyped|]]]].
  - unfold st', Stations.openRenameModal. rewrite Hsel.
    destruct (_ =? "gate")%string; [reflexivity|].
    destruct (_ =? "building")%string; reflexivity.
  - unfold st', Stations.openRenameModal. rewrite Hsel. reflexivity.
  - intros Hin Hname. unfold Stations.filteredStations in Hin.
    apply filter_In in Hin. destruct Hin as [_ Hm]. apply matchesTab_spec in Hm.
    destruct Hm as [[Hc | [_ [_ Hl]]] _]; [|contradiction].
    destruct (string_dec (Js.toLowerCase (Js.orElse (stationType selected) "")) "gate")
      as [Hg | Hg]; [apply Htyped; now left|].
    destruct (string_dec (Js.toLowerCase (Js.orElse (stationType selected) ""))
                "building") as [Hb | Hb]; [apply Htyped; now right|].
    rewrite Hc. now apply Huntyped.
Qed.

Lemma rename_form_prefill_witness :
  Stations.renameType
    (Stations.openRenameModal
       (Sample.stationsPage [Sample.westGate; Sample.lobby] (Some 7) "" building))
  = classify Sample.westGate.
Proof.
  refine (proj2 (proj2 (proj2 (proj2
    (rename_form_prefill
       (Sample.stationsPage [Sample.westGate; Sample.lobby] (Some 7) "" building)
       Sample.westGate _)))) _ _).
  - reflexivity.
  - left. reflexivity.
  - discriminate.
Defined.

(** Opening the edit form on a listed station and saving it untouched sends
    the station's trimmed name under the classifier's category: the name
    goes out unchanged, except that a gate whose name does not contain
    "gate" is sent with "Gate " in front. *)
Theorem edit_form_saved_untouched (st : Stations.State) (selected : Station)
    (resp : Stations.ApiResult Station) :
  Stations.selectedStation st = Some selected ->
  In selected (Stations.filteredStations st) ->
  let rawName := Js.trim (Js.orElse (name selected) "") in
  rawName <> "" ->
  exists finalName,
    fst (Stations.handleRenameStation (Stations.openRenameModal st) resp)
    = [Stations.updateStation (id selected) finalName (active selected)
         (classify selected)] /\
    GatePrefixRule (classify selected) rawName finalName.
Proof.
  intros Hsel Hin rawName Hne.
  assert (Hname : Js.orElse (name selected) "" <> "").
  { intros H. apply Hne. unfold rawName. rewrite H. reflexivity. }
  destruct (rename_form_prefill st selected Hsel) as [Hn [_ [_ [_ Hty]]]].
  specialize (Hty Hin Hname).
  pose proof (handleRenameStation_sent (Stations.openRenameModal st) selected resp)
    as Hsent.
  cbv zeta in Hsent. rewrite Hn, Hty in Hsent. fold rawName in Hsent.
  rewrite Hsent; [|rewrite selectedStation_openRenameModal; exact Hsel | exact Hne].
  eexists. split; [reflexivity | apply gatePrefixed_rule].
Qed.

Lemma edit_form_saved_untouched_witness :
  exists finalName,
    fst (Stations.handleRenameStation
           (Stations.openRenameModal
              (Sample.stationsPage [Sample.northTyped; Sample.lobby] (Some 6) "" gate))
           (Stations.Rejected None))
    = [Stations.updateStation 6 finalName None gate] /\
    GatePrefixRule gate "North" finalName.
Proof.
  refine (edit_form_saved_untouched
            (Sample.stationsPage [Sample.northTyped; Sample.lobby] (Some 6) "" gate)
            Sample.northTyped (Stations.Rejected None) _ _ _).
  - reflexivity.
  - left. reflexivity.
  - vm_compute. discriminate.
Defined.

(* ------------------------------------------------------------------ *)
(** * Rows shown under a location option *)

(** Under a location option, every row of the filtered list matches a
    station record whose trimmed name is the option up to case, so that the
    row has an icon and the icon is taken from that record. *)
Theorem rows_under_option_match_station (st : LogBook.State) (n : string)
    (row : VisitorLogDTO) :
  In n (LogBook.locationOptions st) -> n <> "all" ->
  In row (LogBook.filteredLogs (LogBook.onLocationFilterChange st n)) ->
  exists m,
    matchedStation st (Js.trim (Js.orElse (location row) "")) = Some m /\
    In m (LogBook.stations st) /\
    Js.toLowerCase (Js.trim (Js.orElse (name m) "")) = Js.toLowerCase n /\
    LogBook.locationIcon st row
    = Some (if (Js.toLowerCase (Js.orElse (stationType m) "") =? "gate")%string
            then faDungeon else farBuilding).
Proof.
  intros Hn Hall Hrow.
  destruct (location_option_selects st n row Hn) as [_ [Hne Hpass]].
  apply filteredLogs_passes in Hrow. destruct Hrow as [_ [_ [Hloc _]]].
  apply (Hpass Hall) in Hloc.
  apply locationOptions_In, locationNames_In in Hn.
  destruct Hn as [[s [Hs Hname]] _].
  set (locationName := Js.trim (Js.orElse (location row) "")) in *.
  assert (Hblank : locationName <> "").
  { intros H. rewrite H in Hloc. destruct n; [contradiction | discriminate]. }
  unfold matchedStation.
  destruct (find _ (LogBook.stations st)) as [m|] eqn:Hfind.
  - exists m. apply find_some in Hfind as Hm. destruct Hm as [Hin Heq].
    apply String.eqb_eq in Heq. split; [reflexivity|]. split; [exact Hin|].
    split; [now rewrite Heq|].
    unfold LogBook.locationIcon. fold locationName.
    apply truthy_iff in Hblank. rewrite Hblank, Hfind. cbn [negb andb].
    rewrite orb_false_r, orb_true_r.
    destruct (_ =? "gate")%string; reflexivity.
  - exfalso. apply (find_none _ _ Hfind s) in Hs.
    apply String.eqb_neq in Hs. apply Hs. now rewrite <- Hname, Hloc.
Qed.

Lemma rows_under_option_match_station_witness :
  exists m,
    matchedStation (Sample.logBook [Sample.log 9 None (Some " gate 2 ") None] []
                                   Sample.gateStations 0 25)
                   "gate 2" = Some m /\
    In m Sample.gateStations.
Proof.
  destruct (rows_under_option_match_station
              (Sample.logBook [Sample.log 9 None (Some " gate 2 ") None] []
                              Sample.gateStations 0 25)
              "Gate 2" (Sample.log 9 None (Some " gate 2 ") None))
    as [m [Hm [Hin _]]].
  - left. reflexivity.
  - discriminate.
  - left. reflexivity.
  - exists m. split; [exact Hm | exact Hin].
Defined.
